(** * chemprop: features generators and the ensemble training run

    A shallow embedding of [chemprop/features/features_generators.py] and
    [chemprop/train/run_training.py].

    Python exceptions are values of [exception] carried by the [result]
    monad; numpy's float64 is Rocq's primitive binary64 [float]; the global
    registry dictionary is a [gmap string _] threaded through the
    registration calls; RDKit, descriptastorus and the training
    collaborators (train, evaluate, predict, ...) are Section variables. *)

From Stdlib Require Import Floats Ascii.
From stdpp Require Import gmap strings list sorting pretty.

Set Default Proof Using "Type".

(** ** Python exceptions and the error monad *)

Inductive exception : Type :=
  | ValueError (msg : string)
  | ImportError (msg : string)
  | ArgumentError
  | NameError (var : string)
  | KeyError (key : string)
  | IndexError
  | TypeError
  | UnpicklingError (path : string)
  | FileNotFoundError (path : string).

Inductive result (A : Type) : Type :=
  | Ok (a : A)
  | Raise (e : exception).
Arguments Ok {A} a.
Arguments Raise {A} e.

#[export] Instance result_ret : MRet result := fun A a => Ok a.
#[export] Instance result_bind : MBind result := fun A B f m =>
  match m with
  | Ok a => f a
  | Raise e => Raise e
  end.

Definition is_Ok {A} (r : result A) : Prop := exists a, r = Ok a.

(** [mentions msg w]: the text [w] occurs in [msg]. *)
Definition mentions (msg w : string) : Prop :=
  exists pre post, msg = pre +:+ w +:+ post.

Lemma string_app_assoc (a b c : string) : (a +:+ b) +:+ c = a +:+ (b +:+ c).
Proof.
  induction a as [|x a IH]; [done|].
  change (String x ((a +:+ b) +:+ c) = String x (a +:+ (b +:+ c))).
  by rewrite IH.
Qed.

(** The double-quote character of the f-strings. *)
Definition dquote : string := String "034"%char EmptyString.

(** ** features_generators.py *)

Module FeaturesGenerators.

Section Generators.

(** RDKit's molecule, bit vector and sparse count vector objects. *)
Variable Mol : Type.
Variable ExplicitBitVect : Type.
Variable UIntSparseIntVect : Type.

(** [Chem.MolFromSmiles]: [None] when the SMILES does not parse. *)
Variable MolFromSmiles : string -> option Mol.
Variable MolToSmiles : Mol -> string.
(** The two fingerprint functions, on a molecule, a radius and [nBits].
    They stand for RDKit on the arguments it accepts: that it rejects
    [nBits = 0] with ValueError is not part of this model, and what is
    said of their results is assumed for a positive [nBits] only. *)
Variable GetMorganFingerprintAsBitVect : Mol -> nat -> nat -> ExplicitBitVect.
Variable GetHashedMorganFingerprint : Mol -> nat -> nat -> UIntSparseIntVect.
Variable GetNumBits : ExplicitBitVect -> nat.
Variable GetLength : UIntSparseIntVect -> nat.
(** [DataStructs.ConvertToNumpyArray(vec, arr)] overwrites [arr]. *)
Variable ConvertBitVect : ExplicitBitVect -> list float -> list float.
Variable ConvertIntVect : UIntSparseIntVect -> list float -> list float.

(** A single molecule: [str] or [Chem.Mol]. *)
Inductive molecule : Type :=
  | MolStr (smiles : string)
  | MolObj (mol : Mol).

(** [Molecule]: one molecule, or a list of lists of molecules. *)
Inductive mol_data : Type :=
  | Single (m : molecule)
  | Grouped (datapoints : list (list molecule)).

(** What a generator returns: a 1D array, or the 2D array that
    [np.array] makes of a list of 1D arrays. *)
Inductive ndarray : Type :=
  | Array1 (v : list float)
  | Array2 (rows : list (list float)).

Definition np_zeros (n : nat) : list float := replicate n 0%float.
Definition np_array (features : list (list float)) : ndarray := Array2 features.

(** [len(a)] *)
Definition len (a : ndarray) : nat :=
  match a with
  | Array1 v => length v
  | Array2 rows => length rows
  end.

Definition FeaturesGenerator : Type := mol_data -> result ndarray.

(** The type of [FEATURES_GENERATOR_REGISTRY], a dict from names to
    generators. *)
Abbreviation registry := (gmap string FeaturesGenerator).

(** [register_features_generator(name)(features_generator)]: the decorator
    stores the generator and returns it. *)
Definition register_features_generator (features_generator_name : string)
    (features_generator : FeaturesGenerator) (REGISTRY : registry)
    : FeaturesGenerator * registry :=
  (features_generator, <[features_generator_name := features_generator]> REGISTRY).

Definition not_found_message (features_generator_name : string) : string :=
  "Features generator " +:+ dquote +:+ features_generator_name +:+ dquote
    +:+ " could not be found. "
    +:+ "If this generator relies on rdkit features, you may need to install descriptastorus.".

Definition get_features_generator (features_generator_name : string)
    (REGISTRY : registry) : result FeaturesGenerator :=
  match REGISTRY !! features_generator_name with
  | None => Raise (ValueError (not_found_message features_generator_name))
  | Some g => Ok g
  end.

Definition MORGAN_RADIUS : nat := 2.
Definition MORGAN_NUM_BITS : nat := 2048.

(** [Chem.MolFromSmiles(m) if type(m) == str else m] *)
Definition to_mol (m : molecule) : option Mol :=
  match m with
  | MolStr s => MolFromSmiles s
  | MolObj mol => Some mol
  end.

(** The RDKit fingerprint calls reject [None]; for a molecule they are
    taken to return (see the note at their declaration). *)
Definition call_bitvect (m : option Mol) (radius num_bits : nat)
    : result ExplicitBitVect :=
  match m with
  | Some mol => Ok (GetMorganFingerprintAsBitVect mol radius num_bits)
  | None => Raise ArgumentError
  end.

Definition call_hashed (m : option Mol) (radius num_bits : nat)
    : result UIntSparseIntVect :=
  match m with
  | Some mol => Ok (GetHashedMorganFingerprint mol radius num_bits)
  | None => Raise ArgumentError
  end.

(** The inner [for molecule in datapoint] loop of the binary generator. *)
Fixpoint morgan_binary_entry (datapoint : list molecule)
    (radius num_bits : nat) (entry_features : list (list float))
    : result (list (list float)) :=
  match datapoint with
  | [] => Ok entry_features
  | molecule :: rest =>
      let molecule := to_mol molecule in
      features_vec ← call_bitvect molecule radius num_bits;
      let f := np_zeros 1 in
      let f := ConvertBitVect features_vec f in
      morgan_binary_entry rest radius num_bits (entry_features ++ [f])
  end.

(** The outer [for datapoint in mol_data] loop. *)
Fixpoint morgan_binary_loop (mol_data : list (list molecule))
    (radius num_bits : nat) (features : list (list float))
    : result (list (list float)) :=
  match mol_data with
  | [] => Ok features
  | datapoint :: rest =>
      entry_features ← morgan_binary_entry datapoint radius num_bits [];
      morgan_binary_loop rest radius num_bits (features ++ entry_features)
  end.

Definition morgan_binary_features_generator (mol_data : mol_data)
    (radius num_bits : nat) : result ndarray :=
  match mol_data with
  | Grouped mol_data =>
      features ← morgan_binary_loop mol_data radius num_bits [];
      Ok (np_array features)
  | Single mol_data =>
      let mol_data := to_mol mol_data in
      features_vec ← call_bitvect mol_data radius num_bits;
      let features := np_zeros 1 in
      let features := ConvertBitVect features_vec features in
      Ok (Array1 features)
  end.

Fixpoint morgan_counts_entry (datapoint : list molecule)
    (radius num_bits : nat) (entry_features : list (list float))
    : result (list (list float)) :=
  match datapoint with
  | [] => Ok entry_features
  | molecule :: rest =>
      let molecule := to_mol molecule in
      features_vec ← call_hashed molecule radius num_bits;
      let f := np_zeros 1 in
      let f := ConvertIntVect features_vec f in
      morgan_counts_entry rest radius num_bits (entry_features ++ [f])
  end.

Fixpoint morgan_counts_loop (mol_data : list (list molecule))
    (radius num_bits : nat) (features : list (list float))
    : result (list (list float)) :=
  match mol_data with
  | [] => Ok features
  | datapoint :: rest =>
      entry_features ← morgan_counts_entry datapoint radius num_bits [];
      morgan_counts_loop rest radius num_bits (features ++ entry_features)
  end.

Definition morgan_counts_features_generator (mol_data : mol_data)
    (radius num_bits : nat) : result ndarray :=
  match mol_data with
  | Grouped mol_data =>
      features ← morgan_counts_loop mol_data radius num_bits [];
      Ok (np_array features)
  | Single mol_data =>
      let mol_data := to_mol mol_data in
      features_vec ← call_hashed mol_data radius num_bits;
      let features := np_zeros 1 in
      let features := ConvertIntVect features_vec features in
      Ok (Array1 features)
  end.

(** *** The descriptastorus generators *)

(** What [from descriptastorus.descriptors import ...] provides:
    [generator.process] of the two descriptor classes. It returns [None]
    for a SMILES that RDKit does not parse. *)
Record descriptastorus : Type := {
  RDKit2D_process : string -> option (list float);
  RDKit2DNormalized_process : string -> option (list float)
}.

(** [Chem.MolToSmiles(m, isomericSmiles=True) if type(m) != str else m] *)
Definition to_smiles (m : molecule) : string :=
  match m with
  | MolStr s => s
  | MolObj mol => MolToSmiles mol
  end.

(** [generator.process(smiles)[1:]]: subscripting [None] raises
    TypeError. *)
Definition process_tail (process : string -> option (list float))
    (smiles : string) : result (list float) :=
  match process smiles with
  | Some r => Ok (drop 1 r)
  | None => Raise TypeError
  end.

Fixpoint rdkit_entry (process : string -> option (list float))
    (datapoint : list molecule) (entry_features : list (list float))
    : result (list (list float)) :=
  match datapoint with
  | [] => Ok entry_features
  | molecule :: rest =>
      let molecule := to_smiles molecule in
      f ← process_tail process molecule;
      rdkit_entry process rest (entry_features ++ [f])
  end.

Fixpoint rdkit_loop (process : string -> option (list float))
    (mol_data : list (list molecule)) (features : list (list float))
    : result (list (list float)) :=
  match mol_data with
  | [] => Ok features
  | datapoint :: rest =>
      entry_features ← rdkit_entry process datapoint [];
      rdkit_loop process rest (features ++ entry_features)
  end.

Definition rdkit_generator (process : string -> option (list float))
    (mol_data : mol_data) : result ndarray :=
  match mol_data with
  | Grouped mol_data =>
      features ← rdkit_loop process mol_data [];
      Ok (np_array features)
  | Single mol_data =>
      let smiles := to_smiles mol_data in
      features ← process_tail process smiles;
      Ok (Array1 features)
  end.

Definition import_error_message (what : string) : string :=
  "Failed to import descriptastorus. Please install descriptastorus "
    +:+ "(https://github.com/bp-kelley/descriptastorus) to use " +:+ what +:+ ".".

(** The two definitions of each name: under [try] when the import
    succeeds, under [except ImportError] the mock that raises. *)
Definition rdkit_2d_features_generator (lib : option descriptastorus)
    : FeaturesGenerator :=
  match lib with
  | Some d => rdkit_generator (RDKit2D_process d)
  | None => fun _ => Raise (ImportError (import_error_message "RDKit 2D features"))
  end.

Definition rdkit_2d_normalized_features_generator (lib : option descriptastorus)
    : FeaturesGenerator :=
  match lib with
  | Some d => rdkit_generator (RDKit2DNormalized_process d)
  | None =>
      fun _ => Raise (ImportError (import_error_message "RDKit 2D normalized features"))
  end.

(** Module initialisation: the four decorated definitions, in order;
    [lib] is [None] when importing descriptastorus raises ImportError.
    A generator called through the registry gets the default
    [radius] and [num_bits]. *)
Definition module_init (lib : option descriptastorus) : registry :=
  let REGISTRY : registry := ∅ in
  let REGISTRY := (register_features_generator "morgan"
    (fun m => morgan_binary_features_generator m MORGAN_RADIUS MORGAN_NUM_BITS)
    REGISTRY).2 in
  let REGISTRY := (register_features_generator "morgan_count"
    (fun m => morgan_counts_features_generator m MORGAN_RADIUS MORGAN_NUM_BITS)
    REGISTRY).2 in
  let REGISTRY := (register_features_generator "rdkit_2d"
    (rdkit_2d_features_generator lib) REGISTRY).2 in
  let REGISTRY := (register_features_generator "rdkit_2d_normalized"
    (rdkit_2d_normalized_features_generator lib) REGISTRY).2 in
  REGISTRY.

(** A molecule the generators accept: a [Chem.Mol], or a SMILES string
    that [Chem.MolFromSmiles] parses. *)
Definition parses (m : molecule) : Prop := is_Some (to_mol m).

(** *** The registry *)

Lemma get_registered (name : string) (f : FeaturesGenerator) (R : registry) :
  get_features_generator name (register_features_generator name f R).2 = Ok f.
Proof.
  unfold get_features_generator, register_features_generator; cbn [snd].
  by rewrite lookup_insert_eq.
Qed.

Lemma not_found_mentions_install (name : string) :
  mentions (not_found_message name) "install descriptastorus".
Proof.
  exists ("Features generator " +:+ dquote +:+ name +:+ dquote
            +:+ " could not be found. "
            +:+ "If this generator relies on rdkit features, you may need to "),
         ".".
  unfold not_found_message. by rewrite !string_app_assoc.
Qed.

(** C5: registering [f] under [name] and then getting [name] returns [f]
    itself, the decorator hands [f] back unchanged, a second registration
    under the same name replaces the first without an error and leaves the
    registry as if the first had never happened, and getting a name that
    has no entry raises the ValueError whose message mentions installing
    descriptastorus. *)
Theorem register_get_round_trip (name other : string)
    (f g : FeaturesGenerator) (R : registry) (Habsent : R !! other = None) :
  get_features_generator name (register_features_generator name f R).2 = Ok f
  /\ (register_features_generator name f R).1 = f
  /\ get_features_generator name
       (register_features_generator name g
          (register_features_generator name f R).2).2 = Ok g
  /\ (register_features_generator name g
        (register_features_generator name f R).2).2
     = (register_features_generator name g R).2
  /\ exists msg,
       get_features_generator other R = Raise (ValueError msg)
       /\ mentions msg "install descriptastorus".
Proof.
  split_and!.
  - apply get_registered.
  - done.
  - apply get_registered.
  - unfold register_features_generator; cbn [snd]. apply insert_insert_eq.
  - exists (not_found_message other). split.
    + unfold get_features_generator. by rewrite Habsent.
    + apply not_found_mentions_install.
Qed.

(** *** The placeholders for the descriptastorus generators *)

Lemma import_error_mentions_package (what : string) :
  mentions (import_error_message what) "descriptastorus".
Proof.
  exists "Failed to import ",
    (". Please install descriptastorus "
       +:+ "(https://github.com/bp-kelley/descriptastorus) to use " +:+ what +:+ ".").
  done.
Qed.

(** C6: whether or not descriptastorus could be imported, module
    initialisation registers 'rdkit_2d' and 'rdkit_2d_normalized', so
    getting either name succeeds; when the import failed, the generator
    found under either name raises, on every input, the ImportError whose
    message names descriptastorus. *)
Theorem placeholders_registered_without_descriptastorus :
  (forall lib : option descriptastorus,
      is_Ok (get_features_generator "rdkit_2d" (module_init lib))
      /\ is_Ok (get_features_generator "rdkit_2d_normalized" (module_init lib)))
  /\ (exists g,
        get_features_generator "rdkit_2d" (module_init None) = Ok g
        /\ forall x, exists msg,
             g x = Raise (ImportError msg) /\ mentions msg "descriptastorus")
  /\ (exists g,
        get_features_generator "rdkit_2d_normalized" (module_init None) = Ok g
        /\ forall x, exists msg,
             g x = Raise (ImportError msg) /\ mentions msg "descriptastorus").
Proof.
  split_and!.
  - intros lib. split; eexists; unfold get_features_generator, module_init,
      register_features_generator; cbn [snd]; by simplify_map_eq.
  - eexists. split.
    + unfold get_features_generator, module_init, register_features_generator;
        cbn [snd]; by simplify_map_eq.
    + intros x. eexists. split; [done|]. apply import_error_mentions_package.
  - eexists. split.
    + unfold get_features_generator, module_init, register_features_generator;
        cbn [snd]; by simplify_map_eq.
    + intros x. eexists. split; [done|]. apply import_error_mentions_package.
Qed.

(** *** Grouped input *)

(** [single_row gen m v]: called on the one molecule [m], the generator
    [gen] returns the vector [v]. *)
Definition single_row (gen : mol_data -> nat -> nat -> result ndarray)
    (radius num_bits : nat) (m : molecule) (v : list float) : Prop :=
  gen (Single m) radius num_bits = Ok (Array1 v).

(** The total number of molecules of a grouped input. *)
Definition num_molecules (groups : list (list molecule)) : nat :=
  sum_list (length <$> groups).

Lemma num_molecules_concat (groups : list (list molecule)) :
  length (concat groups) = num_molecules groups.
Proof.
  unfold num_molecules.
  induction groups as [|g groups IH]; simpl; [done|].
  by rewrite length_app, IH.
Qed.

Lemma morgan_binary_entry_rows (radius num_bits : nat)
    (datapoint : list molecule) :
  Forall parses datapoint ->
  forall acc, exists rows,
    morgan_binary_entry datapoint radius num_bits acc = Ok (acc ++ rows)
    /\ Forall2 (single_row morgan_binary_features_generator radius num_bits)
         datapoint rows.
Proof.
  induction 1 as [|m rest [mol Hm] _ IH]; intros acc.
  - exists []. split; [by rewrite app_nil_r|constructor].
  - simpl. rewrite Hm. simpl.
    destruct (IH (acc ++
      [ConvertBitVect (GetMorganFingerprintAsBitVect mol radius num_bits)
         (np_zeros 1)])) as (rows & -> & Hrows).
    eexists (_ :: rows). split.
    + by rewrite <- app_assoc.
    + constructor; [|done].
      unfold single_row, morgan_binary_features_generator. by rewrite Hm.
Qed.

Lemma morgan_binary_loop_rows (radius num_bits : nat)
    (groups : list (list molecule)) :
  Forall (Forall parses) groups ->
  forall acc, exists rows,
    morgan_binary_loop groups radius num_bits acc = Ok (acc ++ rows)
    /\ Forall2 (single_row morgan_binary_features_generator radius num_bits)
         (concat groups) rows.
Proof.
  induction 1 as [|g groups Hg _ IH]; intros acc.
  - exists []. split; [by rewrite app_nil_r|constructor].
  - simpl.
    destruct (morgan_binary_entry_rows radius num_bits g Hg [])
      as (rows1 & -> & Hrows1).
    simpl. destruct (IH (acc ++ rows1)) as (rows2 & -> & Hrows2).
    exists (rows1 ++ rows2). split.
    + by rewrite <- app_assoc.
    + by apply Forall2_app.
Qed.

Lemma morgan_counts_entry_rows (radius num_bits : nat)
    (datapoint : list molecule) :
  Forall parses datapoint ->
  forall acc, exists rows,
    morgan_counts_entry datapoint radius num_bits acc = Ok (acc ++ rows)
    /\ Forall2 (single_row morgan_counts_features_generator radius num_bits)
         datapoint rows.
Proof.
  induction 1 as [|m rest [mol Hm] _ IH]; intros acc.
  - exists []. split; [by rewrite app_nil_r|constructor].
  - simpl. rewrite Hm. simpl.
    destruct (IH (acc ++
      [ConvertIntVect (GetHashedMorganFingerprint mol radius num_bits)
         (np_zeros 1)])) as (rows & -> & Hrows).
    eexists (_ :: rows). split.
    + by rewrite <- app_assoc.
    + constructor; [|done].
      unfold single_row, morgan_counts_features_generator. by rewrite Hm.
Qed.

Lemma morgan_counts_loop_rows (radius num_bits : nat)
    (groups : list (list molecule)) :
  Forall (Forall parses) groups ->
  forall acc, exists rows,
    morgan_counts_loop groups radius num_bits acc = Ok (acc ++ rows)
    /\ Forall2 (single_row morgan_counts_features_generator radius num_bits)
         (concat groups) rows.
Proof.
  induction 1 as [|g groups Hg _ IH]; intros acc.
  - exists []. split; [by rewrite app_nil_r|constructor].
  - simpl.
    destruct (morgan_counts_entry_rows radius num_bits g Hg [])
      as (rows1 & -> & Hrows1).
    simpl. destruct (IH (acc ++ rows1)) as (rows2 & -> & Hrows2).
    exists (rows1 ++ rows2). split.
    + by rewrite <- app_assoc.
    + by apply Forall2_app.
Qed.

(** C7: on a grouped input whose molecules all parse, the morgan and the
    morgan_count generator each return a 2D array whose rows are, in the
    order of the concatenated groups, exactly the vectors the same
    generator returns for each molecule alone; the number of rows is the
    total number of molecules. *)
Theorem morgan_grouped_is_flattened (groups : list (list molecule))
    (radius num_bits : nat) (Hvalid : Forall (Forall parses) groups) :
  (exists rows,
      morgan_binary_features_generator (Grouped groups) radius num_bits
        = Ok (Array2 rows)
      /\ Forall2 (single_row morgan_binary_features_generator radius num_bits)
           (concat groups) rows
      /\ len (Array2 rows) = num_molecules groups)
  /\ (exists rows,
        morgan_counts_features_generator (Grouped groups) radius num_bits
          = Ok (Array2 rows)
        /\ Forall2 (single_row morgan_counts_features_generator radius num_bits)
             (concat groups) rows
        /\ len (Array2 rows) = num_molecules groups).
Proof.
  split.
  - destruct (morgan_binary_loop_rows radius num_bits groups Hvalid [])
      as (rows & Hloop & Hrows).
    exists rows. split_and!; [|done|].
    + unfold morgan_binary_features_generator. by rewrite Hloop.
    + simpl. rewrite <- (Forall2_length _ _ _ Hrows).
      apply num_molecules_concat.
  - destruct (morgan_counts_loop_rows radius num_bits groups Hvalid [])
      as (rows & Hloop & Hrows).
    exists rows. split_and!; [|done|].
    + unfold morgan_counts_features_generator. by rewrite Hloop.
    + simpl. rewrite <- (Forall2_length _ _ _ Hrows).
      apply num_molecules_concat.
Qed.

(** *** Single molecules *)


(** *** A molecule that does not parse *)

Lemma parses_or_not (datapoint : list molecule) :
  Forall parses datapoint \/ Exists (fun m => to_mol m = None) datapoint.
Proof.
  induction datapoint as [|m rest [IH|IH]].
  - left. constructor.
  - destruct (to_mol m) eqn:Hm.
    + left. constructor; [by eexists|done].
    + right. by left.
  - right. by right.
Qed.

Lemma morgan_binary_entry_unparsable (radius num_bits : nat)
    (datapoint : list molecule) (acc : list (list float)) :
  Exists (fun m => to_mol m = None) datapoint ->
  morgan_binary_entry datapoint radius num_bits acc = Raise ArgumentError.
Proof.
  revert acc. induction datapoint as [|m rest IH]; intros acc H.
  - by apply Exists_nil in H.
  - simpl. destruct (to_mol m) eqn:Hm; simpl; [|done].
    apply IH. by apply Exists_cons in H as [H|H]; [congruence|].
Qed.

Lemma morgan_counts_entry_unparsable (radius num_bits : nat)
    (datapoint : list molecule) (acc : list (list float)) :
  Exists (fun m => to_mol m = None) datapoint ->
  morgan_counts_entry datapoint radius num_bits acc = Raise ArgumentError.
Proof.
  revert acc. induction datapoint as [|m rest IH]; intros acc H.
  - by apply Exists_nil in H.
  - simpl. destruct (to_mol m) eqn:Hm; simpl; [|done].
    apply IH. by apply Exists_cons in H as [H|H]; [congruence|].
Qed.

(** X14: one molecule that RDKit does not parse, anywhere in a grouped
    input, makes the morgan and the morgan_count generator raise (the
    fingerprint call rejects [None]); no array of the other molecules'
    features is returned. *)
Theorem unparsable_molecule_raises (groups : list (list molecule))
    (radius num_bits : nat) :
  Exists (Exists (fun m => to_mol m = None)) groups ->
  morgan_binary_features_generator (Grouped groups) radius num_bits
    = Raise ArgumentError
  /\ morgan_counts_features_generator (Grouped groups) radius num_bits
    = Raise ArgumentError.
Proof.
  intros H. unfold morgan_binary_features_generator,
    morgan_counts_features_generator.
  assert (forall acc, morgan_binary_loop groups radius num_bits acc
                      = Raise ArgumentError) as Hb.
  { induction groups as [|g groups IH]; intros acc.
    - by apply Exists_nil in H.
    - simpl. destruct (parses_or_not g) as [Hg|Hg].
      + destruct (morgan_binary_entry_rows radius num_bits g Hg [])
          as (rows & -> & _). simpl. apply IH.
        apply Exists_cons in H as [H|H]; [|done].
        exfalso. apply Exists_exists in H as (m & Hin & Hm).
        rewrite Forall_forall in Hg. destruct (Hg m Hin) as [? ?]. congruence.
      + by rewrite morgan_binary_entry_unparsable. }
  assert (forall acc, morgan_counts_loop groups radius num_bits acc
                      = Raise ArgumentError) as Hc.
  { clear Hb. induction groups as [|g groups IH]; intros acc.
    - by apply Exists_nil in H.
    - simpl. destruct (parses_or_not g) as [Hg|Hg].
      + destruct (morgan_counts_entry_rows radius num_bits g Hg [])
          as (rows & -> & _). simpl. apply IH.
        apply Exists_cons in H as [H|H]; [|done].
        exfalso. apply Exists_exists in H as (m & Hin & Hm).
        rewrite Forall_forall in Hg. destruct (Hg m Hin) as [? ?]. congruence.
      + by rewrite morgan_counts_entry_unparsable. }
  by rewrite Hb, Hc.
Qed.

(** *** The descriptastorus generators on a grouped input *)

(** A molecule whose SMILES [process] handles. *)
Definition processed (process : string -> option (list float))
    (m : molecule) : Prop :=
  is_Some (process (to_smiles m)).

Lemma rdkit_entry_rows (process : string -> option (list float))
    (datapoint : list molecule) :
  Forall (processed process) datapoint ->
  forall acc, exists rows,
    rdkit_entry process datapoint acc = Ok (acc ++ rows)
    /\ Forall2 (fun m v => rdkit_generator process (Single m) = Ok (Array1 v)
                           /\ exists r, process (to_smiles m) = Some r
                                        /\ v = drop 1 r)
         datapoint rows.
Proof.
  induction 1 as [|m rest [r Hr] _ IH]; intros acc.
  - exists []. split; [by rewrite app_nil_r|constructor].
  - simpl. unfold process_tail at 1. rewrite Hr. simpl.
    destruct (IH (acc ++ [drop 1 r])) as (rows & -> & Hrows).
    exists (drop 1 r :: rows). split; [by rewrite <- app_assoc|].
    constructor; [|done]. split; [|by exists r].
    unfold rdkit_generator, process_tail. by rewrite Hr.
Qed.

Lemma rdkit_loop_rows (process : string -> option (list float))
    (groups : list (list molecule)) :
  Forall (Forall (processed process)) groups ->
  forall acc, exists rows,
    rdkit_loop process groups acc = Ok (acc ++ rows)
    /\ Forall2 (fun m v => rdkit_generator process (Single m) = Ok (Array1 v)
                           /\ exists r, process (to_smiles m) = Some r
                                        /\ v = drop 1 r)
         (concat groups) rows.
Proof.
  induction 1 as [|g groups Hg _ IH]; intros acc.
  - exists []. split; [by rewrite app_nil_r|constructor].
  - simpl. destruct (rdkit_entry_rows process g Hg []) as (rows1 & -> & H1).
    simpl. destruct (IH (acc ++ rows1)) as (rows2 & -> & H2).
    exists (rows1 ++ rows2). split; [by rewrite <- app_assoc|].
    by apply Forall2_app.
Qed.

Lemma processed_or_not (process : string -> option (list float))
    (datapoint : list molecule) :
  Forall (processed process) datapoint
  \/ Exists (fun m => process (to_smiles m) = None) datapoint.
Proof.
  induction datapoint as [|m rest [IH|IH]].
  - left. constructor.
  - destruct (process (to_smiles m)) eqn:Hm.
    + left. constructor; [by eexists|done].
    + right. by left.
  - right. by right.
Qed.

Lemma rdkit_entry_unprocessed (process : string -> option (list float))
    (datapoint : list molecule) (acc : list (list float)) :
  Exists (fun m => process (to_smiles m) = None) datapoint ->
  rdkit_entry process datapoint acc = Raise TypeError.
Proof.
  revert acc. induction datapoint as [|m rest IH]; intros acc H.
  - by apply Exists_nil in H.
  - simpl. unfold process_tail at 1.
    destruct (process (to_smiles m)) eqn:Hm; simpl; [|done].
    apply IH. by apply Exists_cons in H as [H|H]; [congruence|].
Qed.

Lemma rdkit_loop_unprocessed (process : string -> option (list float))
    (groups : list (list molecule)) (acc : list (list float)) :
  Exists (Exists (fun m => process (to_smiles m) = None)) groups ->
  rdkit_loop process groups acc = Raise TypeError.
Proof.
  revert acc. induction groups as [|g groups IH]; intros acc H.
  - by apply Exists_nil in H.
  - simpl. destruct (processed_or_not process g) as [Hg|Hg].
    + destruct (rdkit_entry_rows process g Hg []) as (rows & -> & _).
      simpl. apply IH.
      apply Exists_cons in H as [H|H]; [|done].
      exfalso. apply Exists_exists in H as (m & Hin & Hm).
      rewrite Forall_forall in Hg. destruct (Hg m Hin) as [? ?]. congruence.
    + by rewrite rdkit_entry_unprocessed.
Qed.

(** X15: with descriptastorus present, on a grouped input all of whose
    molecules [process] handles, the rdkit_2d and the rdkit_2d_normalized
    generator each return one row per molecule, in the order of the
    concatenated groups: what [process] gives for the molecule's SMILES
    (a string as it is, a [Mol] through [MolToSmiles]) without its first
    entry, which is also what the generator returns for the molecule
    alone. One molecule for which [process] gives [None], anywhere in the
    input, makes the call raise TypeError. *)
Theorem rdkit_2d_grouped_is_flattened (d : descriptastorus)
    (groups : list (list molecule)) :
  (Forall (Forall (processed (RDKit2D_process d))) groups ->
   exists rows,
     rdkit_2d_features_generator (Some d) (Grouped groups) = Ok (Array2 rows)
     /\ Forall2 (fun m v =>
                   rdkit_2d_features_generator (Some d) (Single m)
                   = Ok (Array1 v)
                   /\ exists r, RDKit2D_process d (to_smiles m) = Some r
                                /\ v = drop 1 r)
          (concat groups) rows
     /\ length rows = num_molecules groups)
  /\ (Exists (Exists (fun m => RDKit2D_process d (to_smiles m) = None)) groups ->
      rdkit_2d_features_generator (Some d) (Grouped groups) = Raise TypeError)
  /\ (Forall (Forall (processed (RDKit2DNormalized_process d))) groups ->
      exists rows,
        rdkit_2d_normalized_features_generator (Some d) (Grouped groups)
        = Ok (Array2 rows)
        /\ Forall2 (fun m v =>
                      rdkit_2d_normalized_features_generator (Some d) (Single m)
                      = Ok (Array1 v)
                      /\ exists r,
                           RDKit2DNormalized_process d (to_smiles m) = Some r
                           /\ v = drop 1 r)
             (concat groups) rows
        /\ length rows = num_molecules groups)
  /\ (Exists (Exists (fun m => RDKit2DNormalized_process d (to_smiles m) = None))
        groups ->
      rdkit_2d_normalized_features_generator (Some d) (Grouped groups)
      = Raise TypeError).
Proof.
  split_and!.
  - intros H. destruct (rdkit_loop_rows _ groups H []) as (rows & Hl & Hrows).
    exists rows. cbn. rewrite Hl. cbn. split; [done|]. split; [done|].
    by rewrite <- (Forall2_length _ _ _ Hrows), num_molecules_concat.
  - intros H. cbn. by rewrite rdkit_loop_unprocessed.
  - intros H. destruct (rdkit_loop_rows _ groups H []) as (rows & Hl & Hrows).
    exists rows. cbn. rewrite Hl. cbn. split; [done|]. split; [done|].
    by rewrite <- (Forall2_length _ _ _ Hrows), num_molecules_concat.
  - intros H. cbn. by rewrite rdkit_loop_unprocessed.
Qed.

(** *** The names that are available *)

(** [get_available_features_generators()]: the keys of the registry, as
    a set. The list Python returns has them in the order of
    registration, which is not modelled. *)
Definition get_available_features_generators (REGISTRY : registry)
    : gset string :=
  dom REGISTRY.

(** X16: the names [get_available_features_generators] lists are exactly
    those [get_features_generator] finds. Registering adds the one name
    and leaves what every other name gets as it was. After module
    initialisation the names are morgan, morgan_count, rdkit_2d and
    rdkit_2d_normalized, with or without descriptastorus. *)
Theorem available_generators_are_the_registered_names
    (name : string) (f : FeaturesGenerator) (R : registry) :
  (forall other, other ∈ get_available_features_generators R
                 <-> is_Ok (get_features_generator other R))
  /\ get_available_features_generators (register_features_generator name f R).2
     = {[name]} ∪ get_available_features_generators R
  /\ (forall other, other <> name ->
        get_features_generator other (register_features_generator name f R).2
        = get_features_generator other R)
  /\ (forall lib,
        get_available_features_generators (module_init lib)
        = {["morgan"; "morgan_count"; "rdkit_2d"; "rdkit_2d_normalized"]}).
Proof.
  unfold get_available_features_generators, get_features_generator,
    register_features_generator. cbn [snd]. split_and!.
  - intros other. rewrite elem_of_dom. split.
    + intros [g ->]. by eexists.
    + intros [g Hg]. destruct (R !! other); [by eexists|done].
  - by rewrite dom_insert_L.
  - intros other Hne. by rewrite lookup_insert_ne.
  - intros lib. unfold module_init, register_features_generator. cbn [snd].
    rewrite !dom_insert_L, dom_empty_L. set_solver.
Qed.

End Generators.

(** *** The generators run on a toy RDKit

    A molecule is its SMILES string and the empty string does not parse;
    a fingerprint of [n] bits has its first bit set and the others clear,
    a count fingerprint counts the characters of the SMILES in its first
    entry. *)

Definition toy_MolFromSmiles (s : string) : option string :=
  if decide (s = "") then None else Some s.
Definition toy_bitvect (mol : string) (radius n : nat) : list bool :=
  take n (true :: replicate (pred n) false).
Definition toy_hashed (mol : string) (radius n : nat) : list nat :=
  take n (String.length mol :: replicate (pred n) 0).
Definition toy_convert_bits (fv : list bool) (arr : list float) : list float :=
  (fun b : bool => if b then 1%float else 0%float) <$> fv.
Definition toy_convert_counts (fv : list nat) (arr : list float) : list float :=
  (fun c : nat => PrimFloat.of_uint63 (Uint63.of_Z (Z.of_nat c))) <$> fv.

Definition toy_morgan : mol_data string -> nat -> nat -> result ndarray :=
  morgan_binary_features_generator string (list bool)
    toy_MolFromSmiles toy_bitvect toy_convert_bits.
Definition toy_morgan_count : mol_data string -> nat -> nat -> result ndarray :=
  morgan_counts_features_generator string (list nat)
    toy_MolFromSmiles toy_hashed toy_convert_counts.
Definition toy_registry (lib : option descriptastorus)
    : gmap string (FeaturesGenerator string) :=
  module_init string (list bool) (list nat) toy_MolFromSmiles id
    toy_bitvect toy_hashed toy_convert_bits toy_convert_counts lib.
Definition toy_groups : list (list (molecule string)) :=
  [[MolStr string "CCO"; MolObj string "CC"]; []; [MolStr string "C"]].



Example toy_morgan_single :
  toy_morgan (Single string (MolStr string "CCO")) 2 3
    = Ok (Array1 [1%float; 0%float; 0%float]).
Proof. reflexivity. Qed.

Example toy_morgan_grouped :
  toy_morgan (Grouped string toy_groups) 2 2
    = Ok (Array2 [[1%float; 0%float]; [1%float; 0%float]; [1%float; 0%float]]).
Proof. reflexivity. Qed.

Example toy_morgan_unparsable :
  toy_morgan (Grouped string [[MolStr string "CCO"; MolStr string ""]]) 2 2
    = Raise ArgumentError.
Proof. reflexivity. Qed.

Lemma register_get_round_trip_witness :
  let f : FeaturesGenerator string := fun _ => Ok (Array1 []) in
  let g : FeaturesGenerator string := fun _ => Ok (Array2 []) in
  let R := toy_registry None in
  R !! "custom" = None
  /\ get_features_generator string "custom"
       (register_features_generator string "custom" f R).2 = Ok f
  /\ (register_features_generator string "custom" f R).1 = f
  /\ get_features_generator string "custom"
       (register_features_generator string "custom" g
          (register_features_generator string "custom" f R).2).2 = Ok g
  /\ (register_features_generator string "custom" g
        (register_features_generator string "custom" f R).2).2
     = (register_features_generator string "custom" g R).2
  /\ exists msg,
       get_features_generator string "custom" R = Raise (ValueError msg)
       /\ mentions msg "install descriptastorus".
Proof.
  assert (H : toy_registry None !! "custom" = None) by reflexivity.
  split; [exact H|].
  exact (register_get_round_trip string "custom" "custom"
           (fun _ => Ok (Array1 [])) (fun _ => Ok (Array2 []))
           (toy_registry None) H).
Defined.

Lemma morgan_grouped_is_flattened_witness :
  Forall (Forall (parses string toy_MolFromSmiles)) toy_groups
  /\ (exists rows,
        toy_morgan (Grouped string toy_groups) 2 4 = Ok (Array2 rows)
        /\ Forall2 (single_row string toy_morgan 2 4) (concat toy_groups) rows
        /\ len (Array2 rows) = num_molecules string toy_groups)
  /\ (exists rows,
        toy_morgan_count (Grouped string toy_groups) 2 4 = Ok (Array2 rows)
        /\ Forall2 (single_row string toy_morgan_count 2 4)
             (concat toy_groups) rows
        /\ len (Array2 rows) = num_molecules string toy_groups).
Proof.
  assert (H : Forall (Forall (parses string toy_MolFromSmiles)) toy_groups).
  { repeat constructor; by eexists. }
  split; [exact H|].
  exact (morgan_grouped_is_flattened string (list bool) (list nat)
           toy_MolFromSmiles toy_bitvect toy_hashed
           toy_convert_bits toy_convert_counts toy_groups 2 4 H).
Defined.


Lemma unparsable_molecule_raises_witness :
  toy_morgan
    (Grouped string [[MolStr string "CCO"]; [MolStr string ""; MolStr string "C"]])
    2 4 = Raise ArgumentError
  /\ toy_morgan_count
       (Grouped string [[MolStr string "CCO"]; [MolStr string ""; MolStr string "C"]])
       2 4 = Raise ArgumentError.
Proof.
  apply (unparsable_molecule_raises string (list bool) (list nat)
           toy_MolFromSmiles toy_bitvect toy_hashed
           toy_convert_bits toy_convert_counts).
  right. left. left. reflexivity.
Defined.

(** A toy descriptastorus: [process] gives [None] for the empty SMILES,
    else a flag and the length of the SMILES. *)
Definition toy_descriptastorus : descriptastorus :=
  {| RDKit2D_process := fun s =>
       if decide (s = "") then None
       else Some [1%float; PrimFloat.of_uint63 (Uint63.of_Z (Z.of_nat (String.length s)))];
     RDKit2DNormalized_process := fun s =>
       if decide (s = "") then None else Some [1%float; 0.5%float] |}.

Example toy_rdkit_2d_grouped :
  rdkit_2d_features_generator string id (Some toy_descriptastorus)
    (Grouped string toy_groups)
  = Ok (Array2 [[3%float]; [2%float]; [1%float]]).
Proof. vm_compute. reflexivity. Qed.

Example toy_rdkit_2d_unprocessed :
  rdkit_2d_features_generator string id (Some toy_descriptastorus)
    (Single string (MolStr string ""))
  = Raise TypeError.
Proof. reflexivity. Qed.

Lemma rdkit_2d_grouped_is_flattened_witness :
  (exists rows,
      rdkit_2d_features_generator string id (Some toy_descriptastorus)
        (Grouped string toy_groups) = Ok (Array2 rows)
      /\ length rows = 3)
  /\ rdkit_2d_normalized_features_generator string id (Some toy_descriptastorus)
       (Grouped string [[MolStr string "C"; MolStr string ""]])
     = Raise TypeError.
Proof.
  destruct (rdkit_2d_grouped_is_flattened string id toy_descriptastorus
              toy_groups) as (Hok & _).
  destruct (rdkit_2d_grouped_is_flattened string id toy_descriptastorus
              [[MolStr string "C"; MolStr string ""]]) as (_ & _ & _ & Hbad).
  split.
  - destruct Hok as (rows & Hrows & _ & Hlen).
    + repeat constructor; by eexists.
    + exists rows. split; [exact Hrows|exact Hlen].
  - apply Hbad. left. right. left. reflexivity.
Defined.

End FeaturesGenerators.

(** ** run_training.py *)

Module RunTraining.

(** *** numpy arrays

    An array is its shape and its entries in row-major order. The list of
    lists that [predict] returns and the array [np.array] makes of it are
    the same value here, and so are an array and its [.tolist()]. *)

Record ndarray : Type := { shape : list nat; data : list float }.

(** [np.zeros(shape)] *)
Definition np_zeros (shape : list nat) : ndarray :=
  {| shape := shape; data := replicate (foldr Nat.mul 1 shape) 0%float |}.

(** [len(a)]: the first dimension. *)
Definition len (a : ndarray) : nat := hd 0 (shape a).

(** The float64 an int converts to. *)
Definition float_of_nat (n : nat) : float :=
  PrimFloat.of_uint63 (Uint63.of_Z (Z.of_nat n)).

(** [a / n] for an int [n]. *)
Definition true_divide (a : ndarray) (n : nat) : ndarray :=
  {| shape := shape a;
     data := (fun x => PrimFloat.div x (float_of_nat n)) <$> data a |}.

(** [[pred[i] for pred in a]]: entry [i] of every row of an array of at
    least two dimensions. *)
Definition column (a : ndarray) (i : nat) : result (list (list float)) :=
  match shape a with
  | n :: t :: rest =>
      let cell := foldr Nat.mul 1 rest in
      if decide (n = 0) then Ok []
      else if decide (i < t)
      then Ok ((fun r => take cell (drop ((r * t + i) * cell) (data a))) <$> seq 0 n)
      else Raise IndexError
  | [n] => if decide (n = 0) then Ok [] else Raise TypeError
  | [] => Raise TypeError
  end.

(** *** Dictionaries with string keys, in insertion order *)

Definition dict (V : Type) : Type := list (string * V).

(** [d[k] = v] *)
Fixpoint dict_set {V} (d : dict V) (k : string) (v : V) : dict V :=
  match d with
  | [] => [(k, v)]
  | (k', v') :: rest =>
      if decide (k' = k) then (k', v) :: rest else (k', v') :: dict_set rest k v
  end.

Fixpoint dict_get {V} (d : dict V) (k : string) : option V :=
  match d with
  | [] => None
  | (k', v') :: rest => if decide (k' = k) then Some v' else dict_get rest k
  end.

(** [d[k]], which raises KeyError on a missing key. *)
Definition dict_index {V} (d : dict V) (k : string) : result V :=
  match dict_get d k with
  | Some v => Ok v
  | None => Raise (KeyError k)
  end.

(** [{k: f(k) for k in keys}] *)
Definition dict_comprehension {V} (f : string -> V) (keys : list string) : dict V :=
  foldl (fun d k => dict_set d k (f k)) [] keys.

Definition dict_keys {V} (d : dict V) : list string := d.*1.

(** *** json.dump(..., sort_keys=True)

    The members of the JSON object in the order they are written: the
    items of the dictionary sorted by key. *)

Definition key_le {V} (a b : string * V) : Prop := String.le a.1 b.1.

#[export] Instance key_le_dec {V} (a b : string * V) : Decision (key_le a b).
Proof. unfold key_le. apply _. Defined.

Definition json_dump_sort_keys {V} (d : dict V) : list (string * V) :=
  merge_sort key_le d.

(** *** os.path.join *)

Definition starts_with_slash (s : string) : bool :=
  match s with
  | String c _ => bool_decide (c = "/"%char)
  | EmptyString => false
  end.

Fixpoint ends_with_slash (s : string) : bool :=
  match s with
  | EmptyString => false
  | String c EmptyString => bool_decide (c = "/"%char)
  | String _ rest => ends_with_slash rest
  end.

Definition path_join (a b : string) : string :=
  if starts_with_slash b then b
  else if bool_decide (a = "") || ends_with_slash a then a +:+ b
  else a +:+ "/" +:+ b.

(** Python's truth value of an optional string argument. *)
Definition truthy (o : option string) : bool :=
  match o with
  | Some s => negb (bool_decide (s = ""))
  | None => false
  end.

Section Training.

(** The collaborators' objects: a datapoint of a [MoleculeDataset] (a
    dataset is the list of its datapoints), a fitted scaler, the model,
    the optimizer, the learning-rate scheduler, the state of torch's
    random generator, class sizes, the spectra phase mask, and the
    arguments of [TrainArgs] that only the collaborators read. *)
Variable datapoint : Type.
Variable scaler : Type.
Variable model : Type.
Variable optimizer : Type.
Variable scheduler : Type.
Variable rng : Type.
Variable class_sizes : Type.
Variable phase_mask : Type.
Variable other_args : Type.

(** [chemprop.constants.MODEL_FILE_NAME] *)
Variable MODEL_FILE_NAME : string.

(** The fields of [TrainArgs] that [run_training] reads or writes. *)
Record TrainArgs : Type := {
  neptune_logging : bool;
  pytorch_seed : nat;
  separate_test_path : option string;
  separate_val_path : option string;
  dataset_type : string;
  task_names : list string;
  num_tasks : nat;
  multiclass_num_classes : nat;
  save_smiles_splits : bool;
  features_scaling : bool;
  atom_descriptor_scaling : bool;
  atom_descriptors : option string;
  bond_feature_scaling : bool;
  bond_features_size : nat;
  cache_cutoff : nat;
  ensemble_size : nat;
  epochs : nat;
  save_dir : string;
  checkpoint_paths : option (list string);
  checkpoint_frzn : option string;
  minimize_score : bool;
  metric : string;
  metrics : list string;
  save_preds : bool;
  train_class_sizes : option class_sizes;
  train_data_size : nat;
  spectra_phase_mask : option phase_mask;
  others : other_args
}.

Definition set_train_class_sizes (args : TrainArgs) (v : class_sizes) : TrainArgs :=
  {| neptune_logging := neptune_logging args; pytorch_seed := pytorch_seed args;
     separate_test_path := separate_test_path args;
     separate_val_path := separate_val_path args;
     dataset_type := dataset_type args; task_names := task_names args;
     num_tasks := num_tasks args;
     multiclass_num_classes := multiclass_num_classes args;
     save_smiles_splits := save_smiles_splits args;
     features_scaling := features_scaling args;
     atom_descriptor_scaling := atom_descriptor_scaling args;
     atom_descriptors := atom_descriptors args;
     bond_feature_scaling := bond_feature_scaling args;
     bond_features_size := bond_features_size args;
     cache_cutoff := cache_cutoff args; ensemble_size := ensemble_size args;
     epochs := epochs args; save_dir := save_dir args;
     checkpoint_paths := checkpoint_paths args;
     checkpoint_frzn := checkpoint_frzn args;
     minimize_score := minimize_score args; metric := metric args;
     metrics := metrics args; save_preds := save_preds args;
     train_class_sizes := Some v;
     train_data_size := train_data_size args;
     spectra_phase_mask := spectra_phase_mask args; others := others args |}.

Definition set_train_data_size (args : TrainArgs) (v : nat) : TrainArgs :=
  {| neptune_logging := neptune_logging args; pytorch_seed := pytorch_seed args;
     separate_test_path := separate_test_path args;
     separate_val_path := separate_val_path args;
     dataset_type := dataset_type args; task_names := task_names args;
     num_tasks := num_tasks args;
     multiclass_num_classes := multiclass_num_classes args;
     save_smiles_splits := save_smiles_splits args;
     features_scaling := features_scaling args;
     atom_descriptor_scaling := atom_descriptor_scaling args;
     atom_descriptors := atom_descriptors args;
     bond_feature_scaling := bond_feature_scaling args;
     bond_features_size := bond_features_size args;
     cache_cutoff := cache_cutoff args; ensemble_size := ensemble_size args;
     epochs := epochs args; save_dir := save_dir args;
     checkpoint_paths := checkpoint_paths args;
     checkpoint_frzn := checkpoint_frzn args;
     minimize_score := minimize_score args; metric := metric args;
     metrics := metrics args; save_preds := save_preds args;
     train_class_sizes := train_class_sizes args;
     train_data_size := v;
     spectra_phase_mask := spectra_phase_mask args; others := others args |}.

Definition set_spectra_phase_mask (args : TrainArgs) (v : option phase_mask)
    : TrainArgs :=
  {| neptune_logging := neptune_logging args; pytorch_seed := pytorch_seed args;
     separate_test_path := separate_test_path args;
     separate_val_path := separate_val_path args;
     dataset_type := dataset_type args; task_names := task_names args;
     num_tasks := num_tasks args;
     multiclass_num_classes := multiclass_num_classes args;
     save_smiles_splits := save_smiles_splits args;
     features_scaling := features_scaling args;
     atom_descriptor_scaling := atom_descriptor_scaling args;
     atom_descriptors := atom_descriptors args;
     bond_feature_scaling := bond_feature_scaling args;
     bond_features_size := bond_features_size args;
     cache_cutoff := cache_cutoff args; ensemble_size := ensemble_size args;
     epochs := epochs args; save_dir := save_dir args;
     checkpoint_paths := checkpoint_paths args;
     checkpoint_frzn := checkpoint_frzn args;
     minimize_score := minimize_score args; metric := metric args;
     metrics := metrics args; save_preds := save_preds args;
     train_class_sizes := train_class_sizes args;
     train_data_size := train_data_size args;
     spectra_phase_mask := v; others := others args |}.

(** *** The world: files, the trace of effects, torch's generator *)

(** What [save_checkpoint] bundles into one file. *)
Record checkpoint : Type := {
  ck_model : model;
  ck_scaler : option scaler;
  ck_features_scaler : option scaler;
  ck_atom_descriptor_scaler : option scaler;
  ck_bond_feature_scaler : option scaler;
  ck_args : TrainArgs
}.

(** A column of the data frame of predictions: the SMILES of the test
    datapoints, or one prediction per test datapoint. *)
Inductive series : Type :=
  | SmilesSeries (smiles : list (list string))
  | FloatSeries (values : list (list float)).

Inductive file : Type :=
  | CheckpointFile (c : checkpoint)
  | ScoresFile (members : list (string * list float))
  | PredsFile (frame : list (string * series))
  | SmilesFile (smiles : list (list string)).

Inductive event : Type :=
  | NeptuneInit
  | NeptuneAssign (key : string)
  | NeptuneLog (key : string) (value : float)
  | NeptuneLogLr (key : string) (lr : list float)
  | NeptuneStop
  | SaveSmilesSplits
  | SetCacheGraph (cache : bool)
  | Makedirs (path : string)
  | BuildModel (model_idx : nat)
  | LoadFrozen (path : string)
  | SaveCheckpoint (path : string)
  | TrainEpoch (model_idx epoch : nat)
  | Validate (model_idx epoch : nat)
  | LoadCheckpoint (path : string)
  | Predict (model_idx : nat)
  | WriteScores (path : string)
  | WritePreds (path : string).

Record world : Type := {
  fs : gmap string file;
  trace : list event;
  torch_rng : rng
}.

(** A computation changes the world and returns or raises; what it did
    before raising stays done. *)
Definition M (A : Type) : Type := world -> result A * world.

Definition ret {A} (a : A) : M A := fun w => (Ok a, w).

Definition bind {A B} (m : M A) (k : A -> M B) : M B := fun w =>
  match m w with
  | (Ok a, w') => k a w'
  | (Raise e, w') => (Raise e, w')
  end.

Definition lift {A} (r : result A) : M A := fun w => (r, w).

Definition emit (e : event) : M unit := fun w =>
  (Ok tt, {| fs := fs w; trace := trace w ++ [e]; torch_rng := torch_rng w |}).

Definition when (b : bool) (m : M unit) : M unit := if b then m else ret tt.

Notation "x <- m ;; k" := (bind m (fun x => k))
  (at level 20, m at level 99, k at level 200, only parsing).

(** *** The collaborators *)

Inductive scale_kind : Type := Features | AtomDescriptors | BondFeatures.

Variable get_data : string -> TrainArgs -> list datapoint.
Variable split_data :
  list datapoint -> TrainArgs -> list datapoint * list datapoint * list datapoint.
Variable get_class_sizes : list datapoint -> bool -> class_sizes.
(** [dataset.normalize_features(scaler, ...)]: the scaler it used or
    fitted, and what it does to each datapoint in place. *)
Variable normalize_features :
  scale_kind -> option scaler -> list datapoint ->
  option scaler * (datapoint -> datapoint).
Variable normalize_targets : list datapoint -> scaler * (datapoint -> datapoint).
Variable load_phase_mask : TrainArgs -> phase_mask.
(** [normalize_spectra] followed by [set_targets], for one datapoint. *)
Variable normalize_spectrum : TrainArgs -> phase_mask -> datapoint -> datapoint.
Variable smiles : datapoint -> list string.
Variable manual_seed : nat -> rng.
Variable MoleculeModel : TrainArgs -> rng -> model * rng.
Variable load_frzn_model : model -> file -> TrainArgs -> model.
Variable build_optimizer : model -> TrainArgs -> optimizer.
Variable build_lr_scheduler : optimizer -> TrainArgs -> scheduler.
(** [train(model, data_loader, loss_func, optimizer, scheduler, args,
    n_iter, ...)]: the loss function is [get_loss_func(args)]. *)
Variable train :
  model -> list datapoint -> optimizer -> scheduler -> TrainArgs ->
  nat -> nat -> rng -> model * optimizer * scheduler * nat * rng.
Variable is_ExponentialLR : scheduler -> bool.
Variable scheduler_step : scheduler -> scheduler.
Variable get_lr : scheduler -> list float.
Variable validation_scores :
  model -> list datapoint -> nat -> string -> option scaler -> string -> list float.
Variable predict : model -> list datapoint -> option scaler -> ndarray.
Variable metric_scores :
  ndarray -> list datapoint -> nat -> string -> string -> list float.
Variable multitask_mean : list float -> string -> float.
(** What [save_smiles_splits] does to the files: it writes the SMILES of
    the three splits under [args.save_dir]. *)
Variable write_smiles_splits :
  TrainArgs -> list datapoint -> list datapoint -> list datapoint ->
  gmap string file -> gmap string file.
(** What loading a checkpoint does to torch's generator. *)
Variable rng_after_load : checkpoint -> rng -> rng.
(** numpy's [a += b] when the shapes differ: [b] broadcast to the shape
    of [a], or ValueError. *)
Variable broadcast_iadd : ndarray -> ndarray -> result ndarray.

(** [a += b] *)
Definition iadd (a b : ndarray) : result ndarray :=
  if decide (shape a = shape b)
  then Ok {| shape := shape a; data := zip_with PrimFloat.add (data a) (data b) |}
  else broadcast_iadd a b.

(** Modelled from the spec: [evaluate_predictions] is in
    [chemprop/train/evaluate.py], which is not among the sources. It
    returns [{metric_name: [score_per_task]}] for the metrics it is
    given; the targets and the censoring masks are those of [test_data]. *)
Definition evaluate_predictions (preds : ndarray) (test_data : list datapoint)
    (num_tasks : nat) (metrics : list string) (dataset_type : string)
    : dict (list float) :=
  dict_comprehension
    (fun metric => metric_scores preds test_data num_tasks dataset_type metric)
    metrics.

(** Modelled from the spec: [evaluate] is in [chemprop/train/evaluate.py],
    which is not among the sources. It runs the model over the data and
    produces one score per task per metric. *)
Definition evaluate (model : model) (val_data : list datapoint)
    (num_tasks : nat) (metrics : list string) (dataset_type : string)
    (scaler : option scaler) : dict (list float) :=
  dict_comprehension
    (fun metric =>
       validation_scores model val_data num_tasks dataset_type scaler metric)
    metrics.

(** *** Effects *)

Definition set_rng (r : rng) : M unit := fun w =>
  (Ok tt, {| fs := fs w; trace := trace w; torch_rng := r |}).

Definition write_file (path : string) (f : file) (e : event) : M unit := fun w =>
  (Ok tt, {| fs := <[path := f]> (fs w); trace := trace w ++ [e];
             torch_rng := torch_rng w |}).

Definition read_file (path : string) : M file := fun w =>
  match fs w !! path with
  | Some f => (Ok f, w)
  | None => (Raise (FileNotFoundError path), w)
  end.

(** Modelled from the spec: [save_checkpoint] is in [chemprop/utils.py],
    which is not among the sources. A checkpoint file is a serialized
    bundle of the model weights, the args and up to four scalers
    (target, feature, atom-descriptor, bond-feature). *)
Definition save_checkpoint (path : string) (model : model)
    (scaler features_scaler atom_descriptor_scaler bond_feature_scaler
       : option scaler)
    (args : TrainArgs) : M unit :=
  write_file path
    (CheckpointFile
       {| ck_model := model; ck_scaler := scaler;
          ck_features_scaler := features_scaler;
          ck_atom_descriptor_scaler := atom_descriptor_scaler;
          ck_bond_feature_scaler := bond_feature_scaler;
          ck_args := args |})
    (SaveCheckpoint path).

(** Modelled from the spec: [load_checkpoint] is in [chemprop/utils.py],
    which is not among the sources. A checkpoint file must be loadable
    by the training loop, and the loop reloads the best checkpoint from
    disk: loading gives the model of the bundle. What it does to torch's
    generator on the way is the collaborator's, [rng_after_load]. *)
Definition load_checkpoint (path : string) : M model :=
  f <- read_file path ;;
  match f with
  | CheckpointFile c => fun w =>
      (Ok (ck_model c),
       {| fs := fs w; trace := trace w ++ [LoadCheckpoint path];
          torch_rng := rng_after_load c (torch_rng w) |})
  | _ => lift (Raise (UnpicklingError path))
  end.

(** Reading the local variable [mean_val_score], which is unbound until
    the first epoch has been validated. *)
Definition read_mean_val_score (mean_val_score : option float) : M float :=
  match mean_val_score with
  | Some v => ret v
  | None => lift (Raise (NameError "mean_val_score"))
  end.

(** *** Splitting and scaling (lines 82-181) *)

Definition load_separate (path : option string) (args : TrainArgs)
    : option (list datapoint) :=
  match path with
  | Some p => if truthy path then Some (get_data p args) else None
  | None => None
  end.

Definition split (args : TrainArgs) (data : list datapoint)
    : list datapoint * list datapoint * list datapoint :=
  let test_data := load_separate (separate_test_path args) args in
  let val_data := load_separate (separate_val_path args) args in
  match val_data, test_data with
  | Some val_data, Some test_data => (data, val_data, test_data)
  | Some val_data, None =>
      let '(train_data, _, test_data) := split_data data args in
      (train_data, val_data, test_data)
  | None, Some test_data =>
      let '(train_data, val_data, _) := split_data data args in
      (train_data, val_data, test_data)
  | None, None => split_data data args
  end.

Definition normalize (kind : scale_kind) (s : option scaler)
    (data : list datapoint) : option scaler * list datapoint :=
  let '(s', f) := normalize_features kind s data in (s', f <$> data).

(** One of the three [if ...scaling: ... else: ..._scaler = None] blocks. *)
Definition scale_splits (kind : scale_kind) (enabled : bool)
    (train_data val_data test_data : list datapoint)
    : option scaler * (list datapoint * list datapoint * list datapoint) :=
  if enabled then
    let '(s, train_data) := normalize kind None train_data in
    let '(_, val_data) := normalize kind s val_data in
    let '(_, test_data) := normalize kind s test_data in
    (s, (train_data, val_data, test_data))
  else (None, (train_data, val_data, test_data)).

Definition empty_validation_message : string :=
  "The validation data split is empty. During normal chemprop training (non-sklearn functions), "
  +:+ "            a validation set is required to conduct early stopping according to the selected evaluation metric. This "
  +:+ "            may have occurred because validation data provided with `--separate_val_path` was empty or contained only invalid molecules.".

(** Lines 197-217: the targets' scaler, by dataset type. *)
Definition scale_targets (args : TrainArgs)
    (train_data val_data test_data : list datapoint)
    : TrainArgs * option scaler
      * (list datapoint * list datapoint * list datapoint) :=
  if decide (dataset_type args = "regression") then
    let '(s, f) := normalize_targets train_data in
    (set_spectra_phase_mask args None, Some s,
     (f <$> train_data, val_data, test_data))
  else if decide (dataset_type args = "spectra") then
    let mask := load_phase_mask args in
    let args := set_spectra_phase_mask args (Some mask) in
    let f := normalize_spectrum args mask in
    (args, None, (f <$> train_data, f <$> val_data, f <$> test_data))
  else (set_spectra_phase_mask args None, None,
        (train_data, val_data, test_data)).

(** What the ensemble loop reads and never rebinds. *)
Record setup : Type := {
  s_args : TrainArgs;
  s_train_data : list datapoint;
  s_val_data : list datapoint;
  s_test_data : list datapoint;
  s_empty_test_set : bool;
  s_scaler : option scaler;
  s_features_scaler : option scaler;
  s_atom_descriptor_scaler : option scaler;
  s_bond_feature_scaler : option scaler
}.

(** *** One member of the ensemble (lines 261-416) *)

Definition member_dir (args : TrainArgs) (model_idx : nat) : string :=
  path_join (save_dir args) ("model_" +:+ pretty model_idx).

Definition checkpoint_path (args : TrainArgs) (model_idx : nat) : string :=
  path_join (member_dir args model_idx) MODEL_FILE_NAME.

Definition lr_key (args : TrainArgs) (model_idx : nat) : string :=
  if decide (1 < ensemble_size args)
  then "train/lr_" +:+ pretty model_idx +:+ "/" +:+ pretty (ensemble_size args)
  else "train/lr".

Definition score_key (stage : string) (args : TrainArgs) (model_idx : nat)
    (metric : string) : string :=
  if decide (1 < ensemble_size args)
  then stage +:+ "/ensemble_" +:+ pretty model_idx +:+ "/" +:+ metric
  else stage +:+ "/" +:+ metric.

Definition save_member (s : setup) (model_idx : nat) (model : model) : M unit :=
  save_checkpoint (checkpoint_path (s_args s) model_idx) model (s_scaler s)
    (s_features_scaler s) (s_atom_descriptor_scaler s)
    (s_bond_feature_scaler s) (s_args s).

(** Lines 276-293: load or build the model. *)
Definition initial_model (args : TrainArgs) (model_idx : nat) : M model :=
  model <-
    match checkpoint_paths args with
    | Some paths =>
        match paths !! model_idx with
        | Some path => load_checkpoint path
        | None => lift (Raise IndexError)
        end
    | None => fun w =>
        let '(model, r) := MoleculeModel args (torch_rng w) in
        (Ok model, {| fs := fs w; trace := trace w ++ [BuildModel model_idx];
                      torch_rng := r |})
    end ;;
  match checkpoint_frzn args with
  | Some path =>
      f <- read_file path ;;
      _ <- emit (LoadFrozen path) ;;
      ret (load_frzn_model model f args)
  | None => ret model
  end.

(** The variables the epoch loop rebinds. [mean_val_score] is the local
    variable of that name: unbound until an epoch has been validated. *)
Record loop_state : Type := {
  ls_model : model;
  ls_optimizer : optimizer;
  ls_scheduler : scheduler;
  ls_n_iter : nat;
  ls_best_score : float;
  ls_best_epoch : nat;
  ls_mean_val_score : option float
}.

Definition run_train (s : setup) (model_idx epoch : nat) (st : loop_state)
    : M (model * optimizer * scheduler * nat) := fun w =>
  let '(model, optimizer, scheduler, n_iter, r) :=
    train (ls_model st) (s_train_data s) (ls_optimizer st) (ls_scheduler st)
      (s_args s) (ls_n_iter st) model_idx (torch_rng w) in
  (Ok (model, optimizer, scheduler, n_iter),
   {| fs := fs w; trace := trace w ++ [TrainEpoch model_idx epoch];
      torch_rng := r |}).

(** Lines 342-360: [for metric, scores in val_scores.items()]. *)
Fixpoint log_val_scores (args : TrainArgs) (model_idx : nat)
    (items : list (string * list float)) (mean_val_score : option float)
    : M (option float) :=
  match items with
  | [] => ret mean_val_score
  | (metric, scores) :: rest =>
      let v := multitask_mean scores metric in
      _ <- when (neptune_logging args)
             (emit (NeptuneLog (score_key "validation" args model_idx metric) v)) ;;
      log_val_scores args model_idx rest (Some v)
  end.

(** Line 366: [args.minimize_score and mean_val_score < best_score or
    not args.minimize_score and mean_val_score > best_score]. *)
Definition improved (args : TrainArgs) (mean_val_score best_score : float)
    : bool :=
  minimize_score args && PrimFloat.ltb mean_val_score best_score
  || negb (minimize_score args) && PrimFloat.ltb best_score mean_val_score.

(** Lines 309-370: the body of the epoch loop. *)
Definition run_epoch (s : setup) (model_idx : nat) (st : loop_state)
    (epoch : nat) : M loop_state :=
  let args := s_args s in
  _ <- when (neptune_logging args)
         (emit (NeptuneLogLr (lr_key args model_idx) (get_lr (ls_scheduler st)))) ;;
  r <- run_train s model_idx epoch st ;;
  let '(model, optimizer, scheduler, n_iter) := r in
  let scheduler :=
    if is_ExponentialLR scheduler then scheduler_step scheduler else scheduler in
  _ <- emit (Validate model_idx epoch) ;;
  let val_scores :=
    evaluate model (s_val_data s) (num_tasks args) (metrics args)
      (dataset_type args) (s_scaler s) in
  _ <- log_val_scores args model_idx val_scores (ls_mean_val_score st) ;;
  scores <- lift (dict_index val_scores (metric args)) ;;
  let mean_val_score := multitask_mean scores (metric args) in
  if improved args mean_val_score (ls_best_score st) then
    _ <- save_member s model_idx model ;;
    ret {| ls_model := model; ls_optimizer := optimizer;
           ls_scheduler := scheduler; ls_n_iter := n_iter;
           ls_best_score := mean_val_score; ls_best_epoch := epoch;
           ls_mean_val_score := Some mean_val_score |}
  else
    ret {| ls_model := model; ls_optimizer := optimizer;
           ls_scheduler := scheduler; ls_n_iter := n_iter;
           ls_best_score := ls_best_score st; ls_best_epoch := ls_best_epoch st;
           ls_mean_val_score := Some mean_val_score |}.

(** [for epoch in trange(args.epochs)], over the epochs still to run. *)
Fixpoint epochs_loop (s : setup) (model_idx : nat) (epochs : list nat)
    (st : loop_state) : M loop_state :=
  match epochs with
  | [] => ret st
  | epoch :: rest =>
      st' <- run_epoch s model_idx st epoch ;;
      epochs_loop s model_idx rest st'
  end.

(** Lines 396-409: [for metric, scores in test_scores.items()]. What is
    logged to Neptune is [mean_val_score]. *)
Fixpoint log_test_scores (args : TrainArgs) (model_idx : nat)
    (items : list (string * list float)) (mean_val_score : option float)
    : M unit :=
  match items with
  | [] => ret tt
  | (metric, _) :: rest =>
      _ <- (if neptune_logging args then
              v <- read_mean_val_score mean_val_score ;;
              emit (NeptuneLog (score_key "test" args model_idx metric) v)
            else ret tt) ;;
      log_test_scores args model_idx rest mean_val_score
  end.

(** Lines 376-415: the member's predictions on the test set, added to
    [sum_test_preds]. *)
Definition test_member (s : setup) (sum_test_preds : ndarray)
    (mean_val_score : option float) (model_idx : nat) (model : model)
    : M (ndarray * option float) :=
  let args := s_args s in
  if s_empty_test_set s then ret (sum_test_preds, mean_val_score)
  else
    _ <- emit (Predict model_idx) ;;
    let test_preds := predict model (s_test_data s) (s_scaler s) in
    let test_scores :=
      evaluate_predictions test_preds (s_test_data s) (num_tasks args)
        (metrics args) (dataset_type args) in
    sum_test_preds <-
      (if decide (len test_preds = 0) then ret sum_test_preds
       else lift (iadd sum_test_preds test_preds)) ;;
    _ <- log_test_scores args model_idx test_scores mean_val_score ;;
    ret (sum_test_preds, mean_val_score).

(** The body of [for model_idx in range(args.ensemble_size)]. It rebinds
    [sum_test_preds] and [mean_val_score]. *)
Definition train_member (s : setup) (acc : ndarray * option float)
    (model_idx : nat) : M (ndarray * option float) :=
  let '(sum_test_preds, mean_val_score) := acc in
  let args := s_args s in
  _ <- emit (Makedirs (member_dir args model_idx)) ;;
  model <- initial_model args model_idx ;;
  _ <- save_member s model_idx model ;;
  let optimizer := build_optimizer model args in
  let scheduler := build_lr_scheduler optimizer args in
  let best_score :=
    if minimize_score args then infinity else neg_infinity in
  st <- epochs_loop s model_idx (seq 0 (epochs args))
          {| ls_model := model; ls_optimizer := optimizer;
             ls_scheduler := scheduler; ls_n_iter := 0;
             ls_best_score := best_score; ls_best_epoch := 0;
             ls_mean_val_score := mean_val_score |} ;;
  model <- load_checkpoint (checkpoint_path args model_idx) ;;
  test_member s sum_test_preds (ls_mean_val_score st) model_idx model.

Fixpoint members_loop (s : setup) (members : list nat)
    (acc : ndarray * option float) : M (ndarray * option float) :=
  match members with
  | [] => ret acc
  | model_idx :: rest =>
      acc' <- train_member s acc model_idx ;;
      members_loop s rest acc'
  end.

(** *** After the ensemble (lines 418-468) *)

(** Lines 437-449: [for metric, scores in ensemble_scores.items()]. *)
Fixpoint log_final_scores (args : TrainArgs)
    (items : list (string * list float)) (mean_val_score : option float)
    : M unit :=
  match items with
  | [] => ret tt
  | (metric, _) :: rest =>
      _ <- (if neptune_logging args then
              v <- read_mean_val_score mean_val_score ;;
              emit (NeptuneLog ("test/final_" +:+ metric) v)
            else ret tt) ;;
      log_final_scores args rest mean_val_score
  end.

(** Lines 459-460: one column of the data frame per task name, set
    under that name. *)
Fixpoint preds_columns (avg_test_preds : ndarray) (i : nat)
    (task_names : list string) (test_preds_dataframe : dict series)
    : result (dict series) :=
  match task_names with
  | [] => Ok test_preds_dataframe
  | task_name :: rest =>
      match column avg_test_preds i with
      | Ok c =>
          preds_columns avg_test_preds (S i) rest
            (dict_set test_preds_dataframe task_name (FloatSeries c))
      | Raise e => Raise e
      end
  end.

Definition scores_path (args : TrainArgs) : string :=
  path_join (save_dir args) "test_scores.json".

Definition nan_scores (args : TrainArgs) : dict (list float) :=
  dict_comprehension (fun metric => (fun task => nan) <$> task_names args)
    (metrics args).

(** Everything after the ensemble loop. Directories are not part of the
    file system here: opening a file for writing succeeds. *)
Definition finish (s : setup) (acc : ndarray * option float)
    : M (dict (list float)) :=
  let '(sum_test_preds, mean_val_score) := acc in
  let args := s_args s in
  let avg_test_preds := true_divide sum_test_preds (ensemble_size args) in
  let ensemble_scores :=
    if s_empty_test_set s then nan_scores args
    else evaluate_predictions avg_test_preds (s_test_data s) (num_tasks args)
           (metrics args) (dataset_type args) in
  _ <- log_final_scores args ensemble_scores mean_val_score ;;
  _ <- write_file (scores_path args)
         (ScoresFile (json_dump_sort_keys ensemble_scores))
         (WriteScores (scores_path args)) ;;
  _ <- (if save_preds args && negb (s_empty_test_set s) then
          test_preds_dataframe <-
            lift (preds_columns avg_test_preds 0 (task_names args)
                    [("smiles", SmilesSeries (smiles <$> s_test_data s))]) ;;
          write_file (path_join (save_dir args) "test_preds.csv")
            (PredsFile test_preds_dataframe)
            (WritePreds (path_join (save_dir args) "test_preds.csv"))
        else ret tt) ;;
  _ <- when (neptune_logging args) (emit NeptuneStop) ;;
  ret ensemble_scores.

(** *** run_training *)

(** Lines 144-155: [save_smiles_splits] writes its files. *)
Definition do_save_smiles_splits (args : TrainArgs)
    (train_data val_data test_data : list datapoint) : M unit := fun w =>
  (Ok tt,
   {| fs := write_smiles_splits args train_data val_data test_data (fs w);
      trace := trace w ++ [SaveSmilesSplits]; torch_rng := torch_rng w |}).

Definition run_training (args : TrainArgs) (data : list datapoint)
    : M (dict (list float)) :=
  _ <- when (neptune_logging args) (emit NeptuneInit) ;;
  _ <- set_rng (manual_seed (pytorch_seed args)) ;;
  _ <- when (neptune_logging args) (emit (NeptuneAssign "parameters")) ;;
  let '(train_data, val_data, test_data) := split args data in
  let args :=
    if decide (dataset_type args = "classification")
    then set_train_class_sizes args (get_class_sizes train_data false)
    else args in
  _ <- when (save_smiles_splits args)
         (do_save_smiles_splits args train_data val_data test_data) ;;
  let '(features_scaler, (train_data, val_data, test_data)) :=
    scale_splits Features (features_scaling args)
      train_data val_data test_data in
  let '(atom_descriptor_scaler, (train_data, val_data, test_data)) :=
    scale_splits AtomDescriptors
      (atom_descriptor_scaling args
       && bool_decide (is_Some (atom_descriptors args)))
      train_data val_data test_data in
  let '(bond_feature_scaler, (train_data, val_data, test_data)) :=
    scale_splits BondFeatures
      (bond_feature_scaling args && bool_decide (0 < bond_features_size args))
      train_data val_data test_data in
  let args := set_train_data_size args (length train_data) in
  if decide (length val_data = 0)
  then lift (Raise (ValueError empty_validation_message))
  else
    let empty_test_set := bool_decide (length test_data = 0) in
    let '(args, scaler, (train_data, val_data, test_data)) :=
      scale_targets args train_data val_data test_data in
    let test_smiles := smiles <$> test_data in
    let sum_test_preds :=
      if decide (dataset_type args = "multiclass")
      then np_zeros [length test_smiles; num_tasks args;
                     multiclass_num_classes args]
      else np_zeros [length test_smiles; num_tasks args] in
    _ <- emit (SetCacheGraph (bool_decide (length data <= cache_cutoff args))) ;;
    let s :=
      {| s_args := args; s_train_data := train_data; s_val_data := val_data;
         s_test_data := test_data; s_empty_test_set := empty_test_set;
         s_scaler := scaler; s_features_scaler := features_scaler;
         s_atom_descriptor_scaler := atom_descriptor_scaler;
         s_bond_feature_scaler := bond_feature_scaler |} in
    acc <- members_loop s (seq 0 (ensemble_size args)) (sum_test_preds, None) ;;
    finish s acc.

(** ** Properties of run_training *)

(** Events of the ensemble loop: building, saving, training, validating,
    loading or evaluating a model. *)
Definition model_event (e : event) : bool :=
  match e with
  | Makedirs _ | BuildModel _ | LoadFrozen _ | SaveCheckpoint _
  | TrainEpoch _ _ | Validate _ _ | LoadCheckpoint _ | Predict _ => true
  | _ => false
  end.

Lemma scale_splits_length kind enabled train_data val_data test_data :
  length (scale_splits kind enabled train_data val_data test_data).2.1.1
    = length train_data
  /\ length (scale_splits kind enabled train_data val_data test_data).2.1.2
    = length val_data
  /\ length (scale_splits kind enabled train_data val_data test_data).2.2
    = length test_data.
Proof.
  unfold scale_splits, normalize. destruct enabled; [|done].
  destruct (normalize_features kind None train_data) as [s f].
  destruct (normalize_features kind s val_data) as [s2 f2].
  destruct (normalize_features kind s test_data) as [s3 f3].
  cbn. by rewrite !length_fmap.
Qed.

(** The three feature-scaling blocks of lines 157-176, one after another. *)
Definition scaled (args : TrainArgs)
    (train_data val_data test_data : list datapoint)
    : list datapoint * list datapoint * list datapoint :=
  let r1 := scale_splits Features (features_scaling args)
              train_data val_data test_data in
  let r2 := scale_splits AtomDescriptors
              (atom_descriptor_scaling args
               && bool_decide (is_Some (atom_descriptors args)))
              r1.2.1.1 r1.2.1.2 r1.2.2 in
  let r3 := scale_splits BondFeatures
              (bond_feature_scaling args
               && bool_decide (0 < bond_features_size args))
              r2.2.1.1 r2.2.1.2 r2.2.2 in
  r3.2.

Lemma scaled_length args train_data val_data test_data :
  length (scaled args train_data val_data test_data).1.1 = length train_data
  /\ length (scaled args train_data val_data test_data).1.2 = length val_data
  /\ length (scaled args train_data val_data test_data).2 = length test_data.
Proof.
  unfold scaled. cbv zeta.
  pose proof (scale_splits_length Features (features_scaling args)
                train_data val_data test_data) as H1.
  destruct (scale_splits Features _ _ _ _) as [? [[t1 v1] e1]].
  cbn [fst snd] in *.
  pose proof (scale_splits_length AtomDescriptors
                (atom_descriptor_scaling args
                 && bool_decide (is_Some (atom_descriptors args)))
                t1 v1 e1) as H2.
  destruct (scale_splits AtomDescriptors _ _ _ _) as [? [[t2 v2] e2]].
  cbn [fst snd] in *.
  pose proof (scale_splits_length BondFeatures
                (bond_feature_scaling args
                 && bool_decide (0 < bond_features_size args))
                t2 v2 e2) as H3.
  destruct (scale_splits BondFeatures _ _ _ _) as [? [[t3 v3] e3]].
  cbn [fst snd] in *.
  destruct H1 as (?&?&?), H2 as (?&?&?), H3 as (?&?&?).
  repeat split; congruence.
Qed.

(** What lines 82-227 compute, collected: the arguments as updated, the
    three splits as scaled, and the scalers. *)
Definition with_class_sizes (args : TrainArgs) (train_data : list datapoint)
    : TrainArgs :=
  if decide (dataset_type args = "classification")
  then set_train_class_sizes args (get_class_sizes train_data false)
  else args.

Definition the_setup (args : TrainArgs) (data : list datapoint) : setup :=
  let sp := split args data in
  let args1 := with_class_sizes args sp.1.1 in
  let r1 := scale_splits Features (features_scaling args1)
              sp.1.1 sp.1.2 sp.2 in
  let r2 := scale_splits AtomDescriptors
              (atom_descriptor_scaling args1
               && bool_decide (is_Some (atom_descriptors args1)))
              r1.2.1.1 r1.2.1.2 r1.2.2 in
  let r3 := scale_splits BondFeatures
              (bond_feature_scaling args1
               && bool_decide (0 < bond_features_size args1))
              r2.2.1.1 r2.2.1.2 r2.2.2 in
  let args2 := set_train_data_size args1 (length r3.2.1.1) in
  let t := scale_targets args2 r3.2.1.1 r3.2.1.2 r3.2.2 in
  {| s_args := t.1.1; s_train_data := t.2.1.1; s_val_data := t.2.1.2;
     s_test_data := t.2.2;
     s_empty_test_set := bool_decide (length r3.2.2 = 0);
     s_scaler := t.1.2; s_features_scaler := r1.1;
     s_atom_descriptor_scaler := r2.1; s_bond_feature_scaler := r3.1 |}.

Definition initial_sum (s : setup) : ndarray :=
  if decide (dataset_type (s_args s) = "multiclass")
  then np_zeros [length (s_test_data s); num_tasks (s_args s);
                 multiclass_num_classes (s_args s)]
  else np_zeros [length (s_test_data s); num_tasks (s_args s)].

(** The effects of lines 42-155. *)
Definition prelude (args : TrainArgs) : list event :=
  (if neptune_logging args then [NeptuneInit; NeptuneAssign "parameters"]
   else [])
  ++ (if save_smiles_splits args then [SaveSmilesSplits] else []).

(** The files after lines 144-155. *)
Definition files_after_splits (args : TrainArgs) (data : list datapoint)
    (files : gmap string file) : gmap string file :=
  if save_smiles_splits args
  then write_smiles_splits (with_class_sizes args (split args data).1.1)
         (split args data).1.1 (split args data).1.2 (split args data).2 files
  else files.

Definition started (args : TrainArgs) (data : list datapoint) (w : world)
    (more : list event) : world :=
  {| fs := files_after_splits args data (fs w);
     trace := trace w ++ prelude args ++ more;
     torch_rng := manual_seed (pytorch_seed args) |}.

Lemma with_class_sizes_fields args train_data :
  let args1 := with_class_sizes args train_data in
  neptune_logging args1 = neptune_logging args
  /\ save_smiles_splits args1 = save_smiles_splits args
  /\ pytorch_seed args1 = pytorch_seed args.
Proof. unfold with_class_sizes. by destruct (decide _). Qed.

Lemma run_training_unfold args data w :
  run_training args data w =
  if decide (length (split args data).1.2 = 0)
  then (Raise (ValueError empty_validation_message), started args data w [])
  else
    bind (members_loop (the_setup args data)
            (seq 0 (ensemble_size (s_args (the_setup args data))))
            (initial_sum (the_setup args data), None))
         (finish (the_setup args data))
         (started args data w
            [SetCacheGraph
               (bool_decide
                  (length data <= cache_cutoff (s_args (the_setup args data))))]).
Proof.
  unfold run_training, the_setup, initial_sum, started, prelude,
    files_after_splits.
  destruct (split args data) as [[tr va] te]. cbn [fst snd].
  fold (with_class_sizes args tr).
  destruct (with_class_sizes_fields args tr) as (Hn & Hs & _).
  cbv zeta in Hn, Hs. rewrite Hs. clear Hn Hs.
  generalize (with_class_sizes args tr). intros args1.
  pose proof (scale_splits_length Features (features_scaling args1) tr va te)
    as H1.
  destruct (scale_splits Features _ _ _ _) as [? [[t1 v1] e1]].
  cbn [fst snd] in *.
  pose proof (scale_splits_length AtomDescriptors
                (atom_descriptor_scaling args1
                 && bool_decide (is_Some (atom_descriptors args1)))
                t1 v1 e1) as H2.
  destruct (scale_splits AtomDescriptors _ _ _ _) as [? [[t2 v2] e2]].
  cbn [fst snd] in *.
  pose proof (scale_splits_length BondFeatures
                (bond_feature_scaling args1
                 && bool_decide (0 < bond_features_size args1))
                t2 v2 e2) as H3.
  destruct (scale_splits BondFeatures _ _ _ _) as [? [[t3 v3] e3]].
  cbn [fst snd] in *.
  destruct H1 as (_&H1&_), H2 as (_&H2&_), H3 as (_&H3&_).
  assert (length v3 = length va) as Hv by congruence.
  clear H1 H2 H3.
  destruct (scale_targets _ t3 v3 e3) as [[a0 sc0] [[t4 v4] e4]].
  cbn [fst snd s_args s_test_data].
  rewrite length_fmap.
  unfold bind, when, emit, set_rng, lift, ret, do_save_smiles_splits.
  destruct (neptune_logging args), (save_smiles_splits args);
    cbn [fs trace torch_rng];
    (destruct (decide (length v3 = 0)), (decide (length va = 0));
     try congruence; cbn [fs trace torch_rng];
     rewrite <- ?app_assoc, ?app_nil_r; cbn [app]; reflexivity).
Qed.

(** C2: when the validation split is empty (lines 183-186), [run_training]
    raises the ValueError about the empty validation split (the spec's
    ConfigurationError), and nothing of the ensemble loop has happened:
    no directory made, no model built, saved, trained, validated or
    loaded. The only files written by then are those of
    [save_smiles_splits] (lines 144-155, when [args.save_smiles_splits]
    is set); without it no file has been written. *)
Theorem empty_validation_raises_before_any_model args data w :
  (split args data).1.2 = [] ->
  exists w',
    run_training args data w
      = (Raise (ValueError empty_validation_message), w')
    /\ fs w' = files_after_splits args data (fs w)
    /\ (save_smiles_splits args = false -> fs w' = fs w)
    /\ exists pre, trace w' = trace w ++ pre
                   /\ Forall (fun e => model_event e = false) pre.
Proof.
  intros Hval. rewrite run_training_unfold, Hval. cbn [length].
  destruct (decide (0 = 0)) as [_|]; [|done].
  eexists. split; [reflexivity|]. split; [reflexivity|]. split.
  { intros Hs. cbn [started fs]. unfold files_after_splits. by rewrite Hs. }
  exists (prelude args ++ []). split; [reflexivity|].
  unfold prelude.
  destruct (neptune_logging args), (save_smiles_splits args);
    repeat constructor.
Qed.

(** X2: line 56 reseeds torch's generator from [args.pytorch_seed], so
    what a run returns, writes and does is the same whatever the state
    of the generator was when [run_training] was called. *)
Theorem run_training_reseeds_generator args data w r :
  run_training args data {| fs := fs w; trace := trace w; torch_rng := r |}
  = run_training args data w.
Proof. by rewrite !run_training_unfold. Qed.

(** *** Comparing scores: binary64 [<] and [>] *)

Lemma SFcompare_refl x : x <> S754_nan -> SFcompare x x = Some Eq.
Proof.
  destruct x as [s|s| |s m e]; cbn; try done; intros _.
  - by destruct s.
  - by destruct s; rewrite Z.compare_refl, Pos.compare_cont_refl.
Qed.

Lemma SFcompare_Eq_sym x y : SFcompare x y = Some Eq -> SFcompare y x = Some Eq.
Proof.
  destruct x as [s|s| |s m e], y as [s'|s'| |s' m' e']; cbn; try done;
    try (by destruct s); try (by destruct s'); try (by destruct s, s').
  destruct s, s'; try done.
  - destruct (Z.compare_spec e e') as [->| |]; try done.
    rewrite Z.compare_refl.
    destruct (Pos.compare_cont Eq m m') eqn:Hm; try done.
    apply Pos.compare_eq in Hm as ->. by rewrite Pos.compare_cont_refl.
  - destruct (Z.compare_spec e e') as [->| |]; try done.
    rewrite Z.compare_refl.
    destruct (Pos.compare_cont Eq m m') eqn:Hm; try done.
    apply Pos.compare_eq in Hm as ->. by rewrite Pos.compare_cont_refl.
Qed.

Lemma float_eqb_not_ltb x y :
  PrimFloat.eqb x y = true ->
  PrimFloat.ltb x y = false /\ PrimFloat.ltb y x = false.
Proof.
  rewrite FloatAxioms.eqb_spec, !FloatAxioms.ltb_spec. unfold SFeqb, SFltb.
  destruct (SFcompare (Prim2SF x) (Prim2SF y)) as [[]|] eqn:Hc; try done.
  intros _. by rewrite (SFcompare_Eq_sym _ _ Hc).
Qed.

Lemma float_is_nan x : is_nan x = true -> Prim2SF x = S754_nan.
Proof.
  unfold is_nan. rewrite FloatAxioms.eqb_spec. unfold SFeqb.
  intros H. destruct (Prim2SF x) as [s|s| |s m e] eqn:Hx; [| |done|].
  all: by rewrite SFcompare_refl in H.
Qed.

Lemma float_nan_not_ltb x y :
  is_nan x = true ->
  PrimFloat.ltb x y = false /\ PrimFloat.ltb y x = false.
Proof.
  intros H%float_is_nan. rewrite !FloatAxioms.ltb_spec, H. unfold SFltb.
  cbn. by destruct (Prim2SF y).
Qed.

Lemma float_finite_between x :
  is_finite x = true ->
  PrimFloat.ltb x infinity = true /\ PrimFloat.ltb neg_infinity x = true.
Proof.
  unfold is_finite, is_nan, is_infinity.
  rewrite !FloatAxioms.eqb_spec, !FloatAxioms.ltb_spec, FloatAxioms.abs_spec.
  change (Prim2SF infinity) with (S754_infinity false).
  change (Prim2SF neg_infinity) with (S754_infinity true).
  unfold SFeqb, SFltb.
  destruct (Prim2SF x) as [s|s| |s m e]; try destruct s; cbn; try done.
Qed.

(** X3: the test of line 366 is strict in both directions. A score equal
    to the best one so far ([==], so also [0.0] against [-0.0]) is no
    improvement, whichever way the metric is optimised, and neither is a
    nan score or any score against a nan best. *)
Theorem tie_or_nan_is_no_improvement args mean_val_score best_score :
  PrimFloat.eqb mean_val_score best_score = true
  \/ is_nan mean_val_score = true \/ is_nan best_score = true ->
  improved args mean_val_score best_score = false.
Proof.
  intros H. unfold improved.
  assert (PrimFloat.ltb mean_val_score best_score = false
          /\ PrimFloat.ltb best_score mean_val_score = false) as [-> ->].
  { destruct H as [H|[H|H]].
    - by apply float_eqb_not_ltb.
    - by apply float_nan_not_ltb.
    - by apply and_comm, float_nan_not_ltb. }
  by destruct (minimize_score args).
Qed.

(** Against the initial best score of line 306 (plus infinity when
    minimising, minus infinity otherwise) every finite score is an
    improvement. *)
Lemma finite_improves_on_initial args mean_val_score :
  is_finite mean_val_score = true ->
  improved args mean_val_score
    (if minimize_score args then infinity else neg_infinity) = true.
Proof.
  intros [H1 H2]%float_finite_between. unfold improved.
  destruct (minimize_score args); cbn; by rewrite ?H1, ?H2.
Qed.

(** *** Dictionaries *)

Lemma dict_get_set {V} (d : dict V) k v k' :
  dict_get (dict_set d k v) k'
  = if decide (k = k') then Some v else dict_get d k'.
Proof.
  induction d as [|[k0 v0] d IH]; cbn.
  - by destruct (decide (k = k')).
  - destruct (decide (k0 = k)) as [->|Hk]; cbn.
    + by destruct (decide (k = k')).
    + destruct (decide (k0 = k')) as [->|]; [|done].
      by destruct (decide (k = k')).
Qed.

Lemma dict_get_foldl {V} (f : string -> V) keys acc k :
  dict_get (foldl (fun d k => dict_set d k (f k)) acc keys) k
  = if decide (k ∈ keys) then Some (f k) else dict_get acc k.
Proof.
  revert acc. induction keys as [|k0 keys IH]; intros acc; cbn.
  - destruct (decide (k ∈ [])) as [H|]; [|done]. by apply elem_of_nil in H.
  - rewrite IH, dict_get_set.
    destruct (decide (k ∈ keys)) as [Hin|Hin].
    + destruct (decide (k ∈ k0 :: keys)) as [|Hn]; [done|].
      destruct Hn. by right.
    + destruct (decide (k0 = k)) as [->|Hne].
      * destruct (decide (k ∈ k :: keys)) as [|Hn]; [done|].
        destruct Hn. by left.
      * destruct (decide (k ∈ k0 :: keys)) as [Hc|]; [|done].
        apply elem_of_cons in Hc as [->|]; done.
Qed.

Lemma dict_get_comprehension {V} (f : string -> V) keys k :
  dict_get (dict_comprehension f keys) k
  = if decide (k ∈ keys) then Some (f k) else None.
Proof. unfold dict_comprehension. by rewrite dict_get_foldl. Qed.

(** *** One epoch *)

(** The world after some more effects that touch neither the files nor
    the generator. *)
Definition logged (w : world) (extra : list event) : world :=
  {| fs := fs w; trace := trace w ++ extra; torch_rng := torch_rng w |}.

Lemma logged_nil w : logged w [] = w.
Proof. destruct w. unfold logged. cbn. by rewrite app_nil_r. Qed.

Lemma logged_logged w a b : logged (logged w a) b = logged w (a ++ b).
Proof. unfold logged. cbn. by rewrite app_assoc. Qed.

(** Writing the scores or the predictions. *)
Definition scores_event (e : event) : bool :=
  match e with
  | WriteScores _ | WritePreds _ => true
  | _ => false
  end.

Definition neptune_log (e : event) : bool :=
  match e with
  | NeptuneLog _ _ | NeptuneLogLr _ _ => true
  | _ => false
  end.

Lemma neptune_log_no_scores e : neptune_log e = true -> scores_event e = false.
Proof. by destruct e. Qed.

Lemma log_val_scores_ok args model_idx items mean_val_score w :
  exists o extra,
    log_val_scores args model_idx items mean_val_score w
      = (Ok o, logged w extra)
    /\ Forall (fun e => neptune_log e = true) extra.
Proof.
  revert mean_val_score w.
  induction items as [|[metric scores] items IH]; intros mvs w; cbn.
  - exists mvs, []. by rewrite logged_nil.
  - unfold bind, when. destruct (neptune_logging args).
    + cbn. fold (logged w [NeptuneLog (score_key "validation" args model_idx metric)
                             (multitask_mean scores metric)]).
      destruct (IH (Some (multitask_mean scores metric))
                  (logged w [NeptuneLog (score_key "validation" args model_idx metric)
                               (multitask_mean scores metric)]))
        as (o & extra & -> & Hex).
      eexists o, (_ :: extra). rewrite logged_logged.
      split; [reflexivity|]. by constructor.
    + cbn. apply IH.
Qed.

(** The validation score of the primary metric, as line 365 computes it. *)
Definition primary_score (s : setup) (model : model) : float :=
  multitask_mean
    (validation_scores model (s_val_data s) (num_tasks (s_args s))
       (dataset_type (s_args s)) (s_scaler s) (metric (s_args s)))
    (metric (s_args s)).

Definition bundle (s : setup) (model : model) : file :=
  CheckpointFile
    {| ck_model := model; ck_scaler := s_scaler s;
       ck_features_scaler := s_features_scaler s;
       ck_atom_descriptor_scaler := s_atom_descriptor_scaler s;
       ck_bond_feature_scaler := s_bond_feature_scaler s;
       ck_args := s_args s |}.

(** X5: an epoch whose primary metric is among the evaluated ones
    completes, and it overwrites the member's checkpoint exactly when its
    score improves on the best so far: then the file holds the model as
    just trained, with the scalers and the arguments, and the best score
    and epoch are updated; otherwise no file changes and the best score
    and epoch stay. *)
Theorem run_epoch_saves_iff_improved s model_idx st epoch w :
  metric (s_args s) ∈ metrics (s_args s) ->
  exists st' w',
    run_epoch s model_idx st epoch w = (Ok st', w')
    /\ ls_model st'
       = (train (ls_model st) (s_train_data s) (ls_optimizer st)
            (ls_scheduler st) (s_args s) (ls_n_iter st) model_idx
            (torch_rng w)).1.1.1.1
    /\ ls_mean_val_score st' = Some (primary_score s (ls_model st'))
    /\ if improved (s_args s) (primary_score s (ls_model st')) (ls_best_score st)
       then fs w' = <[checkpoint_path (s_args s) model_idx
                        := bundle s (ls_model st')]> (fs w)
            /\ ls_best_score st' = primary_score s (ls_model st')
            /\ ls_best_epoch st' = epoch
       else fs w' = fs w
            /\ ls_best_score st' = ls_best_score st
            /\ ls_best_epoch st' = ls_best_epoch st.
Proof.
  intros Hin. unfold run_epoch. cbv zeta.
  unfold bind at 1.
  assert (exists extra,
             when (neptune_logging (s_args s))
               (emit (NeptuneLogLr (lr_key (s_args s) model_idx)
                        (get_lr (ls_scheduler st)))) w
             = (Ok tt, logged w extra)) as [extra0 ->].
  { unfold when. destruct (neptune_logging (s_args s)).
    - by eexists [_].
    - exists []. by rewrite logged_nil. }
  unfold bind at 1. unfold run_train. cbn [logged torch_rng fs trace].
  destruct (train _ _ _ _ _ _ _ _) as [[[[m o] sch] n] r]. cbn [fst].
  unfold bind at 1. unfold emit at 1. cbn [fs trace torch_rng].
  unfold bind at 1.
  match goal with
  | |- context [log_val_scores ?a ?i ?items ?mvs ?w0] =>
      destruct (log_val_scores_ok a i items mvs w0) as (o' & extra & -> & _)
  end.
  unfold bind at 1, lift, dict_index, evaluate.
  rewrite dict_get_comprehension.
  destruct (decide (metric (s_args s) ∈ metrics (s_args s))); [|done].
  fold (primary_score s m).
  destruct (improved (s_args s) (primary_score s m) (ls_best_score st))
    eqn:Himp.
  - unfold bind, save_member, save_checkpoint, write_file, ret.
    cbn [logged fs trace torch_rng]. eexists _, _.
    split; [reflexivity|]. cbn. by rewrite Himp.
  - unfold ret. eexists _, _. split; [reflexivity|]. cbn. by rewrite Himp.
Qed.

(** What the epochs of a member may do to the world: leave the files as
    they are or overwrite the member's checkpoint, and add to the trace
    anything but the writing of the scores. *)
Definition member_step (s : setup) (model_idx : nat) (w w' : world) : Prop :=
  (fs w' = fs w
   \/ exists m,
        fs w' = <[checkpoint_path (s_args s) model_idx := bundle s m]> (fs w))
  /\ exists extra, trace w' = trace w ++ extra
                   /\ Forall (fun e => scores_event e = false) extra.

Lemma member_step_refl s i w : member_step s i w w.
Proof. split; [by left|]. exists []. by rewrite app_nil_r. Qed.

Lemma member_step_trans s i w1 w2 w3 :
  member_step s i w1 w2 -> member_step s i w2 w3 -> member_step s i w1 w3.
Proof.
  intros [Hf1 (e1 & Ht1 & He1)] [Hf2 (e2 & Ht2 & He2)]. split.
  - destruct Hf2 as [->|[m ->]]; [done|]. right. exists m.
    destruct Hf1 as [->|[m' ->]]; [done|]. by rewrite insert_insert_eq.
  - exists (e1 ++ e2). rewrite Ht2, Ht1, app_assoc. split; [done|].
    by apply Forall_app.
Qed.

Lemma when_emit_ok b e w :
  when b (emit e) w = (Ok tt, logged w (if b then [e] else [])).
Proof. destruct b; [done|]. by rewrite logged_nil. Qed.

Lemma run_epoch_effects s model_idx st epoch w :
  member_step s model_idx w (run_epoch s model_idx st epoch w).2
  /\ (metric (s_args s) ∈ metrics (s_args s) ->
      exists st', (run_epoch s model_idx st epoch w).1 = Ok st'
                  /\ is_Some (ls_mean_val_score st'))
  /\ (metric (s_args s) ∉ metrics (s_args s) ->
      (run_epoch s model_idx st epoch w).1
        = Raise (KeyError (metric (s_args s)))
      /\ fs (run_epoch s model_idx st epoch w).2 = fs w).
Proof.
  destruct (run_epoch s model_idx st epoch w) as [res w'] eqn:E.
  cbn [fst snd]. unfold run_epoch in E. cbv zeta in E.
  unfold bind at 1 in E. rewrite when_emit_ok in E.
  set (lr := if neptune_logging (s_args s) then _ else _) in E.
  assert (Forall (fun e => scores_event e = false) lr) as Hlr.
  { subst lr. destruct (neptune_logging (s_args s)); by repeat constructor. }
  clearbody lr.
  unfold bind at 1 in E. unfold run_train in E.
  cbn [logged torch_rng fs trace] in E.
  destruct (train _ _ _ _ _ _ _ _) as [[[[m o] sch] n] r]. cbn [fst] in E.
  unfold bind at 1 in E. unfold emit at 1 in E.
  cbn [fs trace torch_rng] in E. unfold bind at 1 in E.
  match type of E with
  | context [log_val_scores ?a ?i ?items ?mvs ?w0] =>
      destruct (log_val_scores_ok a i items mvs w0) as (o' & extra & Hl & Hex)
  end.
  rewrite Hl in E. clear Hl.
  assert (Forall (fun e => scores_event e = false) extra) as Hex'.
  { eapply Forall_impl; [exact Hex|]. apply neptune_log_no_scores. }
  unfold bind at 1 in E. unfold lift, dict_index, evaluate in E.
  rewrite dict_get_comprehension in E.
  assert (forall more,
             Forall (fun e => scores_event e = false) more ->
             Forall (fun e => scores_event e = false)
               (lr ++ [TrainEpoch model_idx epoch] ++ [Validate model_idx epoch]
                ++ extra ++ more)) as Hall.
  { intros more Hm. rewrite !Forall_app. repeat split; try done;
      by repeat constructor. }
  destruct (decide (metric (s_args s) ∈ metrics (s_args s))) as [Hin|Hin].
  - fold (primary_score s m) in E.
    destruct (improved (s_args s) (primary_score s m) (ls_best_score st)).
    + unfold bind, save_member, save_checkpoint, write_file, ret, logged in E.
      cbn [fs trace torch_rng] in E. injection E as <- <-.
      cbn [fs trace]. split; [|split].
      * split; [right; by eexists|].
        eexists. rewrite <- !app_assoc. split; [reflexivity|].
        apply Hall. by repeat constructor.
      * intros _. eexists. split; [reflexivity|]. by eexists.
      * done.
    + unfold ret, logged in E. cbn [fs trace torch_rng] in E.
      injection E as <- <-. cbn [fs trace]. split; [|split].
      * split; [by left|].
        exists (lr ++ [TrainEpoch model_idx epoch]
                ++ [Validate model_idx epoch] ++ extra ++ []).
        rewrite app_nil_r, <- !app_assoc. split; [reflexivity|].
        rewrite <- (app_nil_r extra). by apply Hall.
      * intros _. eexists. split; [reflexivity|]. by eexists.
      * done.
  - unfold logged in E. cbn [fs trace torch_rng] in E. injection E as <- <-.
    cbn [fs trace]. split; [|split].
    + split; [by left|].
      exists (lr ++ [TrainEpoch model_idx epoch]
              ++ [Validate model_idx epoch] ++ extra ++ []).
      rewrite app_nil_r, <- !app_assoc. split; [reflexivity|].
      rewrite <- (app_nil_r extra). by apply Hall.
    + done.
    + done.
Qed.

(** X6: when the primary metric [args.metric] is not among
    [args.metrics] (so that [evaluate], which scores the metrics it is
    given, has no entry for it), line 365 raises KeyError after the epoch
    has been trained and validated; no checkpoint has been written. *)
Theorem unknown_primary_metric_raises s model_idx st epoch w :
  metric (s_args s) ∉ metrics (s_args s) ->
  (run_epoch s model_idx st epoch w).1 = Raise (KeyError (metric (s_args s)))
  /\ fs (run_epoch s model_idx st epoch w).2 = fs w.
Proof. apply run_epoch_effects. Qed.

(** *** The epoch loop *)

Lemma epochs_loop_effects s model_idx epochs st w :
  member_step s model_idx w (epochs_loop s model_idx epochs st w).2
  /\ (metric (s_args s) ∈ metrics (s_args s) \/ epochs = [] ->
      exists st',
        (epochs_loop s model_idx epochs st w).1 = Ok st'
        /\ (epochs = [] -> st' = st)
        /\ (epochs <> [] -> is_Some (ls_mean_val_score st'))).
Proof.
  revert st w. induction epochs as [|epoch epochs IH]; intros st w.
  - cbn. split; [apply member_step_refl|]. intros _. by exists st.
  - cbn [epochs_loop]. unfold bind.
    destruct (run_epoch_effects s model_idx st epoch w) as (Hstep & Hok & _).
    destruct (run_epoch s model_idx st epoch w) as [[st1|e] w1];
      cbn [fst snd] in *.
    + destruct (IH st1 w1) as [Hstep' Hok']. split.
      * by eapply member_step_trans.
      * intros [Hin|?]; [|done].
        destruct (Hok Hin) as (st1' & [= <-] & Hsome).
        destruct (Hok' (or_introl Hin)) as (st' & Heq & Hnil & Hcons).
        exists st'. split; [done|]. split; [done|]. intros _.
        destruct epochs; [by rewrite Hnil|by apply Hcons].
    + split; [done|]. intros [Hin|?]; [|done].
      by destruct (Hok Hin) as (? & ? & _).
Qed.

(** *** Logging the test scores to Neptune *)

Lemma log_test_scores_ok args model_idx items mean_val_score w :
  neptune_logging args = false \/ is_Some mean_val_score ->
  exists extra,
    log_test_scores args model_idx items mean_val_score w
      = (Ok tt, logged w extra)
    /\ Forall (fun e => neptune_log e = true) extra.
Proof.
  intros H. revert w.
  induction items as [|[metric scores] items IH]; intros w; cbn.
  - exists []. by rewrite logged_nil.
  - unfold bind. destruct (neptune_logging args) eqn:Hn.
    + destruct H as [|[v ->]]; [done|]. cbn.
      unfold bind, ret, emit. cbn.
      fold (logged w [NeptuneLog (score_key "test" args model_idx metric) v]).
      destruct (IH (logged w [NeptuneLog (score_key "test" args model_idx metric) v]))
        as (extra & -> & Hex).
      eexists (_ :: extra). rewrite logged_logged.
      split; [reflexivity|]. by constructor.
    + cbn. apply IH.
Qed.

Lemma log_final_scores_ok args items mean_val_score w :
  neptune_logging args = false \/ is_Some mean_val_score ->
  exists extra,
    log_final_scores args items mean_val_score w = (Ok tt, logged w extra)
    /\ Forall (fun e => neptune_log e = true) extra.
Proof.
  intros H. revert w.
  induction items as [|[metric scores] items IH]; intros w; cbn.
  - exists []. by rewrite logged_nil.
  - unfold bind. destruct (neptune_logging args) eqn:Hn.
    + destruct H as [|[v ->]]; [done|]. cbn.
      unfold bind, ret, emit. cbn.
      fold (logged w [NeptuneLog ("test/final_" +:+ metric) v]).
      destruct (IH (logged w [NeptuneLog ("test/final_" +:+ metric) v]))
        as (extra & -> & Hex).
      eexists (_ :: extra). rewrite logged_logged.
      split; [reflexivity|]. by constructor.
    + cbn. apply IH.
Qed.

(** *** One member *)

(** The world after a checkpoint has been loaded from [path]. *)
Definition loaded (w : world) (path : string) (c : checkpoint) : world :=
  {| fs := fs w; trace := trace w ++ [LoadCheckpoint path];
     torch_rng := rng_after_load c (torch_rng w) |}.

Lemma load_checkpoint_file path c w :
  fs w !! path = Some (CheckpointFile c) ->
  load_checkpoint path w = (Ok (ck_model c), loaded w path c).
Proof.
  intros H. unfold load_checkpoint, bind, read_file. by rewrite H.
Qed.

Lemma load_checkpoint_ok s path m w :
  fs w !! path = Some (bundle s m) ->
  exists c, load_checkpoint path w = (Ok m, loaded w path c).
Proof. intros H. eexists. by rewrite (load_checkpoint_file _ _ _ H). Qed.

(** [sum_test_preds] after lines 393-394. *)
Definition add_preds (sum_test_preds test_preds : ndarray) : ndarray :=
  if decide (len test_preds = 0) then sum_test_preds
  else {| shape := shape sum_test_preds;
          data := zip_with PrimFloat.add (data sum_test_preds)
                    (data test_preds) |}.

Lemma test_member_ok s sum_test_preds mean_val_score model_idx m w :
  s_empty_test_set s = true
  \/ (neptune_logging (s_args s) = false \/ is_Some mean_val_score)
     /\ shape (predict m (s_test_data s) (s_scaler s)) = shape sum_test_preds ->
  exists extra,
    test_member s sum_test_preds mean_val_score model_idx m w
    = (Ok (if s_empty_test_set s then sum_test_preds
           else add_preds sum_test_preds
                  (predict m (s_test_data s) (s_scaler s)),
           mean_val_score), logged w extra)
    /\ Forall (fun e => scores_event e = false) extra.
Proof.
  intros H. unfold test_member. cbv zeta.
  destruct (s_empty_test_set s).
  { exists []. by rewrite logged_nil. }
  destruct H as [|[Hlog Hshape]]; [done|].
  unfold bind at 1. unfold emit at 1. fold (logged w [Predict model_idx]).
  unfold bind at 1.
  assert ((if decide (len (predict m (s_test_data s) (s_scaler s)) = 0)
           then ret sum_test_preds
           else lift (iadd sum_test_preds
                        (predict m (s_test_data s) (s_scaler s))))
            (logged w [Predict model_idx])
          = (Ok (add_preds sum_test_preds
                   (predict m (s_test_data s) (s_scaler s))),
             logged w [Predict model_idx])) as ->.
  { unfold add_preds, iadd, lift, ret.
    destruct (decide (len _ = 0)); [done|].
    destruct (decide (shape sum_test_preds = shape _)); [done|].
    by rewrite Hshape in *. }
  unfold bind at 1.
  match goal with
  | |- context [log_test_scores ?a ?i ?items ?mvs ?w0] =>
      destruct (log_test_scores_ok a i items mvs w0 Hlog) as (ex & -> & Hex)
  end.
  unfold ret. rewrite logged_logged. eexists. split; [reflexivity|].
  constructor; [done|].
  eapply Forall_impl; [exact Hex|]. apply neptune_log_no_scores.
Qed.

Lemma train_member_ok s sum_test_preds mean_val_score model_idx w :
  checkpoint_paths (s_args s) = None ->
  checkpoint_frzn (s_args s) = None ->
  metric (s_args s) ∈ metrics (s_args s) \/ epochs (s_args s) = 0 ->
  s_empty_test_set s = true
  \/ (neptune_logging (s_args s) = false \/ 0 < epochs (s_args s)
      \/ is_Some mean_val_score)
     /\ (forall m, shape (predict m (s_test_data s) (s_scaler s))
                   = shape sum_test_preds) ->
  exists m mvs' w',
    train_member s (sum_test_preds, mean_val_score) model_idx w
    = (Ok (if s_empty_test_set s then sum_test_preds
           else add_preds sum_test_preds
                  (predict m (s_test_data s) (s_scaler s)),
           mvs'), w')
    /\ fs w' = <[checkpoint_path (s_args s) model_idx := bundle s m]> (fs w)
    /\ (exists extra, trace w' = trace w ++ extra
                      /\ Forall (fun e => scores_event e = false) extra)
    /\ (epochs (s_args s) = 0 ->
        mvs' = mean_val_score
        /\ m = (MoleculeModel (s_args s) (torch_rng w)).1)
    /\ (0 < epochs (s_args s) -> is_Some mvs').
Proof.
  intros Hcp Hfrzn Hmetric Htest.
  unfold train_member. cbv zeta.
  unfold bind at 1. unfold emit at 1.
  unfold bind at 1. unfold initial_model. rewrite Hcp, Hfrzn.
  unfold bind at 1. cbn [fs trace torch_rng].
  destruct (MoleculeModel (s_args s) (torch_rng w)) as [m0 r0] eqn:Hm0.
  unfold ret at 1.
  unfold bind at 1. unfold save_member at 1, save_checkpoint, write_file.
  cbn [fs trace torch_rng fst]. fold (bundle s m0).
  unfold bind at 1.
  destruct (epochs (s_args s)) as [|k] eqn:Hk.
  - cbn [seq epochs_loop]. unfold ret at 1. unfold bind at 1.
    match goal with
    | |- context [load_checkpoint ?p ?w0] =>
        destruct (load_checkpoint_ok s p m0 w0) as [c0 ->];
          [cbn; apply lookup_insert_eq|]
    end.
    cbn [ls_mean_val_score].
    match goal with
    | |- context [test_member s ?a ?b ?c ?d ?w0] =>
        destruct (test_member_ok s a b c d w0) as (ex & -> & Hex)
    end.
    { destruct Htest as [|[[|[|]] Hsh]]; [by left| |lia|];
        right; (split; [|apply Hsh]); [by left|by right]. }
    exists m0. eexists _, _. split; [reflexivity|].
    cbn [logged loaded fs trace]. split; [done|]. split.
    + eexists. rewrite <- !app_assoc. split; [reflexivity|].
      rewrite !Forall_app. repeat split; try done; by repeat constructor.
    + split; [done|lia].
  - match goal with
    | |- context [epochs_loop s model_idx ?es ?st ?w0] =>
        destruct (epochs_loop_effects s model_idx es st w0) as [Hstep Hok];
        destruct (epochs_loop s model_idx es st w0) as [res w3]
    end.
    cbn [fst snd] in Hstep, Hok.
    destruct Hok as (st' & -> & _ & Hcons).
    { destruct Hmetric as [|]; [by left|done]. }
    specialize (Hcons ltac:(done)).
    destruct Hstep as [Hfs (ex & Htr & Hex)]. cbn [fs trace] in Hfs, Htr.
    assert (exists m, fs w3 = <[checkpoint_path (s_args s) model_idx
                                 := bundle s m]> (fs w)) as [m Hfs3].
    { destruct Hfs as [->|[m ->]]; [by eexists|].
      exists m. by rewrite insert_insert_eq. }
    unfold bind at 1.
    match goal with
    | |- context [load_checkpoint ?p ?w0] =>
        destruct (load_checkpoint_ok s p m w0) as [c0 ->];
          [rewrite Hfs3; apply lookup_insert_eq|]
    end.
    match goal with
    | |- context [test_member s ?a ?b ?c ?d ?w0] =>
        destruct (test_member_ok s a b c d w0) as (ex' & -> & Hex')
    end.
    { destruct Htest as [|[_ Hsh]]; [by left|].
      right. split; [by right|apply Hsh]. }
    exists m. eexists _, _. split; [reflexivity|].
    cbn [logged loaded fs trace]. split; [done|]. split.
    + eexists. rewrite Htr, <- !app_assoc. split; [reflexivity|].
      rewrite !Forall_app. repeat split; try done; by repeat constructor.
    + split; [done|]. by intros _.
Qed.

(** *** The ensemble loop *)

Lemma add_preds_shape a b : shape (add_preds a b) = shape a.
Proof. unfold add_preds. by destruct (decide _). Qed.

Definition predictions (s : setup) (models : list model) : list ndarray :=
  (fun m => predict m (s_test_data s) (s_scaler s)) <$> models.

Lemma members_loop_ok s members sum_test_preds mean_val_score w :
  checkpoint_paths (s_args s) = None ->
  checkpoint_frzn (s_args s) = None ->
  metric (s_args s) ∈ metrics (s_args s) \/ epochs (s_args s) = 0 ->
  s_empty_test_set s = true
  \/ (neptune_logging (s_args s) = false \/ 0 < epochs (s_args s)
      \/ is_Some mean_val_score)
     /\ (forall m, shape (predict m (s_test_data s) (s_scaler s))
                   = shape sum_test_preds) ->
  exists models mvs' w',
    members_loop s members (sum_test_preds, mean_val_score) w
    = (Ok (if s_empty_test_set s then sum_test_preds
           else foldl add_preds sum_test_preds (predictions s models),
           mvs'), w')
    /\ length models = length members
    /\ (exists extra, trace w' = trace w ++ extra
                      /\ Forall (fun e => scores_event e = false) extra)
    /\ (epochs (s_args s) = 0 \/ members = [] -> mvs' = mean_val_score)
    /\ (0 < epochs (s_args s) -> members <> [] -> is_Some mvs').
Proof.
  intros Hcp Hfrzn Hmetric. revert sum_test_preds mean_val_score w.
  induction members as [|model_idx members IH]; intros sum mvs w Htest.
  - exists [], mvs, w. cbn. split; [by destruct (s_empty_test_set s)|].
    split; [done|]. split; [|done].
    exists []. by rewrite app_nil_r.
  - cbn [members_loop]. unfold bind.
    destruct (train_member_ok s sum mvs model_idx w Hcp Hfrzn Hmetric Htest)
      as (m & mvs1 & w1 & -> & _ & (ex1 & Htr1 & Hex1) & Hzero & Hpos).
    destruct (IH (if s_empty_test_set s then sum
                  else add_preds sum (predict m (s_test_data s) (s_scaler s)))
                mvs1 w1)
      as (models & mvs2 & w2 & -> & Hlen & (ex2 & Htr2 & Hex2) & Hzero2 & Hpos2).
    { destruct Htest as [|[Hlog Hsh]]; [by left|]. right. split.
      - destruct (epochs (s_args s)) as [|k] eqn:Hk; [|right; left; lia].
        destruct (Hzero eq_refl) as [-> _].
        destruct Hlog as [|[|]]; [by left|lia|by right; right].
      - intros m'. destruct (s_empty_test_set s); [done|].
        by rewrite add_preds_shape. }
    exists (m :: models), mvs2, w2. split.
    { by destruct (s_empty_test_set s). }
    split; [cbn; by rewrite Hlen|]. split.
    { exists (ex1 ++ ex2). rewrite Htr2, Htr1, app_assoc. split; [done|].
      by apply Forall_app. }
    split.
    + intros [Hz|?]; [|done]. destruct (Hzero Hz) as [<- _].
      apply Hzero2. by left.
    + intros Hp _. destruct members as [|i members].
      * rewrite Hzero2 by (by right). by apply Hpos.
      * by apply Hpos2.
Qed.

(** *** After the loop *)

(** [ensemble_scores] as lines 419-435 bind it. *)
Definition ensemble_scores (s : setup) (sum_test_preds : ndarray)
    : dict (list float) :=
  if s_empty_test_set s then nan_scores (s_args s)
  else evaluate_predictions
         (true_divide sum_test_preds (ensemble_size (s_args s)))
         (s_test_data s) (num_tasks (s_args s)) (metrics (s_args s))
         (dataset_type (s_args s)).

Lemma finish_ok s sum_test_preds mean_val_score w :
  neptune_logging (s_args s) = false \/ is_Some mean_val_score ->
  save_preds (s_args s) && negb (s_empty_test_set s) = false ->
  exists extra,
    finish s (sum_test_preds, mean_val_score) w
    = (Ok (ensemble_scores s sum_test_preds),
       {| fs := <[scores_path (s_args s)
                  := ScoresFile
                       (json_dump_sort_keys (ensemble_scores s sum_test_preds))]>
                  (fs w);
          trace := trace w ++ extra ++ [WriteScores (scores_path (s_args s))]
                   ++ (if neptune_logging (s_args s) then [NeptuneStop]
                       else []);
          torch_rng := torch_rng w |})
    /\ Forall (fun e => neptune_log e = true) extra.
Proof.
  intros Hlog Hpreds. unfold finish. cbv zeta.
  fold (ensemble_scores s sum_test_preds).
  unfold bind at 1.
  destruct (log_final_scores_ok (s_args s) (ensemble_scores s sum_test_preds)
              mean_val_score w Hlog) as (extra & -> & Hex).
  exists extra. split; [|done].
  unfold bind at 1. unfold write_file at 1. cbn [logged fs trace torch_rng].
  rewrite Hpreds. unfold bind at 1. unfold ret at 1.
  unfold bind, when, ret, emit.
  destruct (neptune_logging (s_args s)); cbn [fs trace torch_rng];
    by rewrite <- ?app_assoc, ?app_nil_r.
Qed.

Lemma log_final_scores_unbound args items w :
  neptune_logging args = true -> items <> [] ->
  log_final_scores args items None w
  = (Raise (NameError "mean_val_score"), w).
Proof.
  intros Hn Hne. destruct items as [|[metric scores] items]; [done|].
  cbn. unfold bind. by rewrite Hn.
Qed.

(** *** What the preparation keeps of the arguments *)

Lemma scale_targets_fields args train_data val_data test_data :
  let r := scale_targets args train_data val_data test_data in
  let args' := r.1.1 in
  (neptune_logging args' = neptune_logging args
   /\ ensemble_size args' = ensemble_size args
   /\ epochs args' = epochs args
   /\ save_dir args' = save_dir args
   /\ checkpoint_paths args' = checkpoint_paths args
   /\ checkpoint_frzn args' = checkpoint_frzn args)
  /\ (minimize_score args' = minimize_score args
      /\ metric args' = metric args
      /\ metrics args' = metrics args
      /\ save_preds args' = save_preds args
      /\ task_names args' = task_names args
      /\ num_tasks args' = num_tasks args
      /\ dataset_type args' = dataset_type args)
  /\ length r.2.1.1 = length train_data
  /\ length r.2.1.2 = length val_data
  /\ length r.2.2 = length test_data.
Proof.
  unfold scale_targets.
  destruct (decide (dataset_type args = "regression")).
  - destruct (normalize_targets train_data) as [sc f]. cbn.
    by rewrite length_fmap.
  - destruct (decide (dataset_type args = "spectra")); cbn;
      by rewrite ?length_fmap.
Qed.

Lemma with_class_sizes_all_fields args train_data :
  let args' := with_class_sizes args train_data in
  (neptune_logging args' = neptune_logging args
   /\ ensemble_size args' = ensemble_size args
   /\ epochs args' = epochs args
   /\ save_dir args' = save_dir args
   /\ checkpoint_paths args' = checkpoint_paths args
   /\ checkpoint_frzn args' = checkpoint_frzn args)
  /\ (minimize_score args' = minimize_score args
      /\ metric args' = metric args
      /\ metrics args' = metrics args
      /\ save_preds args' = save_preds args
      /\ task_names args' = task_names args
      /\ num_tasks args' = num_tasks args
      /\ dataset_type args' = dataset_type args).
Proof. unfold with_class_sizes. by destruct (decide _). Qed.

Lemma the_setup_fields args data :
  let s := the_setup args data in
  (neptune_logging (s_args s) = neptune_logging args
   /\ ensemble_size (s_args s) = ensemble_size args
   /\ epochs (s_args s) = epochs args
   /\ save_dir (s_args s) = save_dir args
   /\ checkpoint_paths (s_args s) = checkpoint_paths args
   /\ checkpoint_frzn (s_args s) = checkpoint_frzn args)
  /\ (minimize_score (s_args s) = minimize_score args
      /\ metric (s_args s) = metric args
      /\ metrics (s_args s) = metrics args
      /\ save_preds (s_args s) = save_preds args
      /\ task_names (s_args s) = task_names args
      /\ num_tasks (s_args s) = num_tasks args
      /\ dataset_type (s_args s) = dataset_type args)
  /\ s_empty_test_set s = bool_decide (length (split args data).2 = 0)
  /\ length (s_test_data s) = length (split args data).2.
Proof.
  unfold the_setup. cbv zeta. cbn [s_args s_empty_test_set s_test_data].
  destruct (with_class_sizes_all_fields args (split args data).1.1)
    as [Hc1 Hc2]. cbv zeta in Hc1, Hc2.
  pose proof (scaled_length (with_class_sizes args (split args data).1.1)
                (split args data).1.1 (split args data).1.2
                (split args data).2) as (_ & _ & Hlen).
  unfold scaled in Hlen. cbv zeta in Hlen.
  set (args1 := with_class_sizes args (split args data).1.1) in *.
  set (r3 := scale_splits BondFeatures _ _ _ _) in *.
  destruct (scale_targets_fields
              (set_train_data_size args1 (length r3.2.1.1))
              r3.2.1.1 r3.2.1.2 r3.2.2) as (Ht1 & Ht2 & _ & _ & Ht5).
  cbv zeta in Ht1, Ht2. cbn [neptune_logging ensemble_size epochs save_dir
    checkpoint_paths checkpoint_frzn minimize_score metric metrics save_preds
    task_names num_tasks dataset_type set_train_data_size] in Ht1, Ht2.
  split; [|split; [|split]].
  - destruct Ht1 as (->&->&->&->&->&->). exact Hc1.
  - destruct Ht2 as (->&->&->&->&->&->&->). exact Hc2.
  - by rewrite Hlen.
  - by rewrite Ht5.
Qed.

(** *** A whole run *)

(** [sum_test_preds] after the ensemble loop, given the models the
    members loaded. *)
Definition summed (s : setup) (models : list model) : ndarray :=
  if s_empty_test_set s then initial_sum s
  else foldl add_preds (initial_sum s) (predictions s models).

Lemma run_training_completes args data w :
  (split args data).1.2 <> [] ->
  checkpoint_paths args = None ->
  checkpoint_frzn args = None ->
  metric args ∈ metrics args \/ epochs args = 0 ->
  neptune_logging args = false \/ (0 < epochs args /\ 0 < ensemble_size args) ->
  (split args data).2 = []
  \/ save_preds args = false
     /\ (forall m, shape (predict m (s_test_data (the_setup args data))
                            (s_scaler (the_setup args data)))
                   = shape (initial_sum (the_setup args data))) ->
  exists models w' extra,
    run_training args data w
    = (Ok (ensemble_scores (the_setup args data)
             (summed (the_setup args data) models)), w')
    /\ length models = ensemble_size args
    /\ fs w' !! scores_path args
       = Some (ScoresFile
                 (json_dump_sort_keys
                    (ensemble_scores (the_setup args data)
                       (summed (the_setup args data) models))))
    /\ trace w' = trace w ++ extra ++ [WriteScores (scores_path args)]
                  ++ (if neptune_logging args then [NeptuneStop] else [])
    /\ Forall (fun e => scores_event e = false) extra.
Proof.
  intros Hval Hcp Hfrzn Hmetric Hlog Htest.
  rewrite run_training_unfold.
  destruct (decide (length (split args data).1.2 = 0)) as [He|_].
  { by apply nil_length_inv in He. }
  destruct (the_setup_fields args data) as (Hf1 & Hf2 & Hempty & Hlen).
  cbv zeta in Hf1, Hf2, Hempty, Hlen.
  set (s := the_setup args data) in *.
  destruct Hf1 as (Hn & Hens & Hep & Hdir & Hcp' & Hfrzn').
  destruct Hf2 as (_ & Hm & Hms & Hsp & _).
  assert (s_empty_test_set s = true
          \/ save_preds args = false
             /\ (forall m, shape (predict m (s_test_data s) (s_scaler s))
                           = shape (initial_sum s))) as Htest'.
  { destruct Htest as [Ht|?]; [left|by right].
    rewrite Hempty, Ht. done. }
  unfold bind.
  destruct (members_loop_ok s (seq 0 (ensemble_size (s_args s)))
              (initial_sum s) None
              (started args data w
                 [SetCacheGraph
                    (bool_decide (length data <= cache_cutoff (s_args s)))]))
    as (models & mvs' & w1 & -> & Hlenm & (ex1 & Htr1 & Hex1) & _ & Hpos).
  { congruence. }
  { congruence. }
  { rewrite Hm, Hms, Hep. done. }
  { destruct Htest' as [|[_ Hsh]]; [by left|]. right. split; [|done].
    rewrite Hn, Hep. destruct Hlog as [|[? _]]; [by left|by right; left]. }
  fold (summed s models).
  destruct (finish_ok s (summed s models) mvs' w1) as (ex2 & -> & Hex2).
  { rewrite Hn. destruct Hlog as [|[? ?]]; [by left|right].
    apply Hpos; [by rewrite Hep|].
    rewrite Hens. by destruct (ensemble_size args); [lia|]. }
  { rewrite Hsp. destruct Htest' as [->|[-> _]]; [|done].
    by rewrite andb_false_r. }
  assert (scores_path (s_args s) = scores_path args) as Hpath.
  { unfold scores_path. by rewrite Hdir. }
  rewrite Hpath, Hn.
  exists models. eexists.
  exists (prelude args
          ++ [SetCacheGraph
                (bool_decide (length data <= cache_cutoff (s_args s)))]
          ++ ex1 ++ ex2).
  split; [reflexivity|].
  split; [by rewrite Hlenm, length_seq|].
  split; [cbn; apply lookup_insert_eq|].
  split.
  - cbn [trace]. rewrite Htr1. unfold started. cbn [trace].
    by rewrite <- !app_assoc.
  - rewrite !Forall_app. repeat split; try done.
    + unfold prelude. destruct (neptune_logging args), (save_smiles_splits args);
        by repeat constructor.
    + by repeat constructor.
    + eapply Forall_impl; [exact Hex2|]. apply neptune_log_no_scores.
Qed.

(** X7: with a validation split that is not empty and a test split that
    is (lines 188-194, 419-422), a run with freshly built models
    completes: it returns, and writes to the scores file, a dictionary
    with one entry per metric of [args.metrics], each one nan per task
    name. With Neptune logging on this needs at least one epoch and one
    member. *)
Theorem empty_test_set_gives_nan_scores args data w :
  (split args data).1.2 <> [] ->
  (split args data).2 = [] ->
  checkpoint_paths args = None ->
  checkpoint_frzn args = None ->
  metric args ∈ metrics args \/ epochs args = 0 ->
  neptune_logging args = false \/ (0 < epochs args /\ 0 < ensemble_size args) ->
  exists scores w',
    run_training args data w = (Ok scores, w')
    /\ (forall m, dict_get scores m
                  = if decide (m ∈ metrics args)
                    then Some ((fun task => nan) <$> task_names args)
                    else None)
    /\ fs w' !! scores_path args
       = Some (ScoresFile (json_dump_sort_keys scores)).
Proof.
  intros Hval Htest Hcp Hfrzn Hmetric Hlog.
  destruct (run_training_completes args data w Hval Hcp Hfrzn Hmetric Hlog
              (or_introl Htest))
    as (models & w' & extra & Hrun & _ & Hfile & _).
  destruct (the_setup_fields args data) as (_ & Hf2 & Hempty & _).
  cbv zeta in Hf2, Hempty.
  destruct Hf2 as (_ & _ & Hms & _ & Htn & _).
  eexists _, w'. split; [exact Hrun|]. split; [|exact Hfile].
  intros m. unfold ensemble_scores.
  rewrite Hempty, Htest, bool_decide_eq_true_2 by done.
  unfold nan_scores. by rewrite dict_get_comprehension, Hms, Htn.
Qed.

#[local] Instance key_le_total {V} : Total (@key_le V).
Proof. intros a b. unfold key_le. apply String.le_total. Qed.

#[local] Instance key_le_trans {V} : Transitive (@key_le V).
Proof. intros a b c. unfold key_le. apply transitivity. Qed.

(** *** What a run does to the trace, whatever its outcome *)

Definition preds_path (args : TrainArgs) : string :=
  path_join (save_dir args) "test_preds.csv".

(** [w'] comes after [w] without the scores or the predictions having
    been written in between. *)
Definition quiet (w w' : world) : Prop :=
  exists extra, trace w' = trace w ++ extra
                /\ Forall (fun e => scores_event e = false) extra.

Lemma quiet_refl w : quiet w w.
Proof. exists []. by rewrite app_nil_r. Qed.

Lemma quiet_trans w1 w2 w3 : quiet w1 w2 -> quiet w2 w3 -> quiet w1 w3.
Proof.
  intros (e1 & H1 & F1) (e2 & H2 & F2). exists (e1 ++ e2).
  rewrite H2, H1, app_assoc. split; [done|]. by apply Forall_app.
Qed.

Lemma bind_quiet {A B} (m : M A) (k : A -> M B) w :
  quiet w (m w).2 -> (forall a w1, quiet w1 (k a w1).2) ->
  quiet w (bind m k w).2.
Proof.
  intros Hm Hk. unfold bind. destruct (m w) as [[a|e] w1]; cbn in *; [|done].
  by apply quiet_trans with w1.
Qed.

Lemma emit_quiet e w : scores_event e = false -> quiet w (emit e w).2.
Proof. intros H. exists [e]. cbn. split; [done|]. by repeat constructor. Qed.

Lemma read_file_quiet path w : quiet w (read_file path w).2.
Proof. unfold read_file. destruct (fs w !! path); apply quiet_refl. Qed.

Lemma load_checkpoint_quiet path w : quiet w (load_checkpoint path w).2.
Proof.
  unfold load_checkpoint, bind, read_file.
  destruct (fs w !! path) as [[c| | |]|]; cbn; try apply quiet_refl.
  exists [LoadCheckpoint path]. split; [done|]. by repeat constructor.
Qed.

Lemma initial_model_quiet args model_idx w :
  quiet w (initial_model args model_idx w).2.
Proof.
  unfold initial_model. apply bind_quiet.
  - destruct (checkpoint_paths args) as [paths|].
    + destruct (paths !! model_idx);
        [apply load_checkpoint_quiet|apply quiet_refl].
    + destruct (MoleculeModel args (torch_rng w)) as [m r]. cbn.
      exists [BuildModel model_idx]. split; [done|]. by repeat constructor.
  - intros m w1. destruct (checkpoint_frzn args); [|apply quiet_refl].
    apply bind_quiet; [apply read_file_quiet|]. intros f w2.
    apply bind_quiet; [by apply emit_quiet|]. intros; apply quiet_refl.
Qed.

Lemma save_member_quiet s model_idx m w :
  quiet w (save_member s model_idx m w).2.
Proof.
  unfold save_member, save_checkpoint, write_file. cbn.
  eexists [_]. split; [done|]. by repeat constructor.
Qed.

Lemma log_test_scores_quiet args model_idx items mean_val_score w :
  quiet w (log_test_scores args model_idx items mean_val_score w).2.
Proof.
  revert w. induction items as [|[metric sc] items IH]; intros w;
    cbn [log_test_scores]; [apply quiet_refl|].
  apply bind_quiet; [|intros; apply IH].
  destruct (neptune_logging args); [|apply quiet_refl].
  apply bind_quiet.
  - unfold read_mean_val_score. destruct mean_val_score; apply quiet_refl.
  - intros; by apply emit_quiet.
Qed.

Lemma log_final_scores_quiet args items mean_val_score w :
  quiet w (log_final_scores args items mean_val_score w).2.
Proof.
  revert w. induction items as [|[metric sc] items IH]; intros w;
    cbn [log_final_scores]; [apply quiet_refl|].
  apply bind_quiet; [|intros; apply IH].
  destruct (neptune_logging args); [|apply quiet_refl].
  apply bind_quiet.
  - unfold read_mean_val_score. destruct mean_val_score; apply quiet_refl.
  - intros; by apply emit_quiet.
Qed.

Lemma test_member_quiet s sum_test_preds mean_val_score model_idx m w :
  quiet w (test_member s sum_test_preds mean_val_score model_idx m w).2.
Proof.
  unfold test_member. cbv zeta.
  destruct (s_empty_test_set s); [apply quiet_refl|].
  apply bind_quiet; [by apply emit_quiet|]. intros _ w1.
  apply bind_quiet; [destruct (decide _); apply quiet_refl|]. intros a w2.
  apply bind_quiet; [apply log_test_scores_quiet|]. intros; apply quiet_refl.
Qed.

Lemma train_member_quiet s acc model_idx w :
  quiet w (train_member s acc model_idx w).2.
Proof.
  unfold train_member. destruct acc as [sum_test_preds mean_val_score].
  cbv zeta.
  apply bind_quiet; [by apply emit_quiet|]. intros _ w1.
  apply bind_quiet; [apply initial_model_quiet|]. intros m w2.
  apply bind_quiet; [apply save_member_quiet|]. intros _ w3.
  apply bind_quiet; [apply epochs_loop_effects|]. intros st w4.
  apply bind_quiet; [apply load_checkpoint_quiet|]. intros m' w5.
  apply test_member_quiet.
Qed.

Lemma members_loop_quiet s members acc w :
  quiet w (members_loop s members acc w).2.
Proof.
  revert acc w. induction members as [|i members IH]; intros acc w;
    cbn [members_loop]; [apply quiet_refl|].
  apply bind_quiet; [apply train_member_quiet|]. intros; apply IH.
Qed.

Lemma scores_path_not_preds_path args : scores_path args <> preds_path args.
Proof.
  unfold scores_path, preds_path, path_join. cbn [starts_with_slash].
  destruct (bool_decide (save_dir args = "") || ends_with_slash (save_dir args)).
  - intros H%(inj (String.app _)). discriminate.
  - intros H%(inj (String.app _)). discriminate.
Qed.

(** What [finish] has done when it returns. *)
Lemma finish_returns s acc w scores w' :
  finish s acc w = (Ok scores, w') ->
  exists before,
    fs w' !! scores_path (s_args s)
    = Some (ScoresFile (json_dump_sort_keys scores))
    /\ trace w'
       = trace w ++ before ++ [WriteScores (scores_path (s_args s))]
         ++ (if save_preds (s_args s) && negb (s_empty_test_set s)
             then [WritePreds (preds_path (s_args s))] else [])
         ++ (if neptune_logging (s_args s) then [NeptuneStop] else [])
    /\ Forall (fun e => scores_event e = false) before
    /\ scores = ensemble_scores s acc.1.
Proof.
  destruct acc as [sum_test_preds mean_val_score].
  unfold finish. cbv zeta. fold (ensemble_scores s sum_test_preds).
  fold (preds_path (s_args s)).
  unfold bind at 1.
  pose proof (log_final_scores_quiet (s_args s)
                (ensemble_scores s sum_test_preds) mean_val_score w)
    as (before & Htr & Hbefore).
  destruct (log_final_scores _ _ _ w) as [[[]|e] w1]; [|done].
  cbn [snd] in Htr.
  unfold bind at 1. unfold write_file at 1.
  unfold bind at 1.
  destruct (save_preds (s_args s) && negb (s_empty_test_set s)).
  - unfold bind at 1. unfold lift at 1.
    destruct (preds_columns _ _ _ _) as [frame|e]; [|done].
    unfold write_file at 1. cbn [fs trace torch_rng].
    unfold bind, when, emit, ret.
    destruct (neptune_logging (s_args s)); cbn [fs trace torch_rng];
      intros [= <- <-]; exists before; cbn [fs trace];
      (split; [rewrite lookup_insert_ne
                 by (apply not_eq_sym, scores_path_not_preds_path);
               apply lookup_insert_eq|]);
      (split; [|done]); by rewrite Htr, <- !app_assoc.
  - unfold ret at 1. unfold bind, when, emit, ret.
    destruct (neptune_logging (s_args s)); cbn [fs trace torch_rng];
      intros [= <- <-]; exists before; cbn [fs trace];
      (split; [apply lookup_insert_eq|]);
      (split; [|done]); by rewrite Htr, <- ?app_assoc, ?app_nil_r.
Qed.

(** C9: every run that returns has written the scores file exactly once,
    at the end of the run (lines 451-453): after everything the members
    did, and followed only by the predictions file, when
    [args.save_preds] is set and the test split is not empty, and by
    stopping Neptune, when it is used. The returned dictionary has an
    entry, the list of per-task scores, for exactly the metrics of
    [args.metrics]; the file holds its items, each once, ordered by
    key. *)
Theorem scores_file_written_once_sorted args data w scores w' :
  run_training args data w = (Ok scores, w') ->
  exists members before,
    fs w' !! scores_path args = Some (ScoresFile members)
    /\ members ≡ₚ scores
    /\ StronglySorted key_le members
    /\ (forall metric,
          is_Some (dict_get scores metric) <-> metric ∈ metrics args)
    /\ trace w'
       = trace w ++ before ++ [WriteScores (scores_path args)]
         ++ (if save_preds args
                && negb (bool_decide (length (split args data).2 = 0))
             then [WritePreds (preds_path args)] else [])
         ++ (if neptune_logging args then [NeptuneStop] else [])
    /\ Forall (fun e => scores_event e = false) before.
Proof.
  rewrite run_training_unfold.
  destruct (decide (length (split args data).1.2 = 0)) as [|_]; [done|].
  destruct (the_setup_fields args data) as (Hf1 & Hf2 & Hempty & _).
  cbv zeta in Hf1, Hf2, Hempty.
  set (s := the_setup args data) in *.
  destruct Hf1 as (Hn & _ & _ & Hdir & _).
  destruct Hf2 as (_ & _ & Hms & Hsp & _).
  assert (scores_path (s_args s) = scores_path args) as Hscores.
  { unfold scores_path. by rewrite Hdir. }
  assert (preds_path (s_args s) = preds_path args) as Hpreds.
  { unfold preds_path. by rewrite Hdir. }
  unfold bind.
  match goal with
  | |- context [members_loop s ?ms ?acc ?w0] =>
      pose proof (members_loop_quiet s ms acc w0) as (ex1 & Htr1 & Hex1);
        destruct (members_loop s ms acc w0) as [[acc'|e] w1]; [|done]
  end.
  cbn [snd] in Htr1. intros Hfin.
  apply finish_returns in Hfin as (ex2 & Hfile & Htr2 & Hex2 & Hres).
  rewrite Hscores, Hpreds, Hsp, Hempty, Hn in *.
  exists (json_dump_sort_keys scores).
  exists (prelude args
          ++ [SetCacheGraph
                (bool_decide (length data <= cache_cutoff (s_args s)))]
          ++ ex1 ++ ex2).
  split; [exact Hfile|].
  split; [apply merge_sort_Permutation|].
  split; [apply (StronglySorted_merge_sort _)|].
  split.
  { intros metric. rewrite Hres. unfold ensemble_scores, nan_scores,
      evaluate_predictions.
    destruct (s_empty_test_set s); rewrite dict_get_comprehension, Hms;
      destruct (decide (metric ∈ metrics args)); split; try done;
      by intros [? [=]]. }
  split.
  - rewrite Htr2, Htr1. unfold started. cbn [trace].
    by rewrite <- !app_assoc.
  - rewrite !Forall_app. repeat split; try done.
    + unfold prelude.
      destruct (neptune_logging args), (save_smiles_splits args);
        by repeat constructor.
    + by repeat constructor.
Qed.

Lemma dict_comprehension_nonempty {V} (f : string -> V) keys :
  keys <> [] -> dict_comprehension f keys <> [].
Proof.
  destruct keys as [|k keys]; [done|]. intros _ Hnil.
  pose proof (dict_get_comprehension f (k :: keys) k) as H.
  rewrite Hnil in H. cbn in H.
  destruct (decide (k ∈ k :: keys)) as [|Hn]; [done|].
  destruct Hn. by left.
Qed.

(** X9: lines 437-444 log [mean_val_score] to Neptune for every metric of
    the ensemble scores, and that variable is bound only in the epoch
    loop. So with Neptune logging on, zero epochs, an empty test split
    and at least one metric, the run raises the NameError of an unbound
    local after all members have been built and saved, and the scores
    file is not written. *)
Theorem neptune_logging_without_epochs_raises args data w :
  (split args data).1.2 <> [] ->
  (split args data).2 = [] ->
  checkpoint_paths args = None ->
  checkpoint_frzn args = None ->
  neptune_logging args = true ->
  epochs args = 0 ->
  metrics args <> [] ->
  exists w' extra,
    run_training args data w = (Raise (NameError "mean_val_score"), w')
    /\ trace w' = trace w ++ extra
    /\ Forall (fun e => scores_event e = false) extra.
Proof.
  intros Hval Htest Hcp Hfrzn Hlog Hep Hms.
  rewrite run_training_unfold.
  destruct (decide (length (split args data).1.2 = 0)) as [He|_].
  { by apply nil_length_inv in He. }
  destruct (the_setup_fields args data) as (Hf1 & Hf2 & Hempty & Hlen).
  cbv zeta in Hf1, Hf2, Hempty, Hlen.
  set (s := the_setup args data) in *.
  destruct Hf1 as (Hn & Hens & Hep' & Hdir & Hcp' & Hfrzn').
  destruct Hf2 as (_ & Hm & Hms' & Hsp & _).
  rewrite Htest, bool_decide_eq_true_2 in Hempty by done.
  unfold bind.
  destruct (members_loop_ok s (seq 0 (ensemble_size (s_args s)))
              (initial_sum s) None
              (started args data w
                 [SetCacheGraph
                    (bool_decide (length data <= cache_cutoff (s_args s)))]))
    as (models & mvs' & w1 & -> & Hlenm & (ex1 & Htr1 & Hex1) & Hzero & _).
  { congruence. }
  { congruence. }
  { right. congruence. }
  { by left. }
  rewrite Hzero by (left; congruence).
  unfold finish. cbv zeta. unfold bind at 1.
  rewrite log_final_scores_unbound.
  - eexists w1, _. split; [reflexivity|]. split.
    + rewrite Htr1. unfold started. cbn [trace].
      rewrite <- !app_assoc. reflexivity.
    + rewrite !Forall_app. repeat split; try done.
      * unfold prelude.
        destruct (neptune_logging args), (save_smiles_splits args);
          by repeat constructor.
      * by repeat constructor.
  - congruence.
  - rewrite Hempty. unfold nan_scores. apply dict_comprehension_nonempty.
    congruence.
Qed.

(** X10: a member of the ensemble with a freshly built model completes
    when the primary metric is among the evaluated ones, Neptune logging
    is off and the predictions have the shape of [sum_test_preds]. Its
    checkpoint file then bundles the model [m] that was loaded after the
    epoch loop, and what was added to [sum_test_preds] are the
    predictions of that model; with zero epochs it is the model as
    built, saved by line 296. *)
Theorem member_predicts_with_its_checkpoint
    s sum_test_preds mean_val_score model_idx w :
  checkpoint_paths (s_args s) = None ->
  checkpoint_frzn (s_args s) = None ->
  metric (s_args s) ∈ metrics (s_args s) \/ epochs (s_args s) = 0 ->
  neptune_logging (s_args s) = false ->
  (forall m, shape (predict m (s_test_data s) (s_scaler s))
             = shape sum_test_preds) ->
  exists m mvs' w',
    train_member s (sum_test_preds, mean_val_score) model_idx w
    = (Ok (if s_empty_test_set s then sum_test_preds
           else add_preds sum_test_preds
                  (predict m (s_test_data s) (s_scaler s)),
           mvs'), w')
    /\ fs w' !! checkpoint_path (s_args s) model_idx = Some (bundle s m)
    /\ (epochs (s_args s) = 0 ->
        m = (MoleculeModel (s_args s) (torch_rng w)).1).
Proof.
  intros Hcp Hfrzn Hmetric Hlog Hshape.
  destruct (train_member_ok s sum_test_preds mean_val_score model_idx w
              Hcp Hfrzn Hmetric)
    as (m & mvs' & w' & Hrun & Hfs & _ & Hzero & _).
  { right. split; [by left|done]. }
  exists m, mvs', w'. split; [exact Hrun|]. split.
  - rewrite Hfs. apply lookup_insert_eq.
  - intros H. by destruct (Hzero H).
Qed.

(** X11: with [args.checkpoint_paths] given but holding no path for a
    member's index (fewer paths than [args.ensemble_size]), line 279
    raises IndexError for that member, after its directory was made and
    before anything is saved. *)
Theorem missing_checkpoint_path_raises s acc model_idx paths w :
  checkpoint_paths (s_args s) = Some paths ->
  length paths <= model_idx ->
  train_member s acc model_idx w
  = (Raise IndexError,
     logged w [Makedirs (member_dir (s_args s) model_idx)]).
Proof.
  intros Hcp Hlen. unfold train_member. destruct acc as [sum mvs].
  cbv zeta. unfold bind at 1. unfold emit at 1.
  unfold bind at 1. unfold initial_model. rewrite Hcp.
  rewrite (lookup_ge_None_2 paths model_idx) by done.
  unfold bind at 1. by unfold lift.
Qed.

Lemma foldl_add_preds sh d preds :
  Forall (fun p => len p <> 0) preds ->
  foldl add_preds {| shape := sh; data := d |} preds
  = {| shape := sh;
       data := foldl (zip_with PrimFloat.add) d (data <$> preds) |}.
Proof.
  intros H. revert d. induction H as [|p preds Hp _ IH]; intros d; [done|].
  cbn [foldl fmap list_fmap]. rewrite <- IH. f_equal.
  unfold add_preds. by destruct (decide (len p = 0)).
Qed.

(** X12: with a test split that is not empty, the scores a completed run
    returns are those of [evaluate_predictions] on one array of
    predictions: entry by entry, the sum of the members' test predictions
    (added one member after the other to zeros) divided by
    [args.ensemble_size] (lines 223-227, 393-394, 423-435). There is one
    summand per member; the members' own test scores do not enter. *)
Theorem ensemble_scores_are_of_mean_prediction args dataset w :
  (split args dataset).1.2 <> [] ->
  (split args dataset).2 <> [] ->
  checkpoint_paths args = None ->
  checkpoint_frzn args = None ->
  metric args ∈ metrics args \/ epochs args = 0 ->
  neptune_logging args = false \/ (0 < epochs args /\ 0 < ensemble_size args) ->
  save_preds args = false ->
  dataset_type args <> "multiclass" ->
  (forall m d sc, shape (predict m d sc) = [length d; num_tasks args]) ->
  exists models w',
    length models = ensemble_size args
    /\ run_training args dataset w
       = (Ok (evaluate_predictions
                {| shape := [length (s_test_data (the_setup args dataset));
                             num_tasks args];
                   data :=
                     (fun x => PrimFloat.div x
                                 (float_of_nat (ensemble_size args)))
                     <$> foldl (zip_with PrimFloat.add)
                           (data (np_zeros
                                    [length (s_test_data (the_setup args dataset));
                                     num_tasks args]))
                           (data <$> predictions (the_setup args dataset) models) |}
                (s_test_data (the_setup args dataset)) (num_tasks args)
                (metrics args) (dataset_type args)), w').
Proof.
  intros Hval Htest Hcp Hfrzn Hmetric Hlog Hsp Hdt Hshape.
  destruct (the_setup_fields args dataset) as (Hf1 & Hf2 & Hempty & Hlen).
  cbv zeta in Hf1, Hf2, Hempty, Hlen.
  destruct Hf1 as (_ & Hens & _).
  destruct Hf2 as (_ & _ & Hms & _ & _ & Hnt & Hdt').
  assert (length (split args dataset).2 <> 0) as Hne.
  { intros H. by apply nil_length_inv in H. }
  assert (initial_sum (the_setup args dataset)
          = np_zeros [length (s_test_data (the_setup args dataset));
                      num_tasks args]) as Hinit.
  { unfold initial_sum. rewrite Hdt', Hnt.
    by destruct (decide (dataset_type args = "multiclass")). }
  destruct (run_training_completes args dataset w Hval Hcp Hfrzn Hmetric Hlog)
    as (models & w' & extra & Hrun & Hlenm & _).
  { right. split; [done|]. intros m. by rewrite Hshape, Hinit. }
  exists models, w'. split; [done|]. rewrite Hrun. do 2 f_equal.
  unfold ensemble_scores, summed.
  rewrite Hempty, bool_decide_eq_false_2 by done.
  rewrite Hens, Hnt, Hms, Hdt'. f_equal.
  rewrite Hinit. unfold np_zeros at 1. rewrite foldl_add_preds.
  - done.
  - unfold predictions. apply Forall_fmap, Forall_forall. intros m _.
    unfold compose, len. rewrite Hshape. cbn [hd]. by rewrite Hlen.
Qed.

(** *** Which epoch the checkpoint is of *)

Lemma SFcompare_Lt_trans x y z :
  SFcompare x y = Some Lt -> SFcompare y z = Some Lt ->
  SFcompare x z = Some Lt.
Proof.
  destruct x as [s1|s1| |s1 m1 e1], y as [s2|s2| |s2 m2 e2],
           z as [s3|s3| |s3 m3 e3]; cbn;
    try destruct s1; try destruct s2; try destruct s3; cbn; try done.
  all: change (Pos.compare_cont Eq) with Pos.compare.
  all: repeat match goal with
       | |- context [Z.compare ?a ?b] => destruct (Z.compare_spec a b); subst
       | |- context [Pos.compare ?a ?b] =>
           destruct (Pos.compare_spec a b); subst
       end; cbn; try done; try lia.
Qed.

Lemma float_ltb_trans x y z :
  PrimFloat.ltb x y = true -> PrimFloat.ltb y z = true ->
  PrimFloat.ltb x z = true.
Proof.
  rewrite !FloatAxioms.ltb_spec. unfold SFltb.
  destruct (SFcompare (Prim2SF x) (Prim2SF y)) as [[]|] eqn:H1; try done.
  destruct (SFcompare (Prim2SF y) (Prim2SF z)) as [[]|] eqn:H2; try done.
  by rewrite (SFcompare_Lt_trans _ _ _ H1 H2).
Qed.

Lemma float_ltb_irrefl x : PrimFloat.ltb x x = false.
Proof.
  rewrite FloatAxioms.ltb_spec. unfold SFltb.
  destruct (Prim2SF x) as [s|s| |s m e] eqn:Hx; [| |done|];
    by rewrite SFcompare_refl.
Qed.

Lemma improved_trans args a b c :
  improved args a b = true -> improved args b c = true ->
  improved args a c = true.
Proof.
  unfold improved. destruct (minimize_score args); cbn;
    rewrite ?orb_false_r; intros H1 H2.
  - by apply float_ltb_trans with b.
  - by apply float_ltb_trans with b.
Qed.

Lemma improved_irrefl args a : improved args a a = false.
Proof.
  unfold improved. rewrite float_ltb_irrefl. by destruct (minimize_score args).
Qed.

(** The models after each of the epochs still to run. *)
Fixpoint trained_models (s : setup) (model_idx : nat) (epochs : list nat)
    (m : model) (o : optimizer) (sch : scheduler) (n_iter : nat) (r : rng)
    : list model :=
  match epochs with
  | [] => []
  | _ :: rest =>
      let '(m', o', sch', n_iter', r') :=
        train m (s_train_data s) o sch (s_args s) n_iter model_idx r in
      m' :: trained_models s model_idx rest m' o'
              (if is_ExponentialLR sch' then scheduler_step sch' else sch')
              n_iter' r'
  end.

Lemma run_epoch_ok s model_idx st epoch w :
  metric (s_args s) ∈ metrics (s_args s) ->
  exists st' w',
    run_epoch s model_idx st epoch w = (Ok st', w')
    /\ (ls_model st', ls_optimizer st', ls_n_iter st', torch_rng w')
       = (let '(m, o, _, n, r) :=
            train (ls_model st) (s_train_data s) (ls_optimizer st)
              (ls_scheduler st) (s_args s) (ls_n_iter st) model_idx
              (torch_rng w) in (m, o, n, r))
    /\ ls_scheduler st'
       = (let sch :=
            (train (ls_model st) (s_train_data s) (ls_optimizer st)
               (ls_scheduler st) (s_args s) (ls_n_iter st) model_idx
               (torch_rng w)).1.1.2 in
          if is_ExponentialLR sch then scheduler_step sch else sch)
    /\ (if improved (s_args s) (primary_score s (ls_model st'))
             (ls_best_score st)
        then ls_best_score st' = primary_score s (ls_model st')
             /\ fs w' = <[checkpoint_path (s_args s) model_idx
                          := bundle s (ls_model st')]> (fs w)
        else ls_best_score st' = ls_best_score st /\ fs w' = fs w).
Proof.
  intros Hin. unfold run_epoch. cbv zeta.
  unfold bind at 1. rewrite when_emit_ok.
  unfold bind at 1. unfold run_train. cbn [logged torch_rng fs trace].
  destruct (train _ _ _ _ _ _ _ _) as [[[[m o] sch] n] r]. cbn [fst snd].
  unfold bind at 1. unfold emit at 1. cbn [fs trace torch_rng].
  unfold bind at 1.
  match goal with
  | |- context [log_val_scores ?a ?i ?items ?mvs ?w0] =>
      destruct (log_val_scores_ok a i items mvs w0) as (o' & extra & -> & _)
  end.
  unfold bind at 1, lift, dict_index, evaluate.
  rewrite dict_get_comprehension.
  destruct (decide (metric (s_args s) ∈ metrics (s_args s))); [|done].
  fold (primary_score s m).
  destruct (improved (s_args s) (primary_score s m) (ls_best_score st))
    eqn:Himp.
  - unfold bind, save_member, save_checkpoint, write_file, ret.
    cbn [logged fs trace torch_rng]. eexists _, _.
    split; [reflexivity|]. cbn. by rewrite Himp.
  - unfold ret. eexists _, _. split; [reflexivity|]. cbn. by rewrite Himp.
Qed.

(** X4: in an epoch entered with the best score still at its initial
    value of line 306 (plus infinity when minimising, minus infinity
    otherwise), with the primary metric among the evaluated ones, a
    finite validation score of the model just trained improves on it:
    the epoch completes, overwrites the member's checkpoint with that
    model, and its score becomes the best score. *)
Theorem first_finite_score_is_saved s model_idx st epoch w :
  metric (s_args s) ∈ metrics (s_args s) ->
  ls_best_score st
  = (if minimize_score (s_args s) then infinity else neg_infinity) ->
  is_finite
    (primary_score s
       (train (ls_model st) (s_train_data s) (ls_optimizer st)
          (ls_scheduler st) (s_args s) (ls_n_iter st) model_idx
          (torch_rng w)).1.1.1.1) = true ->
  exists st' w',
    run_epoch s model_idx st epoch w = (Ok st', w')
    /\ ls_model st'
       = (train (ls_model st) (s_train_data s) (ls_optimizer st)
            (ls_scheduler st) (s_args s) (ls_n_iter st) model_idx
            (torch_rng w)).1.1.1.1
    /\ ls_best_score st' = primary_score s (ls_model st')
    /\ fs w' = <[checkpoint_path (s_args s) model_idx
                 := bundle s (ls_model st')]> (fs w).
Proof.
  intros Hin Hbest Hfin.
  destruct (run_epoch_ok s model_idx st epoch w Hin)
    as (st' & w' & Hrun & Hst & _ & Hcase).
  assert (ls_model st'
          = (train (ls_model st) (s_train_data s) (ls_optimizer st)
               (ls_scheduler st) (s_args s) (ls_n_iter st) model_idx
               (torch_rng w)).1.1.1.1) as Hm.
  { destruct (train _ _ _ _ _ _ _ _) as [[[[m o] sch] n] r].
    by injection Hst. }
  rewrite <- Hm in Hfin. rewrite Hbest in Hcase.
  rewrite (finite_improves_on_initial _ _ Hfin) in Hcase.
  destruct Hcase as [Hb Hfs]. by exists st', w'.
Qed.

(** X13: the epoch loop of a member, with the primary metric among the
    evaluated ones, completes. Afterwards either no epoch improved on the
    initial best score and no file changed, or the member's checkpoint
    bundles the model of one of the epochs, whose validation score is
    the final best score and improves on the initial one. In either case
    no epoch's model has a validation score that improves on the final
    best score: the checkpoint loaded after the loop is of an epoch that
    no other epoch beats. *)
Theorem checkpoint_is_of_an_unbeaten_epoch s model_idx epochs st w :
  metric (s_args s) ∈ metrics (s_args s) ->
  exists st' w',
    epochs_loop s model_idx epochs st w = (Ok st', w')
    /\ Forall (fun m => improved (s_args s) (primary_score s m)
                          (ls_best_score st') = false)
         (trained_models s model_idx epochs (ls_model st) (ls_optimizer st)
            (ls_scheduler st) (ls_n_iter st) (torch_rng w))
    /\ (ls_best_score st' = ls_best_score st /\ fs w' = fs w
        \/ exists m,
             m ∈ trained_models s model_idx epochs (ls_model st)
                   (ls_optimizer st) (ls_scheduler st) (ls_n_iter st)
                   (torch_rng w)
             /\ ls_best_score st' = primary_score s m
             /\ improved (s_args s) (primary_score s m) (ls_best_score st)
                = true
             /\ fs w' = <[checkpoint_path (s_args s) model_idx
                          := bundle s m]> (fs w)).
Proof.
  intros Hin. revert st w.
  induction epochs as [|epoch epochs IH]; intros st w.
  { exists st, w. cbn. split; [done|]. split; [constructor|by left]. }
  cbn [epochs_loop trained_models]. unfold bind.
  destruct (run_epoch_ok s model_idx st epoch w Hin)
    as (st1 & w1 & -> & Heq & Hsch & Himp).
  destruct (train _ _ _ _ _ _ _ _) as [[[[m o] sch] n] r].
  cbn [fst snd] in Heq, Hsch. injection Heq as Hm Ho Hn Hr.
  destruct (IH st1 w1) as (st' & w' & -> & Hall & Hcase).
  rewrite Hm, Ho, Hsch, Hn, Hr in Hall, Hcase. rewrite Hm in Himp.
  set (rest := trained_models s model_idx epochs m o _ n r) in *.
  exists st', w'. split; [done|].
  set (v := primary_score s m) in *.
  assert (improved (s_args s) v (ls_best_score st1) = false) as Hhead.
  { destruct (improved (s_args s) v (ls_best_score st)) eqn:Hv.
    - destruct Himp as [-> _]. apply improved_irrefl.
    - destruct Himp as [-> _]. exact Hv. }
  split.
  - constructor; [|exact Hall].
    destruct Hcase as [[-> _]|(m' & _ & -> & Hbetter & _)]; [exact Hhead|].
    destruct (improved (s_args s) v (primary_score s m')) eqn:Hc; [|done].
    by rewrite (improved_trans _ _ _ _ Hc Hbetter) in Hhead.
  - destruct (improved (s_args s) v (ls_best_score st)) eqn:Hv.
    + destruct Himp as [Hb1 Hfs1]. right.
      destruct Hcase as [[-> ->]|(m' & Hin' & -> & Hbetter & ->)].
      * exists m. split; [by left|]. by rewrite Hb1, Hfs1.
      * exists m'. split; [by right|]. split; [done|].
        rewrite Hb1 in Hbetter. split.
        -- by apply improved_trans with v.
        -- by rewrite Hfs1, insert_insert_eq.
    + destruct Himp as [Hb1 Hfs1].
      destruct Hcase as [[-> ->]|(m' & Hin' & -> & Hbetter & ->)].
      * left. done.
      * right. exists m'. split; [by right|]. split; [done|].
        rewrite Hb1 in Hbetter. by rewrite Hfs1.
Qed.

(** *** The predictions file (lines 455-462) *)

(** A name set again later in the loop is overwritten: the column a
    name ends up with is the one of its last position. *)
Lemma preds_columns_ok avg_test_preds n t i names columns :
  shape avg_test_preds = [n; t] -> n <> 0 ->
  i + length names <= t ->
  exists columns',
    preds_columns avg_test_preds i names columns = Ok columns'
    /\ (forall k name, names !! k = Some name ->
          name ∉ drop (S k) names ->
          exists c, column avg_test_preds (i + k) = Ok c
                    /\ length c = n
                    /\ dict_get columns' name = Some (FloatSeries c))
    /\ (forall name, name ∉ names ->
          dict_get columns' name = dict_get columns name).
Proof.
  intros Hsh Hn. revert i columns.
  induction names as [|a names IH]; intros i columns Hle.
  - exists columns. cbn. split; [done|]. split; [|done].
    intros k name Hk. by rewrite lookup_nil in Hk.
  - cbn [preds_columns]. cbn [length] in Hle.
    assert (exists c, column avg_test_preds i = Ok c /\ length c = n)
      as (c & Hc & Hlc).
    { unfold column. rewrite Hsh.
      destruct (decide (n = 0)); [done|].
      destruct (decide (i < t)); [|lia].
      eexists. split; [reflexivity|]. by rewrite length_fmap, length_seq. }
    rewrite Hc.
    destruct (IH (S i) (dict_set columns a (FloatSeries c)))
      as (cols & -> & Hget & Hother); [lia|].
    exists cols. split; [done|]. split.
    + intros [|k] name Hk Hlast; cbn in Hk, Hlast.
      * injection Hk as <-. exists c. rewrite Nat.add_0_r.
        split; [done|]. split; [done|].
        rewrite (Hother a Hlast), dict_get_set.
        by destruct (decide (a = a)).
      * destruct (Hget k name Hk Hlast) as (c' & Hc' & Hl' & Hg').
        exists c'. by replace (i + S k) with (S i + k) by lia.
    + intros name Hname. apply not_elem_of_cons in Hname as [Hne Hname].
      rewrite (Hother name Hname), dict_get_set.
      by destruct (decide (a = name)).
Qed.

Lemma summed_shape s models :
  shape (summed s models) = shape (initial_sum s).
Proof.
  unfold summed. destruct (s_empty_test_set s); [done|].
  generalize (initial_sum s). unfold predictions.
  induction models as [|m models IH]; intros a; cbn; [done|].
  by rewrite IH, add_preds_shape.
Qed.

Lemma run_training_to_finish args dataset w :
  (split args dataset).1.2 <> [] ->
  checkpoint_paths args = None ->
  checkpoint_frzn args = None ->
  metric args ∈ metrics args \/ epochs args = 0 ->
  neptune_logging args = false \/ (0 < epochs args /\ 0 < ensemble_size args) ->
  (split args dataset).2 = []
  \/ (forall m, shape (predict m (s_test_data (the_setup args dataset))
                         (s_scaler (the_setup args dataset)))
                = shape (initial_sum (the_setup args dataset))) ->
  exists models mvs' w1,
    run_training args dataset w
    = finish (the_setup args dataset)
        (summed (the_setup args dataset) models, mvs') w1
    /\ length models = ensemble_size args
    /\ (neptune_logging (s_args (the_setup args dataset)) = false
        \/ is_Some mvs')
    /\ exists before, trace w1 = trace w ++ before
                       /\ Forall (fun e => scores_event e = false) before.
Proof.
  intros Hval Hcp Hfrzn Hmetric Hlog Htest.
  rewrite run_training_unfold.
  destruct (decide (length (split args dataset).1.2 = 0)) as [He|_].
  { by apply nil_length_inv in He. }
  destruct (the_setup_fields args dataset) as (Hf1 & Hf2 & Hempty & Hlen).
  cbv zeta in Hf1, Hf2, Hempty, Hlen.
  set (s := the_setup args dataset) in *.
  destruct Hf1 as (Hn & Hens & Hep & Hdir & Hcp' & Hfrzn').
  destruct Hf2 as (_ & Hm & Hms & Hsp & _).
  unfold bind.
  destruct (members_loop_ok s (seq 0 (ensemble_size (s_args s)))
              (initial_sum s) None
              (started args dataset w
                 [SetCacheGraph
                    (bool_decide (length dataset <= cache_cutoff (s_args s)))]))
    as (models & mvs' & w1 & -> & Hlenm & (ex1 & Htr1 & Hex1) & _ & Hpos).
  { congruence. }
  { congruence. }
  { rewrite Hm, Hms, Hep. done. }
  { destruct Htest as [Ht|Hsh].
    - left. by rewrite Hempty, Ht.
    - right. split; [|done].
      rewrite Hn, Hep. destruct Hlog as [|[? _]]; [by left|by right; left]. }
  fold (summed s models).
  exists models, mvs', w1. split; [done|].
  split; [by rewrite Hlenm, length_seq|]. split.
  - rewrite Hn. destruct Hlog as [|[? ?]]; [by left|right].
    apply Hpos; [by rewrite Hep|].
    rewrite Hens. by destruct (ensemble_size args); [lia|].
  - eexists. rewrite Htr1. unfold started. cbn [trace].
    rewrite <- !app_assoc. split; [reflexivity|].
    rewrite !Forall_app. repeat split; try done.
    + unfold prelude.
      destruct (neptune_logging args), (save_smiles_splits args);
        by repeat constructor.
    + by repeat constructor.
Qed.

(** X17: with [args.save_preds], a test split that is not empty and no
    more task names than predicted columns, a run that completes writes
    the predictions file after the scores file. The file is one data
    frame whose columns are set by name: under a task name it holds
    column i of the averaged predictions, one entry per test datapoint,
    for the last position i of that name among the task names; under
    "smiles" it holds the SMILES of the test datapoints unless a task is
    named "smiles", whose predictions then replace them. *)
Theorem predictions_file_has_a_column_per_task args dataset w :
  (split args dataset).1.2 <> [] ->
  (split args dataset).2 <> [] ->
  checkpoint_paths args = None ->
  checkpoint_frzn args = None ->
  metric args ∈ metrics args \/ epochs args = 0 ->
  neptune_logging args = false \/ (0 < epochs args /\ 0 < ensemble_size args) ->
  save_preds args = true ->
  dataset_type args <> "multiclass" ->
  (forall m d sc, shape (predict m d sc) = [length d; num_tasks args]) ->
  length (task_names args) <= num_tasks args ->
  exists models scores frame w',
    run_training args dataset w = (Ok scores, w')
    /\ length models = ensemble_size args
    /\ fs w' !! preds_path args = Some (PredsFile frame)
    /\ (forall i name, task_names args !! i = Some name ->
          name ∉ drop (S i) (task_names args) ->
          exists c,
            column (true_divide (summed (the_setup args dataset) models)
                      (ensemble_size args)) i = Ok c
            /\ length c = length (s_test_data (the_setup args dataset))
            /\ dict_get frame name = Some (FloatSeries c))
    /\ ("smiles" ∉ task_names args ->
          dict_get frame "smiles"
          = Some (SmilesSeries
                    (smiles <$> s_test_data (the_setup args dataset))))
    /\ exists before,
         trace w' = trace w ++ before
                    ++ [WriteScores (scores_path args);
                        WritePreds (preds_path args)]
                    ++ (if neptune_logging args then [NeptuneStop] else [])
         /\ Forall (fun e => scores_event e = false) before.
Proof.
  intros Hval Htest Hcp Hfrzn Hmetric Hlog Hsp Hdt Hshape Hle.
  destruct (the_setup_fields args dataset) as (Hf1 & Hf2 & Hempty & Hlen).
  cbv zeta in Hf1, Hf2, Hempty, Hlen.
  destruct Hf1 as (Hn & Hens & _ & Hdir & _).
  destruct Hf2 as (_ & _ & _ & Hsp' & Htn & Hnt & Hdt').
  assert (length (split args dataset).2 <> 0) as Hne.
  { intros H. by apply nil_length_inv in H. }
  assert (initial_sum (the_setup args dataset)
          = np_zeros [length (s_test_data (the_setup args dataset));
                      num_tasks args]) as Hinit.
  { unfold initial_sum. rewrite Hdt', Hnt.
    by destruct (decide (dataset_type args = "multiclass")). }
  destruct (run_training_to_finish args dataset w Hval Hcp Hfrzn Hmetric Hlog)
    as (models & mvs' & w1 & -> & Hlenm & Hmvs & (before & Htr & Hbefore)).
  { right. intros m. by rewrite Hshape, Hinit. }
  set (s := the_setup args dataset) in *.
  unfold finish. cbv zeta. fold (ensemble_scores s (summed s models)).
  unfold bind at 1.
  destruct (log_final_scores_ok (s_args s) (ensemble_scores s (summed s models))
              mvs' w1 Hmvs) as (extra & -> & Hex).
  unfold bind at 1. unfold write_file at 1. cbn [logged fs trace torch_rng].
  rewrite Hsp', Hsp, Hempty, bool_decide_eq_false_2 by done. cbn [negb andb].
  destruct (preds_columns_ok
              (true_divide (summed s models) (ensemble_size (s_args s)))
              (length (s_test_data s)) (num_tasks args) 0
              (task_names (s_args s))
              [("smiles", SmilesSeries (smiles <$> s_test_data s))])
    as (columns & Hcols & Hget & Hother).
  { cbn [true_divide shape]. by rewrite summed_shape, Hinit. }
  { by rewrite Hlen. }
  { rewrite Htn. cbn. lia. }
  unfold bind at 1. unfold bind at 1. unfold lift at 1. rewrite Hcols.
  unfold write_file at 1. cbn [fs trace torch_rng].
  unfold bind, when, ret, emit.
  assert (path_join (save_dir (s_args s)) "test_preds.csv" = preds_path args)
    as ->.
  { unfold preds_path. by rewrite Hdir. }
  assert (scores_path (s_args s) = scores_path args) as ->.
  { unfold scores_path. by rewrite Hdir. }
  rewrite Hn, Hens in *. rewrite Htn in Hget, Hother.
  exists models, (ensemble_scores s (summed s models)), columns.
  destruct (neptune_logging args); cbn [fs trace torch_rng].
  all: eexists; split; [reflexivity|]; split; [done|];
    split; [cbn [fs]; apply lookup_insert_eq|]; split; [exact Hget|];
    split; [intros Hsm; by rewrite (Hother _ Hsm)|].
  all: exists (before ++ extra); rewrite Htr, <- !app_assoc;
    (split; [reflexivity|]); apply Forall_app; (split; [done|]);
    (eapply Forall_impl; [exact Hex|]); apply neptune_log_no_scores.
Qed.

(** X18: a member started from one of [args.checkpoint_paths] loads
    that checkpoint and, before the epoch loop, saves the model loading
    gave to the member's own checkpoint file, bundled with the scalers
    and the arguments of this run, whatever the checkpoint it came from
    held. With zero epochs and an empty test split the member then only
    reloads its own checkpoint: the sum of test predictions and the
    validation score are handed on as they were. *)
Theorem warm_start_rebundles_loaded_model
    s sum_test_preds mean_val_score model_idx paths path c w :
  checkpoint_paths (s_args s) = Some paths ->
  paths !! model_idx = Some path ->
  fs w !! path = Some (CheckpointFile c) ->
  checkpoint_frzn (s_args s) = None ->
  epochs (s_args s) = 0 ->
  s_empty_test_set s = true ->
  exists w',
    train_member s (sum_test_preds, mean_val_score) model_idx w
    = (Ok (sum_test_preds, mean_val_score), w')
    /\ fs w' = <[checkpoint_path (s_args s) model_idx
                 := bundle s (ck_model c)]> (fs w)
    /\ trace w'
       = trace w
         ++ [Makedirs (member_dir (s_args s) model_idx);
             LoadCheckpoint path;
             SaveCheckpoint (checkpoint_path (s_args s) model_idx);
             LoadCheckpoint (checkpoint_path (s_args s) model_idx)].
Proof.
  intros Hcp Hpath Hfile Hfrzn Hep Hempty.
  unfold train_member. cbv zeta.
  unfold bind at 1. unfold emit at 1.
  unfold bind at 1. unfold initial_model. rewrite Hcp, Hpath, Hfrzn.
  unfold bind at 1.
  rewrite (load_checkpoint_file path c) by done.
  unfold ret at 1.
  unfold bind at 1. unfold save_member at 1, save_checkpoint, write_file.
  cbn [loaded fs trace torch_rng]. fold (bundle s (ck_model c)).
  rewrite Hep. cbn [seq epochs_loop]. unfold bind at 1. unfold ret at 1.
  unfold bind at 1.
  match goal with
  | |- context [load_checkpoint ?p ?w0] =>
      destruct (load_checkpoint_ok s p (ck_model c) w0) as [c0 ->];
        [cbn; apply lookup_insert_eq|]
  end.
  unfold test_member. rewrite Hempty. unfold ret.
  eexists. split; [reflexivity|].
  cbn [loaded fs trace torch_rng]. by rewrite <- !app_assoc.
Qed.

(** *** A member from its first checkpoint to its test predictions *)

(** The variables of the epoch loop as lines 299-306 set them. *)
Definition first_state (s : setup) (model : model)
    (mean_val_score : option float) : loop_state :=
  {| ls_model := model;
     ls_optimizer := build_optimizer model (s_args s);
     ls_scheduler :=
       build_lr_scheduler (build_optimizer model (s_args s)) (s_args s);
     ls_n_iter := 0;
     ls_best_score :=
       if minimize_score (s_args s) then infinity else neg_infinity;
     ls_best_epoch := 0;
     ls_mean_val_score := mean_val_score |}.

(** The world after line 296 has saved the member's first checkpoint. *)
Definition saved (s : setup) (model_idx : nat) (m : model) (w : world)
    : world :=
  {| fs := <[checkpoint_path (s_args s) model_idx := bundle s m]> (fs w);
     trace := trace w ++ [SaveCheckpoint (checkpoint_path (s_args s) model_idx)];
     torch_rng := torch_rng w |}.

(** Once the member has its model, it saves it, runs the epoch loop,
    loads its checkpoint and predicts. *)
Lemma train_member_after_model s sum_test_preds mean_val_score model_idx w m w1 :
  initial_model (s_args s) model_idx
    (logged w [Makedirs (member_dir (s_args s) model_idx)]) = (Ok m, w1) ->
  train_member s (sum_test_preds, mean_val_score) model_idx w
  = bind (epochs_loop s model_idx (seq 0 (epochs (s_args s)))
            (first_state s m mean_val_score))
      (fun st =>
         bind (load_checkpoint (checkpoint_path (s_args s) model_idx))
           (fun model =>
              test_member s sum_test_preds (ls_mean_val_score st) model_idx
                model))
      (saved s model_idx m w1).
Proof.
  intros Hm. unfold train_member. cbv zeta.
  unfold bind at 1. unfold emit at 1.
  fold (logged w [Makedirs (member_dir (s_args s) model_idx)]).
  unfold bind at 1. rewrite Hm.
  unfold bind at 1. unfold save_member at 1, save_checkpoint, write_file.
  reflexivity.
Qed.

Lemma checkpoint_survives_loop s model_idx epochs st w m :
  fs w !! checkpoint_path (s_args s) model_idx = Some (bundle s m) ->
  exists m',
    fs (epochs_loop s model_idx epochs st w).2
      !! checkpoint_path (s_args s) model_idx = Some (bundle s m').
Proof.
  intros Hfile.
  destruct (epochs_loop_effects s model_idx epochs st w) as [[Hfs _] _].
  destruct Hfs as [->|[m' ->]]; [by exists m|].
  exists m'. apply lookup_insert_eq.
Qed.

(** After the loop the member's checkpoint is there, and its model is
    the one that predicts. *)
Lemma train_member_reloads s sum_test_preds mean_val_score model_idx w m w1
    st w4 :
  initial_model (s_args s) model_idx
    (logged w [Makedirs (member_dir (s_args s) model_idx)]) = (Ok m, w1) ->
  epochs_loop s model_idx (seq 0 (epochs (s_args s)))
    (first_state s m mean_val_score) (saved s model_idx m w1) = (Ok st, w4) ->
  exists m' c,
    fs w4 !! checkpoint_path (s_args s) model_idx = Some (bundle s m')
    /\ load_checkpoint (checkpoint_path (s_args s) model_idx) w4
       = (Ok m', loaded w4 (checkpoint_path (s_args s) model_idx) c)
    /\ train_member s (sum_test_preds, mean_val_score) model_idx w
       = test_member s sum_test_preds (ls_mean_val_score st) model_idx m'
           (loaded w4 (checkpoint_path (s_args s) model_idx) c).
Proof.
  intros Hm Hloop.
  destruct (checkpoint_survives_loop s model_idx (seq 0 (epochs (s_args s)))
              (first_state s m mean_val_score) (saved s model_idx m w1) m)
    as [m' Hfile].
  { cbn. apply lookup_insert_eq. }
  rewrite Hloop in Hfile. cbn [snd] in Hfile.
  destruct (load_checkpoint_ok s _ m' w4 Hfile) as [c Hload].
  exists m', c. split; [exact Hfile|]. split; [exact Hload|].
  rewrite (train_member_after_model _ _ _ _ _ _ _ Hm).
  unfold bind at 1. rewrite Hloop. unfold bind. by rewrite Hload.
Qed.

(** C10: every member of the ensemble, once it has its model (built or
    loaded), saves to its own directory a checkpoint bundling the model,
    the target scaler, the features scaler, the atom-descriptor scaler,
    the bond-feature scaler and the arguments, and only then starts the
    epoch loop (line 296 before line 308). The loop leaves a checkpoint
    at that place whatever it does, so whenever the loop returns, the
    load after it finds a checkpoint and gives the model the member then
    predicts with; with zero epochs that is the model saved before the
    loop. *)
Theorem first_checkpoint_precedes_epoch_loop
    s sum_test_preds mean_val_score model_idx w m w1 :
  initial_model (s_args s) model_idx
    (logged w [Makedirs (member_dir (s_args s) model_idx)]) = (Ok m, w1) ->
  save_member s model_idx m w1 = (Ok tt, saved s model_idx m w1)
  /\ fs (saved s model_idx m w1)
       !! path_join (member_dir (s_args s) model_idx) MODEL_FILE_NAME
     = Some (CheckpointFile
               {| ck_model := m; ck_scaler := s_scaler s;
                  ck_features_scaler := s_features_scaler s;
                  ck_atom_descriptor_scaler := s_atom_descriptor_scaler s;
                  ck_bond_feature_scaler := s_bond_feature_scaler s;
                  ck_args := s_args s |})
  /\ train_member s (sum_test_preds, mean_val_score) model_idx w
     = bind (epochs_loop s model_idx (seq 0 (epochs (s_args s)))
               (first_state s m mean_val_score))
         (fun st =>
            bind (load_checkpoint (checkpoint_path (s_args s) model_idx))
              (fun model =>
                 test_member s sum_test_preds (ls_mean_val_score st)
                   model_idx model))
         (saved s model_idx m w1)
  /\ (forall st w4,
        epochs_loop s model_idx (seq 0 (epochs (s_args s)))
          (first_state s m mean_val_score) (saved s model_idx m w1)
        = (Ok st, w4) ->
        exists m' c,
          fs w4 !! checkpoint_path (s_args s) model_idx
          = Some (bundle s m')
          /\ load_checkpoint (checkpoint_path (s_args s) model_idx) w4
             = (Ok m', loaded w4 (checkpoint_path (s_args s) model_idx) c)
          /\ train_member s (sum_test_preds, mean_val_score) model_idx w
             = test_member s sum_test_preds (ls_mean_val_score st)
                 model_idx m'
                 (loaded w4 (checkpoint_path (s_args s) model_idx) c))
  /\ (epochs (s_args s) = 0 ->
      exists c,
        train_member s (sum_test_preds, mean_val_score) model_idx w
        = test_member s sum_test_preds mean_val_score model_idx m
            (loaded (saved s model_idx m w1)
               (checkpoint_path (s_args s) model_idx) c)).
Proof.
  intros Hm. split; [done|].
  split; [cbn; apply lookup_insert_eq|].
  split; [by apply train_member_after_model|].
  split; [intros st w4; by apply train_member_reloads|].
  intros Hep.
  destruct (train_member_reloads s sum_test_preds mean_val_score model_idx
              w m w1 (first_state s m mean_val_score)
              (saved s model_idx m w1) Hm) as (m' & c & Hfile & _ & Hrun).
  { by rewrite Hep. }
  cbn in Hfile. rewrite lookup_insert_eq in Hfile.
  injection Hfile as <-. by exists c.
Qed.

(** *** Checkpoints and the best score *)

Definition is_save (e : event) : bool :=
  match e with
  | SaveCheckpoint _ => true
  | _ => false
  end.

(** Everything an epoch with a known primary metric does. *)
Lemma run_epoch_full s model_idx st epoch w :
  metric (s_args s) ∈ metrics (s_args s) ->
  exists st' w' before,
    run_epoch s model_idx st epoch w = (Ok st', w')
    /\ (ls_model st', ls_optimizer st', ls_n_iter st', torch_rng w')
       = (let '(m, o, _, n, r) :=
            train (ls_model st) (s_train_data s) (ls_optimizer st)
              (ls_scheduler st) (s_args s) (ls_n_iter st) model_idx
              (torch_rng w) in (m, o, n, r))
    /\ ls_scheduler st'
       = (let sch :=
            (train (ls_model st) (s_train_data s) (ls_optimizer st)
               (ls_scheduler st) (s_args s) (ls_n_iter st) model_idx
               (torch_rng w)).1.1.2 in
          if is_ExponentialLR sch then scheduler_step sch else sch)
    /\ Forall (fun e => is_save e = false) before
    /\ (if improved (s_args s) (primary_score s (ls_model st'))
             (ls_best_score st)
        then ls_best_score st' = primary_score s (ls_model st')
             /\ ls_best_epoch st' = epoch
             /\ fs w' = <[checkpoint_path (s_args s) model_idx
                          := bundle s (ls_model st')]> (fs w)
             /\ trace w'
                = trace w ++ before
                  ++ [SaveCheckpoint (checkpoint_path (s_args s) model_idx)]
        else ls_best_score st' = ls_best_score st
             /\ ls_best_epoch st' = ls_best_epoch st
             /\ fs w' = fs w
             /\ trace w' = trace w ++ before).
Proof.
  intros Hin. unfold run_epoch. cbv zeta.
  unfold bind at 1. rewrite when_emit_ok.
  set (lr := if neptune_logging (s_args s) then _ else _).
  assert (Forall (fun e => is_save e = false) lr) as Hlr.
  { subst lr. destruct (neptune_logging (s_args s)); by repeat constructor. }
  clearbody lr.
  unfold bind at 1. unfold run_train. cbn [logged torch_rng fs trace].
  destruct (train _ _ _ _ _ _ _ _) as [[[[m o] sch] n] r]. cbn [fst snd].
  unfold bind at 1. unfold emit at 1. cbn [fs trace torch_rng].
  unfold bind at 1.
  match goal with
  | |- context [log_val_scores ?a ?i ?items ?mvs ?w0] =>
      destruct (log_val_scores_ok a i items mvs w0) as (o' & extra & -> & Hex)
  end.
  assert (Forall (fun e => is_save e = false) extra) as Hex'.
  { eapply Forall_impl; [exact Hex|]. by intros []. }
  unfold bind at 1, lift, dict_index, evaluate.
  rewrite dict_get_comprehension.
  destruct (decide (metric (s_args s) ∈ metrics (s_args s))); [|done].
  fold (primary_score s m).
  assert (Forall (fun e => is_save e = false)
            (lr ++ [TrainEpoch model_idx epoch; Validate model_idx epoch]
             ++ extra)) as Hbefore.
  { rewrite !Forall_app. repeat split; try done; by repeat constructor. }
  destruct (improved (s_args s) (primary_score s m) (ls_best_score st))
    eqn:Himp.
  - unfold bind, save_member, save_checkpoint, write_file, ret.
    cbn [logged fs trace torch_rng]. eexists _, _.
    exists (lr ++ [TrainEpoch model_idx epoch; Validate model_idx epoch]
            ++ extra).
    split; [reflexivity|]. cbn [ls_model ls_optimizer ls_n_iter ls_scheduler
      ls_best_score ls_best_epoch torch_rng fs trace]. rewrite Himp.
    split; [done|]. split; [done|]. split; [exact Hbefore|].
    split; [done|]. split; [done|]. split; [done|].
    by rewrite <- !app_assoc.
  - unfold ret, logged. cbn [fs trace torch_rng]. eexists _, _.
    exists (lr ++ [TrainEpoch model_idx epoch; Validate model_idx epoch]
            ++ extra).
    split; [reflexivity|]. cbn [ls_model ls_optimizer ls_n_iter ls_scheduler
      ls_best_score ls_best_epoch torch_rng fs trace]. rewrite Himp.
    split; [done|]. split; [done|]. split; [exact Hbefore|].
    split; [done|]. split; [done|]. split; [done|].
    by rewrite <- !app_assoc.
Qed.

Lemma SFcompare_Eq_compat x y z :
  SFcompare x y = Some Eq ->
  SFcompare x z = SFcompare y z /\ SFcompare z x = SFcompare z y.
Proof.
  destruct x as [s1|s1| |s1 m1 e1], y as [s2|s2| |s2 m2 e2]; cbn;
    try destruct s1; try destruct s2; cbn; try done.
  all: try (intros _; by destruct z as [s3|s3| |s3 m3 e3]).
  all: change (Pos.compare_cont Eq) with Pos.compare.
  all: destruct (Z.compare_spec e1 e2); try done;
    destruct (Pos.compare_spec m1 m2); try done; subst; done.
Qed.

(** [<] does not tell apart two floats that are [==]. *)
Lemma float_eqb_ltb_compat x y z :
  PrimFloat.eqb x y = true ->
  PrimFloat.ltb x z = PrimFloat.ltb y z
  /\ PrimFloat.ltb z x = PrimFloat.ltb z y.
Proof.
  rewrite FloatAxioms.eqb_spec, !FloatAxioms.ltb_spec. unfold SFeqb, SFltb.
  destruct (SFcompare (Prim2SF x) (Prim2SF y)) as [[]|] eqn:Hc; try done.
  intros _. by destruct (SFcompare_Eq_compat _ _ (Prim2SF z) Hc) as [-> ->].
Qed.

Lemma improved_eqb args x y best :
  PrimFloat.eqb x y = true -> improved args x best = improved args y best.
Proof.
  intros H. unfold improved.
  by destruct (float_eqb_ltb_compat x y best H) as [-> ->].
Qed.

Lemma improved_not_eqb args x y :
  improved args x y = true -> PrimFloat.eqb x y = false.
Proof.
  intros H. destruct (PrimFloat.eqb x y) eqn:He; [|done].
  destruct (float_eqb_not_ltb x y He) as [H1 H2].
  unfold improved in H. rewrite H1, H2 in H.
  by destruct (minimize_score args).
Qed.

(** Over the epochs of a member the checkpoint goes to the first epoch
    that reaches the final best score: no earlier epoch has a score equal
    to it. *)
Lemma epochs_loop_first_best s model_idx epochs st w :
  metric (s_args s) ∈ metrics (s_args s) ->
  exists st' w',
    epochs_loop s model_idx epochs st w = (Ok st', w')
    /\ (ls_best_score st' = ls_best_score st
        /\ ls_best_epoch st' = ls_best_epoch st
        /\ fs w' = fs w
        \/ exists k m epoch,
             trained_models s model_idx epochs (ls_model st)
               (ls_optimizer st) (ls_scheduler st) (ls_n_iter st)
               (torch_rng w) !! k = Some m
             /\ epochs !! k = Some epoch
             /\ ls_best_epoch st' = epoch
             /\ ls_best_score st' = primary_score s m
             /\ improved (s_args s) (primary_score s m) (ls_best_score st)
                = true
             /\ fs w' = <[checkpoint_path (s_args s) model_idx
                          := bundle s m]> (fs w)
             /\ forall j m',
                  j < k ->
                  trained_models s model_idx epochs (ls_model st)
                    (ls_optimizer st) (ls_scheduler st) (ls_n_iter st)
                    (torch_rng w) !! j = Some m' ->
                  PrimFloat.eqb (primary_score s m') (primary_score s m)
                  = false).
Proof.
  intros Hin. revert st w.
  induction epochs as [|epoch epochs IH]; intros st w.
  { exists st, w. cbn. split; [done|]. by left. }
  cbn [epochs_loop trained_models]. unfold bind.
  destruct (run_epoch_full s model_idx st epoch w Hin)
    as (st1 & w1 & before & -> & Heq & Hsch & _ & Himp).
  destruct (train _ _ _ _ _ _ _ _) as [[[[m o] sch] n] r].
  cbn [fst snd] in Heq, Hsch. injection Heq as Hm Ho Hn Hr.
  destruct (IH st1 w1) as (st' & w' & -> & Hcase).
  rewrite Hm, Ho, Hsch, Hn, Hr in Hcase. rewrite Hm in Himp.
  set (rest := trained_models s model_idx epochs m o _ n r) in *.
  set (v := primary_score s m) in *.
  exists st', w'. split; [done|].
  destruct (improved (s_args s) v (ls_best_score st)) eqn:Hv.
  - destruct Himp as (Hb1 & He1 & Hfs1 & _). right.
    destruct Hcase as [(-> & -> & ->)|(k & m' & ep & Hk & Hep & Hbe & Hbs
                                        & Hbetter & Hfs & Hfirst)].
    + exists 0, m, epoch. split_and!; try done. intros j m' Hj. lia.
    + exists (S k), m', ep. rewrite Hb1 in Hbetter.
      split_and!; try done.
      * by apply improved_trans with v.
      * by rewrite Hfs, Hfs1, insert_insert_eq.
      * intros [|j] mj Hj Hmj; cbn in Hmj.
        -- injection Hmj as <-.
           destruct (PrimFloat.eqb v (primary_score s m')) eqn:He; [|done].
           rewrite <- (improved_eqb _ _ _ _ He), improved_irrefl in Hbetter.
           done.
        -- apply (Hfirst j); [lia|done].
  - destruct Himp as (Hb1 & He1 & Hfs1 & _).
    destruct Hcase as [(-> & -> & ->)|(k & m' & ep & Hk & Hep & Hbe & Hbs
                                        & Hbetter & Hfs & Hfirst)].
    + by left.
    + right. exists (S k), m', ep. rewrite Hb1 in Hbetter.
      split_and!; try done.
      * by rewrite Hfs, Hfs1.
      * intros [|j] mj Hj Hmj; cbn in Hmj.
        -- injection Hmj as <-.
           destruct (PrimFloat.eqb v (primary_score s m')) eqn:He; [|done].
           by rewrite (improved_eqb _ _ _ _ He), Hbetter in Hv.
        -- apply (Hfirst j); [lia|done].
Qed.

(** C4: with the primary metric among the evaluated ones, every epoch
    completes and saves a checkpoint exactly when the aggregate
    validation score of the primary metric improves on the best score so
    far: then, after everything else the epoch does, the member's
    checkpoint is overwritten with the model just trained and the best
    score and epoch are updated; otherwise nothing is saved and they
    stay. To improve is to be strictly less than the best score when
    [args.minimize_score] is set and strictly greater when it is not, so
    a score equal to the best one saves nothing; over the epochs of a
    member the checkpoint is that of the first epoch to reach the final
    best score. After the loop the member loads the model from that
    checkpoint file and predicts with it. *)
Theorem checkpoint_iff_strictly_better s model_idx :
  metric (s_args s) ∈ metrics (s_args s) ->
  (forall st epoch w, exists st' w' before,
      run_epoch s model_idx st epoch w = (Ok st', w')
      /\ ls_model st'
         = (train (ls_model st) (s_train_data s) (ls_optimizer st)
              (ls_scheduler st) (s_args s) (ls_n_iter st) model_idx
              (torch_rng w)).1.1.1.1
      /\ Forall (fun e => is_save e = false) before
      /\ trace w'
         = trace w ++ before
           ++ (if improved (s_args s) (primary_score s (ls_model st'))
                    (ls_best_score st)
               then [SaveCheckpoint (checkpoint_path (s_args s) model_idx)]
               else [])
      /\ fs w'
         = (if improved (s_args s) (primary_score s (ls_model st'))
                 (ls_best_score st)
            then <[checkpoint_path (s_args s) model_idx
                   := bundle s (ls_model st')]> (fs w)
            else fs w)
      /\ ls_best_score st'
         = (if improved (s_args s) (primary_score s (ls_model st'))
                 (ls_best_score st)
            then primary_score s (ls_model st') else ls_best_score st)
      /\ ls_best_epoch st'
         = (if improved (s_args s) (primary_score s (ls_model st'))
                 (ls_best_score st)
            then epoch else ls_best_epoch st))
  /\ (forall v best,
        improved (s_args s) v best
        = if minimize_score (s_args s) then PrimFloat.ltb v best
          else PrimFloat.ltb best v)
  /\ (forall v best,
        PrimFloat.eqb v best = true -> improved (s_args s) v best = false)
  /\ (forall epochs st w, exists st' w',
        epochs_loop s model_idx epochs st w = (Ok st', w')
        /\ (ls_best_score st' = ls_best_score st
            /\ ls_best_epoch st' = ls_best_epoch st
            /\ fs w' = fs w
            \/ exists k m epoch,
                 trained_models s model_idx epochs (ls_model st)
                   (ls_optimizer st) (ls_scheduler st) (ls_n_iter st)
                   (torch_rng w) !! k = Some m
                 /\ epochs !! k = Some epoch
                 /\ ls_best_epoch st' = epoch
                 /\ ls_best_score st' = primary_score s m
                 /\ improved (s_args s) (primary_score s m)
                      (ls_best_score st) = true
                 /\ fs w' = <[checkpoint_path (s_args s) model_idx
                              := bundle s m]> (fs w)
                 /\ forall j m',
                      j < k ->
                      trained_models s model_idx epochs (ls_model st)
                        (ls_optimizer st) (ls_scheduler st) (ls_n_iter st)
                        (torch_rng w) !! j = Some m' ->
                      PrimFloat.eqb (primary_score s m') (primary_score s m)
                      = false))
  /\ (forall sum_test_preds mean_val_score w m w1 st w4,
        initial_model (s_args s) model_idx
          (logged w [Makedirs (member_dir (s_args s) model_idx)])
        = (Ok m, w1) ->
        epochs_loop s model_idx (seq 0 (epochs (s_args s)))
          (first_state s m mean_val_score) (saved s model_idx m w1)
        = (Ok st, w4) ->
        exists m' c,
          fs w4 !! checkpoint_path (s_args s) model_idx
          = Some (bundle s m')
          /\ train_member s (sum_test_preds, mean_val_score) model_idx w
             = test_member s sum_test_preds (ls_mean_val_score st)
                 model_idx m'
                 (loaded w4 (checkpoint_path (s_args s) model_idx) c)).
Proof.
  intros Hin. split_and!.
  - intros st epoch w.
    destruct (run_epoch_full s model_idx st epoch w Hin)
      as (st' & w' & before & Hrun & Hst & _ & Hbefore & Hcase).
    exists st', w', before. split; [exact Hrun|]. split.
    { destruct (train _ _ _ _ _ _ _ _) as [[[[m o] sch] n] r].
      by injection Hst. }
    split; [exact Hbefore|].
    destruct (improved _ _ _).
    + destruct Hcase as (-> & -> & -> & ->). done.
    + destruct Hcase as (-> & -> & -> & ->). by rewrite app_nil_r.
  - intros v best. unfold improved.
    destruct (minimize_score (s_args s)); cbn; by rewrite ?orb_false_r.
  - intros v best He. unfold improved.
    destruct (float_eqb_not_ltb v best He) as [-> ->].
    by destruct (minimize_score (s_args s)).
  - intros epochs st w. by apply epochs_loop_first_best.
  - intros sum_test_preds mean_val_score w m w1 st w4 Hm Hloop.
    destruct (train_member_reloads s sum_test_preds mean_val_score model_idx
                w m w1 st w4 Hm Hloop) as (m' & c & Hfile & _ & Hrun).
    by exists m', c.
Qed.

(** *** The sum of the members' predictions, in any run *)

Lemma bind_Ok_inv {A B} (m : M A) (k : A -> M B) w b w' :
  bind m k w = (Ok b, w') ->
  exists a w1, m w = (Ok a, w1) /\ k a w1 = (Ok b, w').
Proof.
  unfold bind. destruct (m w) as [[a|e] w1]; [by exists a, w1|done].
Qed.

(** Lines 393-394 for the model [m]:
    [if len(test_preds) != 0: sum_test_preds += np.array(test_preds)]. *)
Definition add_member (s : setup) (sum_test_preds : ndarray) (m : model)
    : result ndarray :=
  let test_preds := predict m (s_test_data s) (s_scaler s) in
  if decide (len test_preds = 0) then Ok sum_test_preds
  else iadd sum_test_preds test_preds.

(** The same for the models of the members, one after the other. *)
Fixpoint sum_predictions (s : setup) (models : list model)
    (sum_test_preds : ndarray) : result ndarray :=
  match models with
  | [] => Ok sum_test_preds
  | m :: rest =>
      match add_member s sum_test_preds m with
      | Ok sum_test_preds => sum_predictions s rest sum_test_preds
      | Raise e => Raise e
      end
  end.

Lemma test_member_sum s sum_test_preds mean_val_score model_idx m w res w' :
  s_empty_test_set s = false ->
  test_member s sum_test_preds mean_val_score model_idx m w = (Ok res, w') ->
  add_member s sum_test_preds m = Ok res.1.
Proof.
  intros Hempty. unfold test_member. rewrite Hempty. cbv zeta.
  intros (u & w1 & _ & Hr)%bind_Ok_inv.
  apply bind_Ok_inv in Hr as (sum1 & w2 & H1 & Hr).
  apply bind_Ok_inv in Hr as (u2 & w3 & _ & Hr).
  unfold ret in Hr. injection Hr as <- <-. cbn [fst].
  unfold add_member. cbv zeta.
  destruct (decide _); unfold ret, lift in H1; by injection H1 as ->.
Qed.

Lemma train_member_sum s sum_test_preds mean_val_score model_idx w res w' :
  s_empty_test_set s = false ->
  train_member s (sum_test_preds, mean_val_score) model_idx w = (Ok res, w') ->
  exists m, add_member s sum_test_preds m = Ok res.1.
Proof.
  intros Hempty. unfold train_member. cbv zeta.
  intros (u & w1 & _ & Hr)%bind_Ok_inv.
  apply bind_Ok_inv in Hr as (m0 & w2 & _ & Hr).
  apply bind_Ok_inv in Hr as (u2 & w3 & _ & Hr).
  apply bind_Ok_inv in Hr as (st & w4 & _ & Hr).
  apply bind_Ok_inv in Hr as (m & w5 & _ & Hr).
  exists m. by eapply test_member_sum.
Qed.

Lemma members_loop_sum s members acc w res w' :
  s_empty_test_set s = false ->
  members_loop s members acc w = (Ok res, w') ->
  exists models,
    length models = length members
    /\ sum_predictions s models acc.1 = Ok res.1.
Proof.
  intros Hempty. revert acc w.
  induction members as [|i members IH]; intros [sum_test_preds mvs] w.
  - cbn. intros [= <- <-]. by exists [].
  - cbn [members_loop].
    intros ([sum1 mvs1] & w1 & Hmember & Hrest)%bind_Ok_inv.
    destruct (train_member_sum _ _ _ _ _ _ _ Hempty Hmember) as [m Hm].
    destruct (IH _ _ Hrest) as (models & Hlen & Hsum).
    exists (m :: models). cbn [length sum_predictions fst] in *.
    rewrite Hm. split; [by rewrite Hlen|done].
Qed.

(** When every member's predictions have the shape of the sum, the sum
    is taken entry by entry. *)
Lemma sum_predictions_same_shape s models sum_test_preds :
  (forall m, shape (predict m (s_test_data s) (s_scaler s))
             = shape sum_test_preds) ->
  sum_predictions s models sum_test_preds
  = Ok (foldl add_preds sum_test_preds (predictions s models)).
Proof.
  revert sum_test_preds.
  induction models as [|m models IH]; intros sum_test_preds Hsh; [done|].
  cbn [sum_predictions predictions fmap list_fmap foldl].
  assert (add_member s sum_test_preds m
          = Ok (add_preds sum_test_preds
                  (predict m (s_test_data s) (s_scaler s)))) as ->.
  { unfold add_member, add_preds, iadd. cbv zeta.
    destruct (decide (len _ = 0)); [done|].
    by rewrite decide_True by (by rewrite Hsh). }
  apply IH. intros m'. by rewrite add_preds_shape.
Qed.

(** C1: in every run with a test split that is not empty, the scores
    returned are those of [evaluate_predictions] on one array of
    predictions: the sum of the members' test predictions, one member
    added after the other to zeros, divided by [args.ensemble_size];
    there is one summand per member, and the members' own test scores do
    not enter. When the predictions have the shape of the sum, that array
    is, entry by entry, the sum of the members' entries divided by the
    ensemble size: their arithmetic mean. With freshly built models, a
    primary metric that is evaluated and predictions of that shape, the
    run does return. *)
Theorem ensemble_prediction_is_mean_of_members args dataset w :
  (split args dataset).2 <> [] ->
  (forall scores w',
      run_training args dataset w = (Ok scores, w') ->
      exists models sum_test_preds,
        length models = ensemble_size args
        /\ sum_predictions (the_setup args dataset) models
             (initial_sum (the_setup args dataset)) = Ok sum_test_preds
        /\ scores
           = evaluate_predictions
               (true_divide sum_test_preds (ensemble_size args))
               (s_test_data (the_setup args dataset)) (num_tasks args)
               (metrics args) (dataset_type args)
        /\ ((forall m,
               shape (predict m (s_test_data (the_setup args dataset))
                        (s_scaler (the_setup args dataset)))
               = shape (initial_sum (the_setup args dataset))) ->
            true_divide sum_test_preds (ensemble_size args)
            = {| shape := shape (initial_sum (the_setup args dataset));
                 data :=
                   (fun x => PrimFloat.div x
                               (float_of_nat (ensemble_size args)))
                   <$> foldl (zip_with PrimFloat.add)
                         (data (initial_sum (the_setup args dataset)))
                         (data <$> predictions (the_setup args dataset)
                                     models) |}))
  /\ ((split args dataset).1.2 <> [] ->
      checkpoint_paths args = None ->
      checkpoint_frzn args = None ->
      metric args ∈ metrics args \/ epochs args = 0 ->
      neptune_logging args = false
      \/ (0 < epochs args /\ 0 < ensemble_size args) ->
      save_preds args = false ->
      (forall m,
         shape (predict m (s_test_data (the_setup args dataset))
                  (s_scaler (the_setup args dataset)))
         = shape (initial_sum (the_setup args dataset))) ->
      exists scores w', run_training args dataset w = (Ok scores, w')).
Proof.
  intros Htest.
  destruct (the_setup_fields args dataset) as (Hf1 & Hf2 & Hempty & Hlen).
  cbv zeta in Hf1, Hf2, Hempty, Hlen.
  destruct Hf1 as (_ & Hens & _).
  destruct Hf2 as (_ & _ & Hms & _ & _ & Hnt & Hdt).
  assert (length (split args dataset).2 <> 0) as Hne.
  { intros H. by apply nil_length_inv in H. }
  rewrite bool_decide_eq_false_2 in Hempty by done.
  split.
  - intros scores w'. rewrite run_training_unfold.
    destruct (decide (length (split args dataset).1.2 = 0)); [done|].
    set (s := the_setup args dataset) in *.
    intros (acc & w1 & Hloop & Hfin)%bind_Ok_inv.
    destruct (members_loop_sum _ _ _ _ _ _ Hempty Hloop)
      as (models & Hlenm & Hsum).
    apply finish_returns in Hfin as (_ & _ & _ & _ & Hres).
    cbn [fst] in Hsum.
    exists models, acc.1. rewrite length_seq, Hens in Hlenm.
    split; [done|]. split; [done|]. split.
    { rewrite Hres. unfold ensemble_scores.
      by rewrite Hempty, Hens, Hnt, Hms, Hdt. }
    intros Hshape.
    rewrite (sum_predictions_same_shape s models _ Hshape) in Hsum.
    injection Hsum as <-.
    assert (hd 0 (shape (initial_sum s)) <> 0) as Hhd.
    { unfold initial_sum, np_zeros.
      destruct (decide _); cbn [hd shape]; by rewrite Hlen. }
    destruct (initial_sum s) as [sh d]. cbn [shape data] in *.
    rewrite foldl_add_preds; [done|].
    unfold predictions. apply Forall_fmap, Forall_forall. intros m _.
    unfold compose, len. by rewrite Hshape.
  - intros Hval Hcp Hfrzn Hmetric Hlog Hsp Hshape.
    destruct (run_training_completes args dataset w Hval Hcp Hfrzn Hmetric
                Hlog) as (models & w' & extra & Hrun & _).
    { by right. }
    by eexists _, w'.
Qed.


End Training.

(** ** The run on toy collaborators

    A datapoint is a number, which is also its target; a model is the
    state of the generator it was built from plus the number of epochs
    it has been trained for. Splitting takes all the data for training,
    the first datapoint for validation and what follows the second one
    for testing. A model's validation score is its number; it predicts,
    for a datapoint, the datapoint plus its number. *)

Definition toy_args (neptune : bool) (n_epochs : nat)
    (paths : option (list string)) (primary : string)
    : TrainArgs unit unit unit :=
  {| neptune_logging := neptune; pytorch_seed := 7;
     separate_test_path := None; separate_val_path := None;
     dataset_type := "regression"; task_names := ["y"]; num_tasks := 1;
     multiclass_num_classes := 0; save_smiles_splits := false;
     features_scaling := true; atom_descriptor_scaling := false;
     atom_descriptors := None; bond_feature_scaling := false;
     bond_features_size := 0; cache_cutoff := 100; ensemble_size := 2;
     epochs := n_epochs; save_dir := "out"; checkpoint_paths := paths;
     checkpoint_frzn := None; minimize_score := false; metric := primary;
     metrics := ["rmse"; "mae"]; save_preds := false;
     train_class_sizes := None; train_data_size := 0;
     spectra_phase_mask := None; others := tt |}.

Definition toy_split_data (data : list nat) (args : TrainArgs unit unit unit)
    : list nat * list nat * list nat :=
  (data, take 1 data, drop 2 data).

Definition toy_train (m : nat) (data : list nat) (o s : unit)
    (args : TrainArgs unit unit unit) (n_iter model_idx r : nat)
    : nat * unit * unit * nat * nat :=
  (S m, o, s, n_iter + length data, S r).

Definition toy_predict (m : nat) (data : list nat) (sc : option unit)
    : ndarray :=
  {| shape := [length data; 1];
     data := (fun d => float_of_nat (d + m)) <$> data |}.

Definition toy_world : world unit nat nat unit unit unit :=
  {| fs := ∅; trace := []; torch_rng := 0 |}.

(** The SMILES of the three splits, each in a file of its own. *)
Definition toy_write_smiles_splits (args : TrainArgs unit unit unit)
    (train_data val_data test_data : list nat)
    (files : gmap string (file unit nat unit unit unit))
    : gmap string (file unit nat unit unit unit) :=
  <[path_join (save_dir _ _ _ args) "test_smiles.csv"
    := SmilesFile _ _ _ _ _ ((fun d => [pretty d]) <$> test_data)]>
    (<[path_join (save_dir _ _ _ args) "val_smiles.csv"
       := SmilesFile _ _ _ _ _ ((fun d => [pretty d]) <$> val_data)]>
       (<[path_join (save_dir _ _ _ args) "train_smiles.csv"
          := SmilesFile _ _ _ _ _ ((fun d => [pretty d]) <$> train_data)]>
          files)).

Definition toy_broadcast_iadd (a b : ndarray) : result ndarray :=
  Raise (ValueError "operands could not be broadcast together").

(** [f] at the toy collaborators: of a whole run, of the preparation, of
    a member, of an epoch. *)
Abbreviation toy_run f :=
  (f nat unit nat unit unit nat unit unit unit "model.pt"
     (fun (_ : string) (_ : TrainArgs unit unit unit) => @nil nat)
     toy_split_data (fun (_ : list nat) (_ : bool) => tt)
     (fun (_ : scale_kind) (s : option unit) (_ : list nat) => (s, @id nat))
     (fun _ : list nat => (tt, @id nat))
     (fun _ : TrainArgs unit unit unit => tt)
     (fun (_ : TrainArgs unit unit unit) (_ : unit) => @id nat)
     (fun d : nat => [pretty d]) (@id nat)
     (fun (_ : TrainArgs unit unit unit) (r : nat) => (r, S r))
     (fun (m : nat) (_ : file unit nat unit unit unit)
          (_ : TrainArgs unit unit unit) => m)
     (fun (_ : nat) (_ : TrainArgs unit unit unit) => tt)
     (fun (_ : unit) (_ : TrainArgs unit unit unit) => tt)
     toy_train (fun _ : unit => false) (@id unit)
     (fun _ : unit => @nil float)
     (fun (m : nat) (_ : list nat) (_ : nat) (_ : string) (_ : option unit)
          (_ : string) => [float_of_nat m])
     toy_predict
     (fun (preds : ndarray) (_ : list nat) (_ : nat) (_ _ : string) =>
        data preds)
     (fun (scores : list float) (_ : string) => hd nan scores)
     toy_write_smiles_splits
     (fun (_ : checkpoint unit nat unit unit unit) (r : nat) => r)
     toy_broadcast_iadd)
  (only parsing).

Abbreviation toy_member f :=
  (f nat unit nat unit unit nat unit unit unit "model.pt"
     (fun (_ : TrainArgs unit unit unit) (r : nat) => (r, S r))
     (fun (m : nat) (_ : file unit nat unit unit unit)
          (_ : TrainArgs unit unit unit) => m)
     (fun (_ : nat) (_ : TrainArgs unit unit unit) => tt)
     (fun (_ : unit) (_ : TrainArgs unit unit unit) => tt)
     toy_train (fun _ : unit => false) (@id unit)
     (fun _ : unit => @nil float)
     (fun (m : nat) (_ : list nat) (_ : nat) (_ : string) (_ : option unit)
          (_ : string) => [float_of_nat m])
     toy_predict
     (fun (preds : ndarray) (_ : list nat) (_ : nat) (_ _ : string) =>
        data preds)
     (fun (scores : list float) (_ : string) => hd nan scores)
     (fun (_ : checkpoint unit nat unit unit unit) (r : nat) => r)
     toy_broadcast_iadd)
  (only parsing).

Abbreviation toy_epoch f :=
  (f nat unit nat unit unit nat unit unit unit "model.pt"
     toy_train (fun _ : unit => false) (@id unit)
     (fun _ : unit => @nil float)
     (fun (m : nat) (_ : list nat) (_ : nat) (_ : string) (_ : option unit)
          (_ : string) => [float_of_nat m])
     (fun (scores : list float) (_ : string) => hd nan scores))
  (only parsing).

Definition toy_run_training
    : TrainArgs unit unit unit -> list nat ->
      M unit nat nat unit unit unit (dict (list float)) :=
  toy_run run_training.

Definition toy_setup (args : TrainArgs unit unit unit) (data : list nat)
    : setup nat unit unit unit unit :=
  the_setup nat unit unit unit unit
    (fun (_ : string) (_ : TrainArgs unit unit unit) => @nil nat)
    toy_split_data (fun (_ : list nat) (_ : bool) => tt)
    (fun (_ : scale_kind) (s : option unit) (_ : list nat) => (s, @id nat))
    (fun _ : list nat => (tt, @id nat))
    (fun _ : TrainArgs unit unit unit => tt)
    (fun (_ : TrainArgs unit unit unit) (_ : unit) => @id nat)
    args data.

Definition toy_state : loop_state nat unit unit :=
  {| ls_model := 0; ls_optimizer := tt; ls_scheduler := tt; ls_n_iter := 0;
     ls_best_score := neg_infinity; ls_best_epoch := 0;
     ls_mean_val_score := None |}.

(** Two members, two epochs each, on the data 1, 2, 3: the models the
    members end with are 9 and 12, the test datapoint is 3, and the mean
    of 12 and 15 is scored. *)
Example toy_run_scores :
  (toy_run_training (toy_args false 2 None "rmse") [1; 2; 3] toy_world).1
  = Ok [("rmse", [13.5%float]); ("mae", [13.5%float])].
Proof. vm_compute. reflexivity. Qed.

Example toy_run_no_validation :
  (toy_run_training (toy_args false 2 None "rmse") [] toy_world).1
  = Raise (ValueError empty_validation_message).
Proof. vm_compute. reflexivity. Qed.

(** *** The theorems at the toy collaborators *)

Definition toy_args_save_splits : TrainArgs unit unit unit :=
  {| neptune_logging := false; pytorch_seed := 7;
     separate_test_path := None; separate_val_path := None;
     dataset_type := "regression"; task_names := ["y"]; num_tasks := 1;
     multiclass_num_classes := 0; save_smiles_splits := true;
     features_scaling := true; atom_descriptor_scaling := false;
     atom_descriptors := None; bond_feature_scaling := false;
     bond_features_size := 0; cache_cutoff := 100; ensemble_size := 2;
     epochs := 2; save_dir := "out"; checkpoint_paths := None;
     checkpoint_frzn := None; minimize_score := false; metric := "rmse";
     metrics := ["rmse"; "mae"]; save_preds := false;
     train_class_sizes := None; train_data_size := 0;
     spectra_phase_mask := None; others := tt |}.

Lemma empty_validation_raises_before_any_model_witness :
  (exists w',
     toy_run_training (toy_args false 2 None "rmse") [] toy_world
     = (Raise (ValueError empty_validation_message), w')
     /\ fs _ _ _ _ _ _ w' = ∅)
  /\ (exists w',
        toy_run_training toy_args_save_splits [] toy_world
        = (Raise (ValueError empty_validation_message), w')
        /\ fs _ _ _ _ _ _ w' !! "out/train_smiles.csv"
           = Some (SmilesFile _ _ _ _ _ [])).
Proof.
  split.
  - destruct (toy_run empty_validation_raises_before_any_model
                (toy_args false 2 None "rmse") [] toy_world)
      as (w' & Hrun & _ & Hfs & _).
    + reflexivity.
    + exists w'. split; [exact Hrun|]. apply Hfs. reflexivity.
  - destruct (toy_run empty_validation_raises_before_any_model
                toy_args_save_splits [] toy_world)
      as (w' & Hrun & Hfs & _).
    + reflexivity.
    + exists w'. split; [exact Hrun|]. rewrite Hfs. vm_compute. reflexivity.
Defined.

Lemma tie_or_nan_is_no_improvement_witness :
  improved unit unit unit (toy_args false 2 None "rmse") 0.5 0.5 = false
  /\ improved unit unit unit (toy_args false 2 None "rmse") nan 0.5 = false.
Proof.
  split.
  - apply tie_or_nan_is_no_improvement. left. reflexivity.
  - apply tie_or_nan_is_no_improvement. right. left. reflexivity.
Defined.

Lemma first_finite_score_is_saved_witness :
  exists st' w',
    toy_epoch run_epoch (toy_setup (toy_args false 2 None "rmse") [1; 2; 3])
      0 toy_state 0 toy_world = (Ok st', w')
    /\ ls_best_score _ _ _ st' = float_of_nat 1
    /\ is_Some (fs _ _ _ _ _ _ w' !! "out/model_0/model.pt").
Proof.
  destruct (toy_epoch first_finite_score_is_saved
              (toy_setup (toy_args false 2 None "rmse") [1; 2; 3])
              0 toy_state 0 toy_world)
    as (st' & w' & Hrun & Hm & Hbest & Hfs).
  - apply (bool_decide_unpack _). vm_compute. exact I.
  - reflexivity.
  - vm_compute. reflexivity.
  - exists st', w'. split; [exact Hrun|]. split.
    + rewrite Hbest, Hm. vm_compute. reflexivity.
    + rewrite Hfs. eexists. apply lookup_insert_eq.
Defined.

Lemma run_epoch_saves_iff_improved_witness :
  exists st' w',
    toy_epoch run_epoch (toy_setup (toy_args false 2 None "rmse") [1; 2; 3])
      0 toy_state 0 toy_world = (Ok st', w')
    /\ ls_model _ _ _ st' = 1.
Proof.
  destruct (toy_epoch run_epoch_saves_iff_improved
              (toy_setup (toy_args false 2 None "rmse") [1; 2; 3])
              0 toy_state 0 toy_world)
    as (st' & w' & Hrun & Hm & _).
  - apply (bool_decide_unpack _). vm_compute. exact I.
  - exists st', w'. split; [exact Hrun|exact Hm].
Defined.

Lemma unknown_primary_metric_raises_witness :
  (toy_epoch run_epoch (toy_setup (toy_args false 2 None "r2") [1; 2; 3])
     0 toy_state 0 toy_world).1
  = Raise (KeyError "r2").
Proof.
  apply (toy_epoch unknown_primary_metric_raises
           (toy_setup (toy_args false 2 None "r2") [1; 2; 3])
           0 toy_state 0 toy_world).
  apply (bool_decide_unpack _). vm_compute. exact I.
Defined.

Lemma empty_test_set_gives_nan_scores_witness :
  exists scores w',
    toy_run_training (toy_args false 2 None "rmse") [1] toy_world
    = (Ok scores, w')
    /\ dict_get scores "rmse" = Some [nan]
    /\ dict_get scores "mae" = Some [nan]
    /\ dict_get scores "r2" = None.
Proof.
  destruct (toy_run empty_test_set_gives_nan_scores
              (toy_args false 2 None "rmse") [1] toy_world)
    as (scores & w' & Hrun & Hget & _).
  - discriminate.
  - reflexivity.
  - reflexivity.
  - reflexivity.
  - left. apply (bool_decide_unpack _). vm_compute. exact I.
  - left. reflexivity.
  - exists scores, w'. split; [exact Hrun|].
    split; [exact (Hget "rmse")|]. split; [exact (Hget "mae")|].
    exact (Hget "r2").
Defined.

Lemma neptune_logging_without_epochs_raises_witness :
  exists w',
    toy_run_training (toy_args true 0 None "rmse") [1] toy_world
    = (Raise (NameError "mean_val_score"), w').
Proof.
  destruct (toy_run neptune_logging_without_epochs_raises
              (toy_args true 0 None "rmse") [1] toy_world)
    as (w' & extra & Hrun & _).
  - discriminate.
  - reflexivity.
  - reflexivity.
  - reflexivity.
  - reflexivity.
  - reflexivity.
  - discriminate.
  - exists w'. exact Hrun.
Defined.

Lemma member_predicts_with_its_checkpoint_witness :
  exists m mvs' w',
    toy_member train_member
      (toy_setup (toy_args false 0 None "rmse") [1; 2; 3])
      (np_zeros [1; 1], None) 0 toy_world
    = (Ok (add_preds (np_zeros [1; 1]) (toy_predict m [3] (Some tt)), mvs'), w')
    /\ m = 0.
Proof.
  destruct (toy_member member_predicts_with_its_checkpoint
              (toy_setup (toy_args false 0 None "rmse") [1; 2; 3])
              (np_zeros [1; 1]) None 0 toy_world)
    as (m & mvs' & w' & Hrun & _ & Hzero).
  - reflexivity.
  - reflexivity.
  - right. reflexivity.
  - reflexivity.
  - intros m. reflexivity.
  - exists m, mvs', w'. split; [exact Hrun|]. apply Hzero. reflexivity.
Defined.

Lemma missing_checkpoint_path_raises_witness :
  (toy_member train_member
     (toy_setup (toy_args false 2 (Some ["a.pt"]) "rmse") [1; 2; 3])
     (np_zeros [1; 1], None) 1 toy_world).1
  = Raise IndexError.
Proof.
  rewrite (toy_member missing_checkpoint_path_raises
             (toy_setup (toy_args false 2 (Some ["a.pt"]) "rmse") [1; 2; 3])
             (np_zeros [1; 1], None) 1 ["a.pt"] toy_world).
  - reflexivity.
  - reflexivity.
  - cbn. lia.
Defined.

Lemma ensemble_scores_are_of_mean_prediction_witness :
  exists models w',
    length models = 2
    /\ toy_run_training (toy_args false 2 None "rmse") [1; 2; 3] toy_world
       = (Ok [("rmse",
               (fun x => PrimFloat.div x 2)
               <$> foldl (zip_with PrimFloat.add) [0%float]
                     (data <$> ((fun m => toy_predict m [3] (Some tt))
                                <$> models)));
              ("mae",
               (fun x => PrimFloat.div x 2)
               <$> foldl (zip_with PrimFloat.add) [0%float]
                     (data <$> ((fun m => toy_predict m [3] (Some tt))
                                <$> models)))], w').
Proof.
  destruct (toy_run ensemble_scores_are_of_mean_prediction
              (toy_args false 2 None "rmse") [1; 2; 3] toy_world)
    as (models & w' & Hlen & Hrun).
  - discriminate.
  - discriminate.
  - reflexivity.
  - reflexivity.
  - left. apply (bool_decide_unpack _). vm_compute. exact I.
  - left. reflexivity.
  - reflexivity.
  - discriminate.
  - intros m d sc. reflexivity.
  - exists models, w'. split; [exact Hlen|exact Hrun].
Defined.

Lemma checkpoint_is_of_an_unbeaten_epoch_witness :
  exists st' w',
    toy_epoch epochs_loop (toy_setup (toy_args false 2 None "rmse") [1; 2; 3])
      0 [0; 1; 2] toy_state toy_world = (Ok st', w')
    /\ improved unit unit unit (toy_args false 2 None "rmse")
         (float_of_nat 3) (ls_best_score _ _ _ st') = false.
Proof.
  destruct (toy_epoch checkpoint_is_of_an_unbeaten_epoch
              (toy_setup (toy_args false 2 None "rmse") [1; 2; 3])
              0 [0; 1; 2] toy_state toy_world)
    as (st' & w' & Hrun & Hall & _).
  - apply (bool_decide_unpack _). vm_compute. exact I.
  - exists st', w'. split; [exact Hrun|].
    apply Forall_cons in Hall as [_ Hall].
    apply Forall_cons in Hall as [_ Hall].
    apply Forall_cons in Hall as [H3 _]. exact H3.
Defined.

Definition toy_args_save_preds : TrainArgs unit unit unit :=
  {| neptune_logging := false; pytorch_seed := 7;
     separate_test_path := None; separate_val_path := None;
     dataset_type := "regression"; task_names := ["y"]; num_tasks := 1;
     multiclass_num_classes := 0; save_smiles_splits := false;
     features_scaling := true; atom_descriptor_scaling := false;
     atom_descriptors := None; bond_feature_scaling := false;
     bond_features_size := 0; cache_cutoff := 100; ensemble_size := 2;
     epochs := 2; save_dir := "out"; checkpoint_paths := None;
     checkpoint_frzn := None; minimize_score := false; metric := "rmse";
     metrics := ["rmse"; "mae"]; save_preds := true;
     train_class_sizes := None; train_data_size := 0;
     spectra_phase_mask := None; others := tt |}.

Example toy_run_predictions_file :
  fs _ _ _ _ _ _ (toy_run_training toy_args_save_preds [1; 2; 3] toy_world).2
    !! "out/test_preds.csv"
  = Some (PredsFile _ _ _ _ _
            [("smiles", SmilesSeries [["3"]]);
             ("y", FloatSeries [[13.5%float]])]).
Proof. vm_compute. reflexivity. Qed.

Lemma scores_file_written_once_sorted_witness :
  exists members before,
    fs _ _ _ _ _ _
      (toy_run_training toy_args_save_preds [1; 2; 3] toy_world).2
      !! "out/test_scores.json"
    = Some (ScoresFile _ _ _ _ _ members)
    /\ members ≡ₚ [("rmse", [13.5%float]); ("mae", [13.5%float])]
    /\ StronglySorted key_le members
    /\ trace _ _ _ _ _ _
         (toy_run_training toy_args_save_preds [1; 2; 3] toy_world).2
       = before ++ [WriteScores "out/test_scores.json";
                    WritePreds "out/test_preds.csv"].
Proof.
  destruct (toy_run scores_file_written_once_sorted
              toy_args_save_preds [1; 2; 3] toy_world
              [("rmse", [13.5%float]); ("mae", [13.5%float])]
              (toy_run_training toy_args_save_preds [1; 2; 3] toy_world).2)
    as (members & before & Hfile & Hperm & Hsort & _ & Htr & _).
  - vm_compute. reflexivity.
  - exists members, before. split; [exact Hfile|].
    split; [exact Hperm|]. split; [exact Hsort|exact Htr].
Defined.

Lemma predictions_file_has_a_column_per_task_witness :
  exists scores frame w' c,
    toy_run_training toy_args_save_preds [1; 2; 3] toy_world = (Ok scores, w')
    /\ fs _ _ _ _ _ _ w' !! "out/test_preds.csv"
       = Some (PredsFile _ _ _ _ _ frame)
    /\ dict_get frame "smiles" = Some (SmilesSeries [["3"]])
    /\ dict_get frame "y" = Some (FloatSeries c)
    /\ length c = 1.
Proof.
  destruct (toy_run predictions_file_has_a_column_per_task
              toy_args_save_preds [1; 2; 3] toy_world)
    as (models & scores & frame & w' & Hrun & _ & Hfile & Hcols & Hsmiles & _).
  - discriminate.
  - discriminate.
  - reflexivity.
  - reflexivity.
  - left. apply (bool_decide_unpack _). vm_compute. exact I.
  - left. reflexivity.
  - reflexivity.
  - discriminate.
  - intros m d sc. reflexivity.
  - cbn. lia.
  - destruct (Hcols 0 "y" eq_refl) as (c & _ & Hlen & Hget).
    { apply (bool_decide_unpack _). vm_compute. exact I. }
    exists scores, frame, w', c. split; [exact Hrun|].
    split; [exact Hfile|]. split.
    + apply Hsmiles. apply (bool_decide_unpack _). vm_compute. exact I.
    + split; [exact Hget|exact Hlen].
Defined.

Definition toy_world_with_checkpoint : world unit nat nat unit unit unit :=
  {| fs := {[ "a.pt" :=
                CheckpointFile _ _ _ _ _
                  {| ck_model := 41; ck_scaler := None;
                     ck_features_scaler := Some tt;
                     ck_atom_descriptor_scaler := None;
                     ck_bond_feature_scaler := None;
                     ck_args := toy_args true 5 None "mae" |} ]};
     trace := []; torch_rng := 0 |}.

Lemma warm_start_rebundles_loaded_model_witness :
  exists w',
    toy_member train_member
      (toy_setup (toy_args false 0 (Some ["a.pt"]) "rmse") [1])
      (np_zeros [0; 1], None) 0 toy_world_with_checkpoint
    = (Ok (np_zeros [0; 1], None), w')
    /\ trace _ _ _ _ _ _ w'
       = [Makedirs "out/model_0"; LoadCheckpoint "a.pt";
          SaveCheckpoint "out/model_0/model.pt";
          LoadCheckpoint "out/model_0/model.pt"].
Proof.
  destruct (toy_member warm_start_rebundles_loaded_model
              (toy_setup (toy_args false 0 (Some ["a.pt"]) "rmse") [1])
              (np_zeros [0; 1]) None 0 ["a.pt"] "a.pt"
              {| ck_model := 41; ck_scaler := None;
                 ck_features_scaler := Some tt;
                 ck_atom_descriptor_scaler := None;
                 ck_bond_feature_scaler := None;
                 ck_args := toy_args true 5 None "mae" |}
              toy_world_with_checkpoint)
    as (w' & Hrun & _ & Htr).
  - reflexivity.
  - reflexivity.
  - reflexivity.
  - reflexivity.
  - reflexivity.
  - reflexivity.
  - exists w'. split; [exact Hrun|exact Htr].
Defined.

(** *** The claims about a whole run and about a member *)

Lemma ensemble_prediction_is_mean_of_members_witness :
  exists models sum_test_preds,
    length models = 2
    /\ data (true_divide sum_test_preds 2)
       = (fun x => PrimFloat.div x 2)
         <$> foldl (zip_with PrimFloat.add) [0%float]
               (data <$> ((fun m => toy_predict m [3] (Some tt)) <$> models)).
Proof.
  destruct (toy_run ensemble_prediction_is_mean_of_members
              (toy_args false 2 None "rmse") [1; 2; 3] toy_world)
    as [Hreturned _].
  - discriminate.
  - destruct (Hreturned
                [("rmse", [13.5%float]); ("mae", [13.5%float])]
                (toy_run_training (toy_args false 2 None "rmse") [1; 2; 3]
                   toy_world).2)
      as (models & sum_test_preds & Hlen & _ & _ & Hmean).
    + vm_compute. reflexivity.
    + exists models, sum_test_preds. split; [exact Hlen|].
      change 2 with (ensemble_size _ _ _ (toy_args false 2 None "rmse")) at 1.
      rewrite Hmean; [reflexivity|]. intros m. reflexivity.
Defined.



Lemma checkpoint_iff_strictly_better_witness :
  exists st' w' before,
    toy_epoch run_epoch (toy_setup (toy_args false 2 None "rmse") [1; 2; 3])
      0 toy_state 0 toy_world = (Ok st', w')
    /\ trace _ _ _ _ _ _ w'
       = before ++ [SaveCheckpoint "out/model_0/model.pt"]
    /\ improved unit unit unit (toy_args false 2 None "rmse") 0.5 0.5
       = false.
Proof.
  destruct (toy_member checkpoint_iff_strictly_better
              (toy_setup (toy_args false 2 None "rmse") [1; 2; 3]) 0)
    as (Hepoch & _ & Htie & _).
  - apply (bool_decide_unpack _). vm_compute. exact I.
  - destruct (Hepoch toy_state 0 toy_world)
      as (st' & w' & before & Hrun & Hm & _ & Htr & _).
    exists st', w', before. split; [exact Hrun|]. split.
    + rewrite Htr, Hm. reflexivity.
    + apply Htie. reflexivity.
Defined.

(** The world in which member 0 has just built its model. *)
Definition toy_world_with_model : world unit nat nat unit unit unit :=
  {| fs := ∅; trace := [Makedirs "out/model_0"; BuildModel 0];
     torch_rng := 1 |}.

Lemma first_checkpoint_precedes_epoch_loop_witness :
  exists w2,
    save_member nat unit nat nat unit unit unit "model.pt"
      (toy_setup (toy_args false 0 None "rmse") [1; 2; 3]) 0 0
      toy_world_with_model = (Ok tt, w2)
    /\ is_Some (fs _ _ _ _ _ _ w2 !! "out/model_0/model.pt").
Proof.
  destruct (toy_member first_checkpoint_precedes_epoch_loop
              (toy_setup (toy_args false 0 None "rmse") [1; 2; 3])
              (np_zeros [1; 1]) None 0 toy_world 0 toy_world_with_model)
    as (Hsave & Hfile & _).
  - reflexivity.
  - eexists. split; [exact Hsave|]. eexists. exact Hfile.
Defined.

End RunTraining.

(** * model.py: build_model *)

Module BuildModel.

(** A parameter tensor: its shape and its entries. *)
Record tensor : Type := { t_shape : list nat; t_values : list float }.

(** [param.dim()] *)
Definition dim (param : tensor) : nat := length (t_shape param).

(** [nn.init.constant_(param, val)], in place. *)
Definition constant_ (param : tensor) (val : float) : tensor :=
  {| t_shape := t_shape param;
     t_values := replicate (length (t_values param)) val |}.

(** The fields of the [Namespace] that [build_model] reads; the encoders
    read more. *)
Record Namespace (other_args : Type) : Type := {
  dataset_type : string;
  num_bins : nat;
  num_tasks : nat;
  jtnn : bool;
  hidden_size : nat;
  others : other_args
}.
Arguments dataset_type {_} _.
Arguments num_bins {_} _.
Arguments num_tasks {_} _.
Arguments jtnn {_} _.
Arguments hidden_size {_} _.
Arguments others {_} _.

(** The modules of the [nn.Sequential]. *)
Inductive module : Type :=
  | JTNN_encoder
  | MPN_encoder
  | Linear (in_features out_features : nat)
  | ReLU
  | Sigmoid.

(** The model: its modules, and [model.parameters()] in their order. *)
Record Sequential : Type := {
  modules : list module;
  parameters : list tensor
}.

Section Build.

Variable other_args : Type.
Variable rng : Type.

(** The parameters a new encoder comes with. *)
Variable JTNN : Namespace other_args -> rng -> list tensor * rng.
Variable MPN : Namespace other_args -> rng -> list tensor * rng.
(** Weight and bias of a new [nn.Linear(in_features, out_features)]. *)
Variable nn_Linear : nat -> nat -> rng -> tensor * tensor * rng.
(** [nn.init.xavier_normal_(param)], in place. *)
Variable xavier_normal_ : tensor -> rng -> tensor * rng.

(** [for param in model.parameters(): ...] *)
Fixpoint init_parameters (params : list tensor) (r : rng)
    : list tensor * rng :=
  match params with
  | [] => ([], r)
  | param :: rest =>
      let '(param, r) :=
        if decide (dim param = 1) then (constant_ param 0, r)
        else xavier_normal_ param r in
      let '(rest, r) := init_parameters rest r in
      (param :: rest, r)
  end.

(** [1 + args.jtnn]: a bool counts as 0 or 1. *)
Definition int_of_bool (b : bool) : nat := if b then 1 else 0.

Definition build_model (args : Namespace other_args) (r : rng)
    : Sequential * rng :=
  let output_size :=
    if decide (dataset_type args = "regression_with_binning")
    then num_bins args * num_tasks args
    else num_tasks args in
  let '(encoder, encoder_parameters, r) :=
    if jtnn args
    then let '(ps, r) := JTNN args r in (JTNN_encoder, ps, r)
    else let '(ps, r) := MPN args r in (MPN_encoder, ps, r) in
  let '(w1, b1, r) :=
    nn_Linear (hidden_size args * (1 + int_of_bool (jtnn args)))
      (hidden_size args) r in
  let '(w2, b2, r) := nn_Linear (hidden_size args) output_size r in
  let modules :=
    [encoder;
     Linear (hidden_size args * (1 + int_of_bool (jtnn args)))
       (hidden_size args);
     ReLU;
     Linear (hidden_size args) output_size] in
  let modules :=
    if decide (dataset_type args = "classification")
    then modules ++ [Sigmoid] else modules in
  let '(params, r) :=
    init_parameters (encoder_parameters ++ [w1; b1; w2; b2]) r in
  ({| modules := modules; parameters := params |}, r).

Definition all_zero (param : tensor) : Prop :=
  Forall (fun x => x = 0%float) (t_values param).

Lemma init_parameters_spec (params : list tensor) (r : rng) :
  (forall p r', t_shape (xavier_normal_ p r').1 = t_shape p) ->
  Forall2 (fun p p' => t_shape p' = t_shape p
                       /\ length (t_values p) = length (t_values p')
                          \/ dim p <> 1)
    params (init_parameters params r).1
  /\ Forall (fun p' => dim p' = 1 -> all_zero p')
       (init_parameters params r).1.
Proof.
  intros Hx. revert r. induction params as [|p params IH]; intros r.
  - cbn. split; constructor.
  - cbn [init_parameters].
    destruct (decide (dim p = 1)) as [Hd|Hd].
    + destruct (IH r) as [H1 H2].
      destruct (init_parameters params r) as [rest r']. cbn [fst] in *.
      split; constructor; try done.
      * left. cbn. by rewrite length_replicate.
      * intros _. unfold all_zero. cbn.
        apply Forall_forall. by intros x ?%elem_of_replicate_inv.
    + pose proof (Hx p r) as Hs.
      destruct (xavier_normal_ p r) as [p' r1]. cbn [fst] in Hs.
      destruct (IH r1) as [H1 H2].
      destruct (init_parameters params r1) as [rest r']. cbn [fst] in *.
      split; constructor; try done.
      * by right.
      * intros Hd'. unfold dim in *. by rewrite Hs in Hd'.
Qed.

(** X19: if Xavier initialisation keeps a parameter's shape, every
    parameter of the built model that has one dimension (the biases of
    the two linear layers, and whatever one-dimensional parameters the
    encoder has) is all zeros, and the model has the encoder's parameters
    followed by the weight and the bias of each of the two linear layers,
    as many as before the initialisation. *)
Theorem build_model_zeroes_one_dimensional_parameters
    (args : Namespace other_args) (r : rng) :
  (forall p r', t_shape (xavier_normal_ p r').1 = t_shape p) ->
  Forall (fun p => dim p = 1 -> all_zero p) (parameters (build_model args r).1)
  /\ length (parameters (build_model args r).1)
     = length ((if jtnn args then JTNN args r else MPN args r).1) + 4.
Proof.
  intros Hx. unfold build_model. cbv zeta.
  assert (exists enc ps r1,
             (if jtnn args
              then let '(ps, r) := JTNN args r in (JTNN_encoder, ps, r)
              else let '(ps, r) := MPN args r in (MPN_encoder, ps, r))
             = (enc, ps, r1)
             /\ (if jtnn args then JTNN args r else MPN args r).1 = ps)
    as (enc & ps & r1 & -> & ->).
  { destruct (jtnn args).
    - destruct (JTNN args r) as [ps r1]. by eexists _, _, _.
    - destruct (MPN args r) as [ps r1]. by eexists _, _, _. }
  destruct (nn_Linear _ _ r1) as [[w1 b1] r2].
  destruct (nn_Linear _ _ r2) as [[w2 b2] r3].
  destruct (init_parameters_spec (ps ++ [w1; b1; w2; b2]) r3 Hx) as [H1 H2].
  destruct (init_parameters (ps ++ [w1; b1; w2; b2]) r3) as [params r4].
  cbn [fst parameters] in *. split; [exact H2|].
  apply Forall2_length in H1. rewrite <- H1, length_app. done.
Qed.

End Build.

(** *** build_model on toy layers *)

Definition toy_tensor (shape : list nat) (x : float) : tensor :=
  {| t_shape := shape; t_values := replicate (foldr Nat.mul 1 shape) x |}.

Definition toy_build (args : Namespace unit) : Sequential * nat :=
  build_model unit nat
    (fun _ r => ([toy_tensor [3; 3] 1; toy_tensor [3] 1], S r))
    (fun _ r => ([toy_tensor [3; 2] 1], S r))
    (fun i o r => (toy_tensor [o; i] 1, toy_tensor [o] 1, S r))
    (fun p r => (toy_tensor (t_shape p) 0.5, S r))
    args 0.

Definition toy_namespace : Namespace unit :=
  {| dataset_type := "classification"; num_bins := 4; num_tasks := 2;
     jtnn := true; hidden_size := 3; others := tt |}.

Example toy_build_parameters :
  parameters (toy_build toy_namespace).1
  = [toy_tensor [3; 3] 0.5; toy_tensor [3] 0; toy_tensor [3; 6] 0.5;
     toy_tensor [3] 0; toy_tensor [2; 3] 0.5; toy_tensor [2] 0].
Proof. vm_compute. reflexivity. Qed.

Lemma build_model_zeroes_one_dimensional_parameters_witness :
  Forall (fun p => dim p = 1 -> all_zero p)
    (parameters (toy_build toy_namespace).1)
  /\ length (parameters (toy_build toy_namespace).1) = 6.
Proof.
  apply (build_model_zeroes_one_dimensional_parameters unit nat
           (fun _ r => ([toy_tensor [3; 3] 1; toy_tensor [3] 1], S r))
           (fun _ r => ([toy_tensor [3; 2] 1], S r))
           (fun i o r => (toy_tensor [o; i] 1, toy_tensor [o] 1, S r))
           (fun p r => (toy_tensor (t_shape p) 0.5, S r))
           toy_namespace 0).
  intros p r'. reflexivity.
Defined.

End BuildModel.
